(** * xmldatetime: the XML Schema dateTime parsers and formatter of data.go

    A shallow embedding of package [xmldatetime] (data.go) and of the parts of
    the Go standard library it calls (strconv.ParseInt, regexp, time.Date,
    Time.Format, fmt.Sprintf, strings.TrimRight), followed by the properties
    of the package that the specification states.

    Conventions of the embedding.
    - A Go [string] is a sequence of bytes: [string] of the Standard Library,
      whose characters ([ascii]) are the 256 byte values.
    - A Go [int] is 64 bits wide (the gc compiler on amd64/arm64); values are
      in [Z] and every arithmetic operation of the package is followed by
      [wrapInt].  Lengths and indices, which are never negative here, are in
      [nat].
    - A Go function returning [(v, error)] is a function into [result]:
      [Ok v] for a nil error, [Err e] for a non-nil one (every caller in the
      package discards the accompanying values then), and [Panic p] for a
      run-time panic (index or slice bounds out of range). *)

From Stdlib Require Import ZArith List String Ascii Bool Lia.
Import ListNotations.

Open Scope string_scope.
Open Scope Z_scope.

(** ** Errors, results and run-time panics *)

(** [strconv.ErrSyntax] and [strconv.ErrRange]. *)
Inductive numErr : Type := ErrSyntax | ErrRange.

(** The error values of the package: [errors.New msg] and
    [*strconv.NumError{Func, Num, Err}]. *)
Inductive error : Type :=
| errorsNew (msg : string)
| NumError (func : string) (num : string) (err : numErr).

Inductive panic : Type :=
| IndexOutOfRange
| SliceBoundsOutOfRange.

Inductive result (A : Type) : Type :=
| Ok (a : A)
| Err (e : error)
| Panic (p : panic).

Arguments Ok {A} a.
Arguments Err {A} e.
Arguments Panic {A} p.

Definition bind {A B : Type} (m : result A) (k : A -> result B) : result B :=
  match m with
  | Ok a => k a
  | Err e => Err e
  | Panic p => Panic p
  end.

Notation "x <- m ;; k" := (bind m (fun x => k))
  (at level 61, m at next level, right associativity).
Notation "' pat <- m ;; k" := (bind m (fun x => match x with pat => k end))
  (at level 61, pat pattern, m at next level, right associativity).

Definition isOk {A : Type} (r : result A) : bool :=
  match r with Ok _ => true | _ => false end.

Definition isErr {A : Type} (r : result A) : bool :=
  match r with Err _ => true | _ => false end.

Definition isPanic {A : Type} (r : result A) : bool :=
  match r with Panic _ => true | _ => false end.

(** ** Machine integers *)

(** Two's complement wrap-around of a 64-bit [int]. *)
Definition wrapInt (z : Z) : Z := (z + 2 ^ 63) mod 2 ^ 64 - 2 ^ 63.

(** ** Byte strings *)

(** [len(s)]. *)
Definition len (s : string) : nat := String.length s.

(** [s[i]]: panics when [i] is not below [len(s)]. *)
Definition index (s : string) (i : nat) : result ascii :=
  match String.get i s with
  | Some c => Ok c
  | None => Panic IndexOutOfRange
  end.

Fixpoint drop (n : nat) (s : string) : string :=
  match n, s with
  | O, _ => s
  | S n', String _ s' => drop n' s'
  | S _, EmptyString => EmptyString
  end.

Fixpoint take (n : nat) (s : string) : string :=
  match n, s with
  | S n', String c s' => String c (take n' s')
  | _, _ => EmptyString
  end.

(** [s[n:]]: panics when [n] exceeds [len(s)]. *)
Definition sliceFrom (s : string) (n : nat) : result string :=
  if (len s <? n)%nat then Panic SliceBoundsOutOfRange else Ok (drop n s).

(** [s[:n]]: panics when [n] exceeds [len(s)]. *)
Definition sliceTo (s : string) (n : nat) : result string :=
  if (len s <? n)%nat then Panic SliceBoundsOutOfRange else Ok (take n s).

(** ['0' <= c && c <= '9']. *)
Definition isDigit (c : ascii) : bool :=
  Ascii.leb "0" c && Ascii.leb c "9".

(** [c - '0'] on bytes (wraps modulo 256). *)
Definition byteSub0 (c : ascii) : Z :=
  (Z.of_N (N_of_ascii c) - 48) mod 256.

(** ** strconv *)

Module strconv.

(** The digit loop of [strconv.ParseUint(s, 10, bitSize)] on a non-empty
    [s]: the value read so far and the error, if any.  Any byte that is not
    a decimal digit is a syntax error; a value above [1<<bitSize - 1] is a
    range error. *)
Fixpoint parseUintLoop (s : string) (n maxVal : Z) : Z * option numErr :=
  match s with
  | EmptyString => (n, None)
  | String c s' =>
      if isDigit c then
        if n >=? (2 ^ 64 - 1) / 10 + 1 then (maxVal, Some ErrRange)
        else
          let n := n * 10 in
          let n1 := (n + byteSub0 c) mod 2 ^ 64 in
          if (n1 <? n) || (n1 >? maxVal) then (maxVal, Some ErrRange)
          else parseUintLoop s' n1 maxVal
      else (0, Some ErrSyntax)
  end.

Definition ParseUint (s : string) (bitSize : Z) : Z * option numErr :=
  match s with
  | EmptyString => (0, Some ErrSyntax)
  | _ => parseUintLoop s 0 (2 ^ bitSize - 1)
  end.

(** [strconv.ParseInt(s, 10, bitSize)]: an optional sign, then decimal
    digits. *)
Definition ParseInt (s0 : string) (bitSize : Z) : result Z :=
  match s0 with
  | EmptyString => Err (NumError "ParseInt" s0 ErrSyntax)
  | String c s' =>
      let '(neg, s) :=
        if Ascii.eqb c "+" then (false, s')
        else if Ascii.eqb c "-" then (true, s')
        else (false, s0) in
      match ParseUint s bitSize with
      | (_, Some ErrSyntax) => Err (NumError "ParseInt" s0 ErrSyntax)
      | (un, _) =>
          let cutoff := 2 ^ (bitSize - 1) in
          if negb neg && (un >=? cutoff) then Err (NumError "ParseInt" s0 ErrRange)
          else if neg && (un >? cutoff) then Err (NumError "ParseInt" s0 ErrRange)
          else Ok (if neg then - un else un)
      end
  end.

End strconv.

(** ** time: locations *)

(** [*time.Location], for the two kinds of location the package builds:
    [time.UTC] and [time.FixedZone(name, offset)] ([offset] in seconds east
    of UTC). *)
Inductive Location : Type :=
| UTC
| FixedZone (name : string) (offset : Z).

(** The offset that [Time.Zone] reports in a location. *)
Definition zoneOffset (l : Location) : Z :=
  match l with
  | UTC => 0
  | FixedZone _ offset => offset
  end.

(** ** The package: field readers and decoders *)

(** [exactInt(s, l)]: the integer in the first [l] bytes of [s] and the rest
    of [s]. *)
Definition exactInt (s : string) (l : nat) : result (Z * string) :=
  if (len s <? l)%nat then Err (errorsNew "not enough")
  else
    pre <- sliceTo s l ;;
    match strconv.ParseInt pre 64 with
    | Ok i => rest <- sliceFrom s l ;; Ok (i, rest)
    | Err e => Err e
    | Panic p => Panic p
    end.

(** [math.Pow10(n)] converted to [int]: exact for the exponents 0 to 9 that
    the package uses. *)
Definition Pow10 (n : nat) : Z := 10 ^ Z.of_nat n.

(** The loop of [parseFractionalSecond], run on the bytes from index [i] on:
    the final [(i, lastDigit, nsec)]. *)
Fixpoint fracLoop (s : string) (i : nat) (lastDigit nsec : Z) : nat * Z * Z :=
  match s with
  | String c s' =>
      if (i <? 10)%nat && isDigit c then
        let nsec := wrapInt (nsec * 10) in
        let lastDigit := byteSub0 c in
        fracLoop s' (S i) lastDigit (wrapInt (nsec + lastDigit))
      else (i, lastDigit, nsec)
  | EmptyString => (i, lastDigit, nsec)
  end.

Definition parseFractionalSecond (s : string) : result (Z * string) :=
  let '(i, lastDigit, nsec) := fracLoop s 0 0 0 in
  if (i =? 0)%nat then
    Err (errorsNew "after . indicating fractional seconds there must be digit")
  else if lastDigit =? 0 then
    Err (errorsNew "fractional second must not end in '0'")
  else
    s <- sliceFrom s i ;;
    if (9 <? i)%nat then
      Err (errorsNew "does not support fraction with precision smaller than 1e-9")
    else if (i <? 9)%nat then
      Ok (wrapInt (nsec * Pow10 (9 - i)), s)
    else Ok (nsec, s).

Definition parseTz (s : string) : result Location :=
  match len s with
  | 0%nat => Ok UTC
  | 1%nat =>
      c <- index s 0 ;;
      if negb (Ascii.eqb c "Z") then Err (errorsNew "tz 1 char but not Z")
      else Ok UTC
  | 6%nat =>
      let tz := s in
      c <- index s 0 ;;
      sign <- (if Ascii.eqb c "+" then Ok 1
               else if Ascii.eqb c "-" then Ok (-1)
               else Err (errorsNew "timezone must start from + or -")) ;;
      s <- sliceFrom s 1 ;;
      '(hz, s) <- exactInt s 2 ;;
      if hz >? 14 then Err (errorsNew "max timezone hour is 14")
      else
        c <- index s 0 ;;
        if negb (Ascii.eqb c ":") then
          Err (errorsNew "expected : in dateTime format after 2 digit timezone hour")
        else
          s <- sliceFrom s 1 ;;
          '(mz, s) <- exactInt s 2 ;;
          Ok (FixedZone tz (wrapInt (wrapInt (sign * wrapInt (wrapInt (hz * 60) + mz)) * 60)))
  | _ => Err (errorsNew "timezone requires exactly 6 characters if not Z")
  end.

(** ** time: instants, [time.Date] and the calendar of [Time.Format]

    The model follows the library's algorithms on the absolute-seconds scale
    (seconds since 1 January of the absolute zero year); the library's
    [uint64] intermediate values are in [Z], exact for every year the
    package can produce. *)

(** A [time.Time]: seconds since the Unix epoch (UTC), the nanosecond within
    the second, and the location it is displayed in. *)
Record Time : Type := mkTime {
  unixSec : Z;
  nanos : Z;
  location : Location
}.

Definition secondsPerDay : Z := 86400.
Definition daysPer400Years : Z := 365 * 400 + 97.
Definition daysPer100Years : Z := 365 * 100 + 24.
Definition daysPer4Years : Z := 365 * 4 + 1.
Definition absoluteZeroYear : Z := -292277022399.
Definition unixToInternal : Z :=
  (1969 * 365 + 1969 / 4 - 1969 / 100 + 1969 / 400) * secondsPerDay.
Definition internalToUnix : Z := - unixToInternal.
Definition absoluteToInternal : Z := -9223371966579724800.
Definition internalToAbsolute : Z := - absoluteToInternal.

(** [daysBefore[m]]: the days of a non-leap year before month [m+1]. *)
Definition daysBefore (m : Z) : Z :=
  nth (Z.to_nat m) [0; 31; 59; 90; 120; 151; 181; 212; 243; 273; 304; 334; 365] 0.

Definition isLeap (year : Z) : bool :=
  (Z.rem year 4 =? 0) && (negb (Z.rem year 100 =? 0) || (Z.rem year 400 =? 0)).

(** [norm(hi, lo, base)]: [lo] brought into [0, base), the carry moved into
    [hi]. *)
Definition norm (hi lo base : Z) : Z * Z :=
  let '(hi, lo) :=
    if lo <? 0 then
      let n := Z.quot (- lo - 1) base + 1 in (hi - n, lo + n * base)
    else (hi, lo) in
  if lo >=? base then
    let n := Z.quot lo base in (hi + n, lo - n * base)
  else (hi, lo).

(** [time.Date(year, month, day, hour, min, sec, nsec, loc)]: out-of-range
    values are normalised, never refused. *)
Definition Date (year month day hour min sec nsec : Z) (loc : Location) : Time :=
  let m := month - 1 in
  let '(year, m) := norm year m 12 in
  let month := m + 1 in
  let '(sec, nsec) := norm sec nsec 1000000000 in
  let '(min, sec) := norm min sec 60 in
  let '(hour, min) := norm hour min 60 in
  let '(day, hour) := norm day hour 24 in
  let y := year - absoluteZeroYear in
  let n := y / 400 in
  let y := y - 400 * n in
  let d := daysPer400Years * n in
  let n := y / 100 in
  let y := y - 100 * n in
  let d := d + daysPer100Years * n in
  let n := y / 4 in
  let y := y - 4 * n in
  let d := d + daysPer4Years * n in
  let n := y in
  let d := d + 365 * n in
  let d := d + daysBefore (month - 1) in
  let d := if isLeap year && (month >=? 3) then d + 1 else d in
  let d := d + (day - 1) in
  let abs := d * secondsPerDay in
  let abs := abs + (hour * 3600 + min * 60 + sec) in
  let unix := abs + (absoluteToInternal + internalToUnix) in
  let offset := zoneOffset loc in
  mkTime (unix - offset) nsec loc.

(** [t.abs()]: the absolute seconds of the wall clock in [t]'s location. *)
Definition absSec (t : Time) : Z :=
  unixSec t + zoneOffset (location t) + (unixToInternal + internalToAbsolute).

(** [absDate(abs, true)]: year, month and day of month. *)
Definition absDate (abs : Z) : Z * Z * Z :=
  let d := abs / secondsPerDay in
  let n := d / daysPer400Years in
  let y := 400 * n in
  let d := d - daysPer400Years * n in
  let n := d / daysPer100Years in
  let n := n - Z.shiftr n 2 in
  let y := y + 100 * n in
  let d := d - daysPer100Years * n in
  let n := d / daysPer4Years in
  let y := y + 4 * n in
  let d := d - daysPer4Years * n in
  let n := d / 365 in
  let n := n - Z.shiftr n 2 in
  let y := y + n in
  let d := d - 365 * n in
  let year := y + absoluteZeroYear in
  let day := d in
  if isLeap year && (day =? 31 + 29 - 1) then (year, 2, 29)
  else
    let day := if isLeap year && (day >? 31 + 29 - 1) then day - 1 else day in
    let month := day / 31 in
    let e := daysBefore (month + 1) in
    let '(month, begin) :=
      if day >=? e then (month + 1, e) else (month, daysBefore month) in
    (year, month + 1, day - begin + 1).

(** [absClock(abs)]: hour, minute and second of the day. *)
Definition absClock (abs : Z) : Z * Z * Z :=
  let sec := abs mod secondsPerDay in
  let hour := sec / 3600 in
  let sec := sec - hour * 3600 in
  let min := sec / 60 in
  let sec := sec - min * 60 in
  (hour, min, sec).

(** ** Decimal rendering: [time]'s appendInt and [fmt]'s zero-padded %d *)

(** The decimal digits of [u >= 0] put before [acc] (at most 20 of them, the
    library's buffer). *)
Fixpoint utoa (fuel : nat) (u : Z) (acc : string) : string :=
  match fuel with
  | O => acc
  | S f =>
      let acc := String (ascii_of_N (Z.to_N (48 + u mod 10))) acc in
      if u <? 10 then acc else utoa f (u / 10) acc
  end.

Fixpoint zeros (n : nat) : string :=
  match n with
  | O => EmptyString
  | S n' => String "0" (zeros n')
  end.

(** Digits of [u] left-padded with zeros to [width] digits. *)
Definition padDigits (width : nat) (u : Z) : string :=
  let ds := utoa 20 u EmptyString in
  zeros (width - len ds) ++ ds.

(** [appendInt(b, x, width)] of package time: the sign is not counted in the
    width. *)
Definition appendInt (x : Z) (width : nat) : string :=
  if x <? 0 then "-" ++ padDigits width (- x) else padDigits width x.

(** [fmt.Sprintf("%0<width>d", x)]: the sign is counted in the width. *)
Definition fmtD0 (width : nat) (x : Z) : string :=
  if x <? 0 then "-" ++ padDigits (width - 1) (- x) else padDigits width x.

(** [t.Format("2006-01-02T15:04:05")]. *)
Definition Format (t : Time) : string :=
  let abs := absSec t in
  let '(year, month, day) := absDate abs in
  let '(hour, min, sec) := absClock abs in
  appendInt year 4 ++ "-" ++ appendInt month 2 ++ "-" ++ appendInt day 2 ++ "T"
  ++ appendInt hour 2 ++ ":" ++ appendInt min 2 ++ ":" ++ appendInt sec 2.

Fixpoint inCutset (c : ascii) (cutset : string) : bool :=
  match cutset with
  | EmptyString => false
  | String c' cs => Ascii.eqb c c' || inCutset c cs
  end.

(** [strings.TrimRight(s, cutset)]. *)
Fixpoint TrimRight (s cutset : string) : string :=
  match s with
  | EmptyString => EmptyString
  | String c s' =>
      match TrimRight s' cutset with
      | EmptyString => if inCutset c cutset then EmptyString else String c EmptyString
      | r => String c r
      end
  end.

(** ** The package: the strict scanner *)

Definition Parse (s : string) : result Time :=
  c <- index s 0 ;;
  '(sign, s) <- (if Ascii.eqb c "-" then s' <- sliceFrom s 1 ;; Ok (-1, s')
                 else if Ascii.eqb c "+" then Err (errorsNew "+ before year not allowed")
                 else Ok (1, s)) ;;
  '(year, s) <- exactInt s 4 ;;
  let year := wrapInt (year * sign) in
  c <- index s 0 ;;
  if negb (Ascii.eqb c "-") then
    Err (errorsNew "expected - in dateTime format after 4 digit year")
  else
  s <- sliceFrom s 1 ;;
  '(month, s) <- exactInt s 2 ;;
  c <- index s 0 ;;
  if negb (Ascii.eqb c "-") then
    Err (errorsNew "expected - in dateTime format after 2 digit month")
  else
  s <- sliceFrom s 1 ;;
  '(day, s) <- exactInt s 2 ;;
  c <- index s 0 ;;
  if negb (Ascii.eqb c "T") then Err (errorsNew "expected T in dateTime format")
  else
  s <- sliceFrom s 1 ;;
  '(hour, s) <- exactInt s 2 ;;
  c <- index s 0 ;;
  if negb (Ascii.eqb c ":") then
    Err (errorsNew "expected : in dateTime format after 2 digit hour")
  else
  s <- sliceFrom s 1 ;;
  '(minute, s) <- exactInt s 2 ;;
  c <- index s 0 ;;
  if negb (Ascii.eqb c ":") then
    Err (errorsNew "expected : in dateTime format after 2 digit minute")
  else
  s <- sliceFrom s 1 ;;
  '(second, s) <- exactInt s 2 ;;
  '(nsec, s) <- (if (0 <? len s)%nat then
                   c <- index s 0 ;;
                   if Ascii.eqb c "." then
                     s' <- sliceFrom s 1 ;; parseFractionalSecond s'
                   else Ok (0, s)
                 else Ok (0, s)) ;;
  loc <- parseTz s ;;
  Ok (Date year month day hour minute second nsec loc).

(** ** regexp: a backtracking matcher with capture groups

    Package regexp returns the match a leftmost-first backtracking search
    finds; [run] is that search, in continuation-passing style over the
    position in the input. *)

Module regexp.

Inductive regex : Type :=
| Eps
| Lit (c : ascii)
| Digit
| OneOf (cs : string)
| Cat (r1 r2 : regex)
| Alt (r1 r2 : regex)
| Quest (r : regex)
| Plus (r : regex)
| Times (n : nat) (r : regex)
| Cap (g : nat) (r : regex)
| BeginText
| EndText.

(** The spans of the groups matched so far, the latest first. *)
Definition spans : Type := list (nat * (nat * nat)).

Definition class (p : ascii -> bool) (s : string) (i : nat) (cs : spans)
    (k : nat -> spans -> option spans) : option spans :=
  match String.get i s with
  | Some c => if p c then k (S i) cs else None
  | None => None
  end.

Fixpoint run (r : regex) (s : string) (i : nat) (cs : spans)
    (k : nat -> spans -> option spans) {struct r} : option spans :=
  match r with
  | Eps => k i cs
  | Lit c => class (Ascii.eqb c) s i cs k
  | Digit => class isDigit s i cs k
  | OneOf set => class (fun c => inCutset c set) s i cs k
  | Cat r1 r2 => run r1 s i cs (fun j cs' => run r2 s j cs' k)
  | Alt r1 r2 =>
      match run r1 s i cs k with
      | Some m => Some m
      | None => run r2 s i cs k
      end
  | Quest r1 =>
      match run r1 s i cs k with
      | Some m => Some m
      | None => k i cs
      end
  | Plus r1 =>
      (fix loop (fuel : nat) (i : nat) (cs : spans) : option spans :=
         match fuel with
         | O => None
         | S fuel' =>
             run r1 s i cs (fun j cs' =>
               match (if (i <? j)%nat then loop fuel' j cs' else None) with
               | Some m => Some m
               | None => k j cs'
               end)
         end) (S (len s)) i cs
  | Times n r1 =>
      (fix rep (n : nat) (i : nat) (cs : spans) : option spans :=
         match n with
         | O => k i cs
         | S n' => run r1 s i cs (fun j cs' => rep n' j cs')
         end) n i cs
  | Cap g r1 => run r1 s i cs (fun j cs' => k j ((g, (i, j)) :: cs'))
  | BeginText => if (i =? 0)%nat then k i cs else None
  | EndText => if (i =? len s)%nat then k i cs else None
  end.

(** [re.NumSubexp()]. *)
Fixpoint NumSubexp (r : regex) : nat :=
  match r with
  | Cat r1 r2 | Alt r1 r2 => Nat.max (NumSubexp r1) (NumSubexp r2)
  | Quest r1 | Plus r1 | Times _ r1 => NumSubexp r1
  | Cap g r1 => Nat.max g (NumSubexp r1)
  | _ => O
  end.

Fixpoint span (g : nat) (cs : spans) : option (nat * nat) :=
  match cs with
  | [] => None
  | (g', ij) :: cs' => if (g =? g')%nat then Some ij else span g cs'
  end.

(** The leftmost match: start positions are tried from [i] upwards. *)
Fixpoint search (fuel : nat) (r : regex) (s : string) (i : nat) : option spans :=
  match run r s i [] (fun j cs => Some ((O, (i, j)) :: cs)) with
  | Some m => Some m
  | None =>
      match fuel with
      | O => None
      | S fuel' => search fuel' r s (S i)
      end
  end.

(** [re.FindStringSubmatch(s)]: nil (the empty list) when there is no match,
    otherwise the text of the match and of every group, the empty string for
    a group that took no part in it. *)
Definition FindStringSubmatch (r : regex) (s : string) : list string :=
  match search (len s) r s 0 with
  | None => []
  | Some m =>
      map (fun g =>
             match span g m with
             | Some (i, j) => substring i (j - i) s
             | None => EmptyString
             end)
          (seq 0 (S (NumSubexp r)))
  end.

End regexp.

Import regexp.

Fixpoint cats (rs : list regex) : regex :=
  match rs with
  | [] => Eps
  | [r] => r
  | r :: rs' => Cat r (cats rs')
  end.

(** ** The package: the pattern parsers *)

(** The groups, in order: year 1, month 2, day 3, hour 4, min 5, sec 6,
    frac 7, tzh 8, tzm 9. *)
Definition xmlDateTimeRe : regex :=
  cats [ BeginText;
         Cap 1 (Cat (Quest (Lit "-")) (Times 4 Digit)); Lit "-";
         Cap 2 (Times 2 Digit); Lit "-";
         Cap 3 (Times 2 Digit); Lit "T";
         Cap 4 (Times 2 Digit); Lit ":";
         Cap 5 (Times 2 Digit); Lit ":";
         Cap 6 (Times 2 Digit);
         Quest (Cat (Lit ".") (Cap 7 (Plus Digit)));
         Quest (Alt (cats [ Cap 8 (Cat (OneOf "+-") (Times 2 Digit)); Lit ":";
                            Cap 9 (Times 2 Digit) ])
                    (Lit "Z"));
         EndText ].

(** The local struct [res] of ParseRe and ParseRe2. *)
Record fields : Type := mkFields {
  year : Z; month : Z; day : Z; hour : Z; minute : Z; second : Z; nsecond : Z;
  loc : Location
}.

Definition setYear (r : fields) (v : Z) : fields :=
  mkFields v (month r) (day r) (hour r) (minute r) (second r) (nsecond r) (loc r).
Definition setMonth (r : fields) (v : Z) : fields :=
  mkFields (year r) v (day r) (hour r) (minute r) (second r) (nsecond r) (loc r).
Definition setDay (r : fields) (v : Z) : fields :=
  mkFields (year r) (month r) v (hour r) (minute r) (second r) (nsecond r) (loc r).
Definition setHour (r : fields) (v : Z) : fields :=
  mkFields (year r) (month r) (day r) v (minute r) (second r) (nsecond r) (loc r).
Definition setMinute (r : fields) (v : Z) : fields :=
  mkFields (year r) (month r) (day r) (hour r) v (second r) (nsecond r) (loc r).
Definition setSecond (r : fields) (v : Z) : fields :=
  mkFields (year r) (month r) (day r) (hour r) (minute r) v (nsecond r) (loc r).
Definition setNsecond (r : fields) (v : Z) : fields :=
  mkFields (year r) (month r) (day r) (hour r) (minute r) (second r) v (loc r).
Definition setLoc (r : fields) (l : Location) : fields :=
  mkFields (year r) (month r) (day r) (hour r) (minute r) (second r) (nsecond r) l.

(** [sub[i]]: panics when [i] is not below [len(sub)]. *)
Definition subAt (sub : list string) (i : nat) : result string :=
  match nth_error sub i with
  | Some x => Ok x
  | None => Panic IndexOutOfRange
  end.

Definition nonEmpty (s : string) : bool := negb (String.eqb s EmptyString).

(** [len(sub) >= n && (sub[8] != "" || sub[9] != "")], evaluated left to
    right. *)
Definition reZoneGuard (n : nat) (sub : list string) : result bool :=
  if (n <=? List.length sub)%nat then
    a <- subAt sub 8 ;;
    if nonEmpty a then Ok true
    else b <- subAt sub 9 ;; Ok (nonEmpty b)
  else Ok false.

(** The loop of ParseRe over its table of field pointers and widths. *)
Fixpoint reFields (vs : list ((fields -> Z -> fields) * nat)) (sub : list string)
    (res : fields) (consumed : nat) : result (fields * nat) :=
  match vs with
  | [] => Ok (res, consumed)
  | (set, _) :: vs' =>
      x <- subAt sub consumed ;;
      w <- strconv.ParseInt x 64 ;;
      reFields vs' sub (set res w) (S consumed)
  end.

Definition res0 : fields := mkFields 0 0 0 0 0 0 0 UTC.

Definition dateOf (res : fields) : Time :=
  Date (year res) (month res) (day res) (hour res) (minute res) (second res)
       (nsecond res) (loc res).

Definition ParseRe (s : string) : result Time :=
  let sub := FindStringSubmatch xmlDateTimeRe s in
  if (List.length sub =? 0)%nat then Err (errorsNew "does not match format")
  else
    let res := res0 in
    let consumed := 1%nat in
    '(res, consumed) <-
      reFields [ (setYear, 4%nat); (setMonth, 2%nat); (setDay, 2%nat);
                 (setHour, 2%nat); (setMinute, 2%nat); (setSecond, 2%nat) ]
               sub res consumed ;;
    x <- subAt sub consumed ;;
    res <- (if nonEmpty x then
              y <- subAt sub 7 ;;
              '(nsec, _) <- parseFractionalSecond y ;;
              Ok (setNsecond res nsec)
            else Ok res) ;;
    let consumed := S consumed in
    g <- reZoneGuard 9 sub ;;
    res <- (if (g : bool) then
              a <- subAt sub 8 ;;
              match strconv.ParseInt a 32 with
              | Panic p => Panic p
              | Err _ => Err (errorsNew "cannot parse zone hour")
              | Ok tmh =>
                  if tmh >? 14 then Err (errorsNew "max timezone hour is 14")
                  else
                    b <- subAt sub 9 ;;
                    match strconv.ParseInt b 32 with
                    | Panic p => Panic p
                    | Err _ => Err (errorsNew "cannot parse zone minute")
                    | Ok tmm =>
                        Ok (setLoc res
                              (FixedZone EmptyString
                                 (wrapInt (wrapInt (wrapInt (tmh * 60) + tmm) * 60))))
                    end
              end
            else Ok res) ;;
    Ok (dateOf res).

Definition ParseRe2 (s : string) : result Time :=
  let sub := FindStringSubmatch xmlDateTimeRe s in
  if (List.length sub =? 0)%nat then Err (errorsNew "does not match format")
  else
    let res := res0 in
    x <- subAt sub 1 ;; w <- strconv.ParseInt x 64 ;; let res := setYear res w in
    x <- subAt sub 2 ;; w <- strconv.ParseInt x 64 ;; let res := setMonth res w in
    x <- subAt sub 3 ;; w <- strconv.ParseInt x 64 ;; let res := setDay res w in
    x <- subAt sub 4 ;; w <- strconv.ParseInt x 64 ;; let res := setHour res w in
    x <- subAt sub 5 ;; w <- strconv.ParseInt x 64 ;; let res := setMinute res w in
    x <- subAt sub 6 ;; w <- strconv.ParseInt x 64 ;; let res := setSecond res w in
    x <- subAt sub 7 ;;
    res <- (if nonEmpty x then
              y <- subAt sub 7 ;;
              '(nsec, _) <- parseFractionalSecond y ;;
              Ok (setNsecond res nsec)
            else Ok res) ;;
    g <- reZoneGuard 8 sub ;;
    res <- (if (g : bool) then
              a <- subAt sub 8 ;;
              match strconv.ParseInt a 32 with
              | Panic p => Panic p
              | Err _ => Err (errorsNew "cannot parse zone hour")
              | Ok tmh =>
                  if tmh >? 14 then Err (errorsNew "max timezone hour is 14")
                  else
                    b <- subAt sub 9 ;;
                    match strconv.ParseInt b 32 with
                    | Panic p => Panic p
                    | Err _ => Err (errorsNew "cannot parse zone minute")
                    | Ok tmm =>
                        Ok (setLoc res
                              (FixedZone EmptyString
                                 (wrapInt (wrapInt (wrapInt (tmh * 60) + tmm) * 60))))
                    end
              end
            else Ok res) ;;
    Ok (dateOf res).

(** ** The package: the formatter *)

Definition stringify (t : Time) : string :=
  let v := Format t in
  let v :=
    let n := nanos t in
    if n >? 0 then v ++ TrimRight ("." ++ fmtD0 9 n) "0" else v in
  (* t.Location() is never nil *)
  let offset := zoneOffset (location t) in
  if negb (offset =? 0) then
    let minutes := Z.quot offset 60 in
    let hours := Z.quot minutes 60 in
    let v := if hours >? 0 then v ++ "+" else v in
    v ++ (fmtD0 3 hours ++ ":" ++ fmtD0 2 (wrapInt (minutes - wrapInt (60 * hours))))
  else v.

(** ** The test helper cutOut *)

Definition cutOut (s : string) (i : nat) : result string :=
  if (i =? 0)%nat then sliceFrom s 1
  else if (Z.of_nat i =? Z.of_nat (len s) - 1) then sliceTo s i
  else a <- sliceTo s i ;; b <- sliceFrom s (i + 1) ;; Ok (a ++ b).

(** ** Vocabulary of the statements *)

Fixpoint allDigits (s : string) : bool :=
  match s with
  | EmptyString => true
  | String c s' => isDigit c && allDigits s'
  end.

(** The first byte of [s], if any, is a decimal digit. *)
Definition startsWithDigit (s : string) : bool :=
  match s with
  | EmptyString => false
  | String c _ => isDigit c
  end.

Fixpoint lastByte (s : string) : option ascii :=
  match s with
  | EmptyString => None
  | String c EmptyString => Some c
  | String _ s' => lastByte s'
  end.

(** The number a string of decimal digits denotes, continuing from [acc]. *)
Fixpoint digitsAcc (s : string) (acc : Z) : Z :=
  match s with
  | EmptyString => acc
  | String c s' => digitsAcc s' (acc * 10 + byteSub0 c)
  end.

Definition digitsValue (s : string) : Z := digitsAcc s 0.

(** What follows the seconds, decoded by the package's two decoders: an
    optional "." and fraction, then the timezone. *)
Definition decodeTail (tail : string) : result (Z * Location) :=
  match tail with
  | String c f =>
      if Ascii.eqb c "." then
        '(nsec, r) <- parseFractionalSecond f ;;
        l <- parseTz r ;; Ok (nsec, l)
      else l <- parseTz tail ;; Ok (0, l)
  | EmptyString => l <- parseTz tail ;; Ok (0, l)
  end.

(** A byte that strconv.ParseInt takes at the head of a number: a digit or a
    sign. *)
Definition fieldFirst (c : ascii) : bool :=
  isDigit c || Ascii.eqb c "+" || Ascii.eqb c "-".

(** The shape of a string that strconv.ParseInt reads as a number. *)
Definition fieldShape (s : string) : bool :=
  match s with
  | String a r => fieldFirst a && allDigits r
  | EmptyString => false
  end.

(** [s] does not begin with the minus sign of a negative year. *)
Definition noYearSign (s : string) : bool :=
  match s with
  | String c _ => negb (Ascii.eqb c "-")
  | EmptyString => true
  end.

(** The shape of a remainder the timezone decoder accepts. *)
Definition tzShape (r : string) : bool :=
  match r with
  | EmptyString => true
  | String c EmptyString => Ascii.eqb c "Z"
  | String g (String t1 (String t2 (String c (String t4 (String t5 EmptyString))))) =>
      (Ascii.eqb g "+" || Ascii.eqb g "-") && fieldFirst t1 && isDigit t2
      && Ascii.eqb c ":" && fieldFirst t4 && isDigit t5
  | _ => false
  end.

(** The decimal digits at the head of [s], at most [n] of them. *)
Fixpoint digitRun (n : nat) (s : string) : string :=
  match n, s with
  | S n', String c s' => if isDigit c then String c (digitRun n' s') else EmptyString
  | _, _ => EmptyString
  end.

(** Parse from the year on: what Parse does once it has read the sign. *)
Definition scanFrom (sign : Z) (s : string) : result Time :=
  '(year, s) <- exactInt s 4 ;;
  let year := wrapInt (year * sign) in
  c <- index s 0 ;;
  if negb (Ascii.eqb c "-") then
    Err (errorsNew "expected - in dateTime format after 4 digit year")
  else
  s <- sliceFrom s 1 ;;
  '(month, s) <- exactInt s 2 ;;
  c <- index s 0 ;;
  if negb (Ascii.eqb c "-") then
    Err (errorsNew "expected - in dateTime format after 2 digit month")
  else
  s <- sliceFrom s 1 ;;
  '(day, s) <- exactInt s 2 ;;
  c <- index s 0 ;;
  if negb (Ascii.eqb c "T") then Err (errorsNew "expected T in dateTime format")
  else
  s <- sliceFrom s 1 ;;
  '(hour, s) <- exactInt s 2 ;;
  c <- index s 0 ;;
  if negb (Ascii.eqb c ":") then
    Err (errorsNew "expected : in dateTime format after 2 digit hour")
  else
  s <- sliceFrom s 1 ;;
  '(minute, s) <- exactInt s 2 ;;
  c <- index s 0 ;;
  if negb (Ascii.eqb c ":") then
    Err (errorsNew "expected : in dateTime format after 2 digit minute")
  else
  s <- sliceFrom s 1 ;;
  '(second, s) <- exactInt s 2 ;;
  '(nsec, l) <- decodeTail s ;;
  Ok (Date year month day hour minute second nsec l).

(** The inputs Parse accepts, and the time it returns for each. *)
Definition accepted (s : string) (t : Time) : Prop :=
  exists (neg : bool) (yf mof df hf mif sf tail : string)
         (y mo d h mi sec nsec : Z) (l : Location),
    s = (if neg then "-" else "") ++ yf ++ "-" ++ mof ++ "-" ++ df ++ "T"
        ++ hf ++ ":" ++ mif ++ ":" ++ sf ++ tail
    /\ (neg = false -> allDigits yf = true)
    /\ (len yf = 4 /\ len mof = 2 /\ len df = 2
        /\ len hf = 2 /\ len mif = 2 /\ len sf = 2)%nat
    /\ strconv.ParseInt yf 64 = Ok y /\ strconv.ParseInt mof 64 = Ok mo
    /\ strconv.ParseInt df 64 = Ok d /\ strconv.ParseInt hf 64 = Ok h
    /\ strconv.ParseInt mif 64 = Ok mi /\ strconv.ParseInt sf 64 = Ok sec
    /\ decodeTail tail = Ok (nsec, l)
    /\ t = Date (if neg then - y else y) mo d h mi sec nsec l.

(** [daysIn(m, year)] of package time: the number of days of a month. *)
Definition daysIn (month year : Z) : Z :=
  if (month =? 2) && isLeap year then 29
  else daysBefore month - daysBefore (month - 1).

(** [n] decimal digits. *)
Definition digitField (n : nat) (s : string) : bool :=
  allDigits s && (len s =? n)%nat.

(** The fields of a date and time that exist: no month 13, no 30th of
    February, no hour 24, no second 60. *)
Definition realDateTime (year month day hour min sec : Z) : Prop :=
  1 <= month <= 12 /\ 1 <= day <= daysIn month year
  /\ 0 <= hour <= 23 /\ 0 <= min <= 59 /\ 0 <= sec <= 59.

(** No fraction, or a "." and one to nine digits, the last of them not a
    zero. *)
Definition canonicalFraction (frac : string) : Prop :=
  frac = ""
  \/ exists ds, frac = "." ++ ds /\ allDigits ds = true
                /\ (1 <= len ds <= 9)%nat /\ lastByte ds <> Some "0"%char.

(** No timezone, or a whole number of hours west of Greenwich, "-01:00" to
    "-14:00". *)
Definition westHourZone (tz : string) : Prop :=
  tz = ""
  \/ exists hh, tz = "-" ++ hh ++ ":00" /\ digitField 2 hh = true
                /\ 1 <= digitsValue hh <= 14.

(** The fraction that [stringify] writes for [n] nanoseconds. *)
Definition fractionSuffix (n : Z) : string :=
  if n >? 0 then TrimRight ("." ++ fmtD0 9 n) "0" else "".

(** The timezone that [stringify] writes for an offset in seconds. *)
Definition zoneSuffix (offset : Z) : string :=
  if negb (offset =? 0) then
    let minutes := Z.quot offset 60 in
    let hours := Z.quot minutes 60 in
    (if hours >? 0 then "+" else "")
    ++ fmtD0 3 hours ++ ":" ++ fmtD0 2 (wrapInt (minutes - wrapInt (60 * hours)))
  else "".

(** At index [i] of [s], the string [r] remains. *)
Definition restAt (s : string) (i : nat) (r : string) : Prop :=
  exists pre, s = pre ++ r /\ len pre = i.

(** The lexical form of a fraction: nothing, or a "." and at least one
    digit; [ds] are the digits. *)
Definition lexicalFraction (frac ds : string) : Prop :=
  (frac = "" /\ ds = "") \/ (frac = "." ++ ds /\ allDigits ds = true /\ ds <> "").

(** Two outcomes agree: the same error, or times with the same instant,
    nanoseconds and zone offset. *)
Definition agree (r1 r2 : result Time) : Prop :=
  match r1, r2 with
  | Ok t1, Ok t2 =>
      unixSec t1 = unixSec t2 /\ nanos t1 = nanos t2
      /\ zoneOffset (location t1) = zoneOffset (location t2)
  | Err e1, Err e2 => e1 = e2
  | _, _ => False
  end.

(** The timezones on which the two parsers are compared: none, "Z", any
    offset east, and whole hours west up to fourteen. *)
Definition commonZone (tz : string) : Prop :=
  tz = "" \/ tz = "Z"
  \/ exists hh mm,
       digitField 2 hh = true /\ digitField 2 mm = true
       /\ (tz = "+" ++ hh ++ ":" ++ mm
           \/ (tz = "-" ++ hh ++ ":" ++ mm
               /\ digitsValue hh <= 14 /\ digitsValue mm = 0)).

(** [n] pieces in a row, each taken by [M] at the index where it begins. *)
Fixpoint iterM (M : nat -> string -> Prop) (n : nat) (i : nat) (x : string) : Prop :=
  match n with
  | O => x = ""
  | S n' =>
      exists x1 x2, x = x1 ++ x2 /\ M i x1 /\ iterM M n' (i + len x1)%nat x2
  end.

(** The text [x] that a pattern can take at index [i] of [s]. *)
Fixpoint matches (r : regex) (s : string) (i : nat) (x : string) {struct r} : Prop :=
  match r with
  | Eps => x = ""
  | Lit c => x = String c ""
  | Digit => exists c, isDigit c = true /\ x = String c ""
  | OneOf set => exists c, inCutset c set = true /\ x = String c ""
  | Cat r1 r2 =>
      exists x1 x2,
        x = x1 ++ x2 /\ matches r1 s i x1 /\ matches r2 s (i + len x1)%nat x2
  | Alt r1 r2 => matches r1 s i x \/ matches r2 s i x
  | Quest r1 => matches r1 s i x \/ x = ""
  | Plus r1 => exists n, iterM (matches r1 s) (S n) i x
  | Times n r1 => iterM (matches r1 s) n i x
  | Cap _ r1 => matches r1 s i x
  | BeginText => x = "" /\ i = O
  | EndText => x = "" /\ i = len s
  end.

(** The inputs ParseRe accepts, and the time it returns for each. *)
Definition acceptedRe (s : string) (t : Time) : Prop :=
  exists (neg : bool) (yf mof df hf mif sf frac tz : string) (ns : Z) (l : Location),
    s = (if neg then "-" else "") ++ yf ++ "-" ++ mof ++ "-" ++ df ++ "T"
        ++ hf ++ ":" ++ mif ++ ":" ++ sf ++ frac ++ tz
    /\ digitField 4 yf = true /\ digitField 2 mof = true /\ digitField 2 df = true
    /\ digitField 2 hf = true /\ digitField 2 mif = true /\ digitField 2 sf = true
    /\ ((frac = "" /\ ns = 0)
        \/ exists ds, frac = "." ++ ds /\ allDigits ds = true
                      /\ (1 <= len ds <= 9)%nat /\ lastByte ds <> Some "0"%char
                      /\ ns = digitsValue ds * 10 ^ (9 - Z.of_nat (len ds)))
    /\ (((tz = "" \/ tz = "Z") /\ l = UTC)
        \/ exists sg hh mm,
             (sg = "+"%char \/ sg = "-"%char)
             /\ digitField 2 hh = true /\ digitField 2 mm = true
             /\ tz = String sg (hh ++ ":" ++ mm)
             /\ (sg = "+"%char -> digitsValue hh <= 14)
             /\ l = FixedZone ""
                      (((if Ascii.eqb sg "-" then - digitsValue hh else digitsValue hh)
                        * 60 + digitsValue mm) * 60))
    /\ t = Date (if neg then - digitsValue yf else digitsValue yf)
               (digitsValue mof) (digitsValue df)
               (digitsValue hf) (digitsValue mif) (digitsValue sf) ns l.

(** The lexical form that the pattern describes. *)
Definition lexicalForm (s : string) : Prop :=
  exists (neg : bool) (yf mof df hf mif sf frac ds tz : string),
    s = (if neg then "-" else "") ++ yf ++ "-" ++ mof ++ "-" ++ df ++ "T"
        ++ hf ++ ":" ++ mif ++ ":" ++ sf ++ frac ++ tz
    /\ digitField 4 yf = true /\ digitField 2 mof = true /\ digitField 2 df = true
    /\ digitField 2 hf = true /\ digitField 2 mif = true /\ digitField 2 sf = true
    /\ lexicalFraction frac ds
    /\ (tz = "" \/ tz = "Z"
        \/ exists sg hh mm,
             (sg = "+"%char \/ sg = "-"%char)
             /\ digitField 2 hh = true /\ digitField 2 mm = true
             /\ tz = String sg (hh ++ ":" ++ mm)).

(** [s] ends in "Z". *)
Definition endsInZ (s : string) : bool :=
  match lastByte s with
  | Some c => Ascii.eqb c "Z"
  | None => false
  end.

(** [ds] is not empty and does not end in "0". *)
Definition endsNonZero (ds : string) : bool :=
  match lastByte ds with
  | Some c => negb (Ascii.eqb c "0")
  | None => false
  end.

(** In [tail], what follows the seconds, index [k] holds a digit of the
    fraction, and the other digits of the fraction, in their order, are at
    least one and do not end in "0". *)
Definition fractionDigitKept (tail : string) (k : nat) : bool :=
  match tail with
  | String c f =>
      let ds := digitRun (len f) f in
      Ascii.eqb c "." && (1 <=? k)%nat && (k <=? len ds)%nat
      && endsNonZero (take (k - 1) ds ++ drop k ds)
  | EmptyString => false
  end.

(** The index at which the fraction and timezone of an accepted input
    begin: 19, or 20 behind the minus sign of a negative year. *)
Definition tailIndex (s : string) : nat :=
  if noYearSign s then 19%nat else 20%nat.

(** The indices at which an accepted input [s] can lose its byte and still
    be accepted: index 0 when [s] begins with "-" and a digit; the last
    index when [s] ends in "Z"; the index of a digit of the fraction when
    the other digits of the fraction are at least one and do not end in
    "0". *)
Definition cutKept (s : string) (i : nat) : bool :=
  (negb (noYearSign s) && (i =? 0)%nat && startsWithDigit (drop 1 s))
  || ((S i =? len s)%nat && endsInZ s)
  || ((tailIndex s <=? i)%nat
      && fractionDigitKept (drop (tailIndex s) s) (i - tailIndex s)).

(** The first nineteen bytes of an input that [scanFrom] accepts. *)
Definition scannedHead (s : string) : bool :=
  match s with
  | String c0 (String c1 (String c2 (String c3 (String c4 (String c5 (String c6
    (String c7 (String c8 (String c9 (String c10 (String c11 (String c12
    (String c13 (String c14 (String c15 (String c16 (String c17 (String c18 _
    )))))))))))))))))) =>
      fieldFirst c0 && isDigit c1 && isDigit c2 && isDigit c3
      && Ascii.eqb c4 "-" && fieldFirst c5 && isDigit c6
      && Ascii.eqb c7 "-" && fieldFirst c8 && isDigit c9
      && Ascii.eqb c10 "T" && fieldFirst c11 && isDigit c12
      && Ascii.eqb c13 ":" && fieldFirst c14 && isDigit c15
      && Ascii.eqb c16 ":" && fieldFirst c17 && isDigit c18
  | _ => false
  end.

(** * Properties *)

(** ** Arithmetic and bytes *)

Lemma wrapInt_small (z : Z) :
  - 2 ^ 63 <= z < 2 ^ 63 -> wrapInt z = z.
Proof.
  intros Hz. unfold wrapInt.
  rewrite Z.mod_small; lia.
Qed.

Ltac each_byte c :=
  let b0 := fresh in let b1 := fresh in let b2 := fresh in let b3 := fresh in
  let b4 := fresh in let b5 := fresh in let b6 := fresh in let b7 := fresh in
  destruct c as [b0 b1 b2 b3 b4 b5 b6 b7];
  destruct b0, b1, b2, b3, b4, b5, b6, b7.

Lemma isDigit_range (c : ascii) :
  isDigit c = true -> 0 <= byteSub0 c <= 9.
Proof.
  each_byte c; intros H; try discriminate H; vm_compute; split; discriminate.
Qed.

Lemma isDigit_zero (c : ascii) :
  isDigit c = true -> (byteSub0 c = 0 <-> c = "0"%char).
Proof.
  each_byte c; intros H; try discriminate H;
    (split; intros E; [ try discriminate E; reflexivity | try discriminate E; reflexivity ]).
Qed.

(** ** The fractional-second loop *)

Lemma digitsAcc_bounds (ds : string) :
  forall (i : nat) (n : Z),
    allDigits ds = true -> 0 <= n < 10 ^ Z.of_nat i ->
    0 <= digitsAcc ds n < 10 ^ Z.of_nat (i + len ds).
Proof.
  induction ds as [|c ds IH]; intros i n Hd Hn; simpl.
  - rewrite Nat.add_0_r. exact Hn.
  - simpl in Hd. apply andb_prop in Hd. destruct Hd as [Hc Hd].
    pose proof (isDigit_range c Hc) as Hr.
    replace (i + S (len ds))%nat with (S i + len ds)%nat by lia.
    apply IH; [exact Hd|].
    rewrite Nat2Z.inj_succ, Z.pow_succ_r by lia. lia.
Qed.

Lemma lastByte_cons (ds : string) :
  forall c : ascii, exists c', lastByte (String c ds) = Some c'.
Proof.
  induction ds as [|a ds IH]; intros c.
  - exists c. reflexivity.
  - destruct (IH a) as [c' H]. exists c'. exact H.
Qed.

Lemma fracLoop_digits (ds : string) :
  forall (rest : string) (i : nat) (ld n : Z),
    allDigits ds = true -> (i + len ds <= 10)%nat -> 0 <= n < 10 ^ Z.of_nat i ->
    fracLoop (ds ++ rest) i ld n
    = fracLoop rest (i + len ds)
        (match lastByte ds with Some c => byteSub0 c | None => ld end)
        (digitsAcc ds n).
Proof.
  induction ds as [|c ds IH]; intros rest i ld n Hd Hi Hn.
  - simpl. rewrite Nat.add_0_r. reflexivity.
  - simpl in Hd. apply andb_prop in Hd. destruct Hd as [Hc Hd].
    pose proof (isDigit_range c Hc) as Hr.
    simpl len in Hi.
    assert (Hp : 10 ^ Z.of_nat i <= 10 ^ 9).
    { apply Z.pow_le_mono_r; lia. }
    cbn [append fracLoop]. rewrite Hc.
    replace (i <? 10)%nat with true by (symmetry; apply Nat.ltb_lt; lia).
    cbn [andb].
    rewrite (wrapInt_small (n * 10)) by lia.
    rewrite (wrapInt_small (n * 10 + byteSub0 c)) by lia.
    rewrite (IH rest (S i) (byteSub0 c) (n * 10 + byteSub0 c)); [ | exact Hd | lia | ].
    + replace (S i + len ds)%nat with (i + len (String c ds))%nat by (simpl; lia).
      f_equal. destruct ds as [|a ds]; [reflexivity|].
      destruct (lastByte_cons ds a) as [c' E].
      change (lastByte (String c (String a ds))) with (lastByte (String a ds)).
      rewrite E. reflexivity.
    + rewrite Nat2Z.inj_succ, Z.pow_succ_r by lia. lia.
Qed.

Lemma fracLoop_stop (rest : string) (i : nat) (ld n : Z) :
  startsWithDigit rest = false \/ (10 <= i)%nat ->
  fracLoop rest i ld n = (i, ld, n).
Proof.
  intros H. destruct rest as [|c rest]; [reflexivity|]. simpl.
  destruct H as [H|H].
  - simpl in H. rewrite H, andb_false_r. reflexivity.
  - replace (i <? 10)%nat with false by (symmetry; apply Nat.ltb_ge; lia).
    reflexivity.
Qed.

Lemma take_drop (n : nat) (s : string) : take n s ++ drop n s = s.
Proof.
  revert s. induction n as [|n IH]; intros [|c s]; simpl; try reflexivity.
  rewrite IH. reflexivity.
Qed.

Lemma len_take (n : nat) (s : string) : (n <= len s)%nat -> len (take n s) = n.
Proof.
  revert s. induction n as [|n IH]; intros [|c s] H; simpl in *; try lia.
  rewrite IH; lia.
Qed.

Lemma len_append (s1 s2 : string) : len (s1 ++ s2) = (len s1 + len s2)%nat.
Proof.
  unfold len. induction s1 as [|c s1 IH]; simpl; [reflexivity|].
  rewrite IH. reflexivity.
Qed.

Lemma drop_append (s1 s2 : string) : drop (len s1) (s1 ++ s2) = s2.
Proof.
  induction s1 as [|c s1 IH]; simpl; [reflexivity | exact IH].
Qed.

Lemma allDigits_take (n : nat) (s : string) :
  allDigits s = true -> allDigits (take n s) = true.
Proof.
  revert s. induction n as [|n IH]; intros [|c s] H; simpl in *; try reflexivity.
  apply andb_prop in H. destruct H as [Hc Hs]. rewrite Hc, (IH s Hs). reflexivity.
Qed.

Lemma append_assoc' (s1 s2 s3 : string) : (s1 ++ s2) ++ s3 = s1 ++ (s2 ++ s3).
Proof.
  induction s1 as [|c s1 IH]; simpl; [reflexivity|]. rewrite IH. reflexivity.
Qed.

(** At most ten digits followed by something that is not a digit: the loop
    reads them all. *)
Lemma fracLoop_all (ds rest : string) :
  allDigits ds = true -> (len ds <= 10)%nat ->
  startsWithDigit rest = false \/ len ds = 10%nat ->
  fracLoop (ds ++ rest) 0 0 0
  = (len ds, match lastByte ds with Some c => byteSub0 c | None => 0 end,
     digitsValue ds).
Proof.
  intros Hd Hl Hr.
  rewrite (fracLoop_digits ds rest 0 0 0 Hd); [ | simpl; lia | simpl; lia ].
  apply fracLoop_stop. simpl. destruct Hr as [Hr|Hr]; [left; exact Hr | right; lia].
Qed.

(** Ten digits or more: the loop stops after the tenth. *)
Lemma fracLoop_long (ds rest : string) :
  allDigits ds = true -> (10 <= len ds)%nat ->
  exists ld n, fracLoop (ds ++ rest) 0 0 0 = (10%nat, ld, n).
Proof.
  intros Hd Hl.
  rewrite <- (take_drop 10 ds), append_assoc'.
  pose proof (len_take 10 ds Hl) as Ht.
  rewrite (fracLoop_digits (take 10 ds) _ 0 0 0 (allDigits_take 10 ds Hd));
    [ | rewrite Ht; simpl; lia | simpl; lia ].
  rewrite Ht. simpl Nat.add.
  rewrite fracLoop_stop by (right; lia).
  eexists. eexists. reflexivity.
Qed.

Lemma parseFractionalSecond_long (ds rest : string) :
  allDigits ds = true -> (10 <= len ds)%nat ->
  isErr (parseFractionalSecond (ds ++ rest)) = true.
Proof.
  intros Hd Hl. unfold parseFractionalSecond.
  destruct (fracLoop_long ds rest Hd Hl) as (ld & n & E). rewrite E.
  simpl Nat.eqb. cbv iota.
  destruct (ld =? 0); [reflexivity|].
  unfold sliceFrom. rewrite len_append.
  replace (len ds + len rest <? 10)%nat with false
    by (symmetry; apply Nat.ltb_ge; lia).
  reflexivity.
Qed.

Lemma lastByte_isDigit (ds : string) :
  forall c, allDigits ds = true -> lastByte ds = Some c -> isDigit c = true.
Proof.
  induction ds as [|a ds IH]; intros c Hd Hl; [discriminate Hl|].
  simpl in Hd. apply andb_prop in Hd. destruct Hd as [Ha Hd].
  destruct ds as [|b ds].
  - simpl in Hl. injection Hl as <-. exact Ha.
  - apply IH; [exact Hd | exact Hl].
Qed.

Lemma parseFractionalSecond_empty (rest : string) :
  startsWithDigit rest = false ->
  isErr (parseFractionalSecond rest) = true.
Proof.
  intros Hr. unfold parseFractionalSecond.
  rewrite (fracLoop_stop rest 0 0 0) by (left; exact Hr). reflexivity.
Qed.

Lemma parseFractionalSecond_trailing_zero (ds rest : string) :
  allDigits ds = true -> startsWithDigit rest = false ->
  lastByte ds = Some "0"%char ->
  isErr (parseFractionalSecond (ds ++ rest)) = true.
Proof.
  intros Hd Hr Hz.
  destruct (Nat.le_gt_cases 10 (len ds)) as [Hl|Hl].
  - apply parseFractionalSecond_long; assumption.
  - unfold parseFractionalSecond.
    rewrite (fracLoop_all ds rest Hd) by (try lia; left; exact Hr).
    rewrite Hz. destruct ds as [|c ds]; [discriminate Hz|]. reflexivity.
Qed.

Lemma parseFractionalSecond_value (ds rest : string) :
  allDigits ds = true -> startsWithDigit rest = false ->
  (1 <= len ds <= 9)%nat -> lastByte ds <> Some "0"%char ->
  parseFractionalSecond (ds ++ rest)
  = Ok (digitsValue ds * 10 ^ (9 - Z.of_nat (len ds)), rest).
Proof.
  intros Hd Hr Hl Hz. unfold parseFractionalSecond.
  rewrite (fracLoop_all ds rest Hd) by (try lia; left; exact Hr).
  replace (len ds =? 0)%nat with false by (symmetry; apply Nat.eqb_neq; lia).
  destruct (lastByte ds) as [c|] eqn:El.
  2:{ destruct ds as [|a ds]; [simpl in Hl; lia|].
      destruct (lastByte_cons ds a) as [c E]. congruence. }
  pose proof (lastByte_isDigit ds c Hd El) as Hc.
  destruct (byteSub0 c =? 0) eqn:E0.
  { apply Z.eqb_eq in E0. apply (isDigit_zero c Hc) in E0. congruence. }
  unfold sliceFrom. rewrite len_append.
  replace (len ds + len rest <? len ds)%nat with false
    by (symmetry; apply Nat.ltb_ge; lia).
  cbn [bind]. rewrite drop_append.
  replace (9 <? len ds)%nat with false by (symmetry; apply Nat.ltb_ge; lia).
  pose proof (digitsAcc_bounds ds 0 0 Hd ltac:(simpl; lia)) as Hb.
  simpl Nat.add in Hb. fold (digitsValue ds) in Hb.
  destruct (len ds <? 9)%nat eqn:E9.
  - apply Nat.ltb_lt in E9. unfold Pow10.
    replace (Z.of_nat (9 - len ds)) with (9 - Z.of_nat (len ds)) by lia.
    rewrite wrapInt_small; [reflexivity|].
    assert (Hp : 10 ^ Z.of_nat (len ds) * 10 ^ (9 - Z.of_nat (len ds)) = 10 ^ 9).
    { rewrite <- Z.pow_add_r by lia. f_equal. lia. }
    assert (Hq : 0 < 10 ^ (9 - Z.of_nat (len ds))) by (apply Z.pow_pos_nonneg; lia).
    nia.
  - apply Nat.ltb_ge in E9. replace (len ds) with 9%nat by lia.
    rewrite Z.mul_1_r. reflexivity.
Qed.

(** C7.  The fractional-second decoder reads its digits left-aligned in
    nanoseconds: "1" is 100,000,000 ns, "09251" is 92,510,000 ns and
    "000000001" is 1 ns; in general one to nine digits not ending in '0',
    followed by anything that is not a digit, give the digits' number scaled
    to nine places and leave the rest unread.  No digit at all is an error, a
    last digit '0' is an error, and more than nine digits are an error. *)
Theorem parseFractionalSecond_canonical :
  parseFractionalSecond "1" = Ok (100000000, "")
  /\ parseFractionalSecond "09251" = Ok (92510000, "")
  /\ parseFractionalSecond "000000001" = Ok (1, "")
  /\ (forall ds rest : string,
        allDigits ds = true -> startsWithDigit rest = false ->
        (1 <= len ds <= 9)%nat -> lastByte ds <> Some "0"%char ->
        parseFractionalSecond (ds ++ rest)
        = Ok (digitsValue ds * 10 ^ (9 - Z.of_nat (len ds)), rest))
  /\ (forall rest : string,
        startsWithDigit rest = false ->
        isErr (parseFractionalSecond rest) = true)
  /\ (forall ds rest : string,
        allDigits ds = true -> startsWithDigit rest = false ->
        lastByte ds = Some "0"%char ->
        isErr (parseFractionalSecond (ds ++ rest)) = true)
  /\ (forall ds rest : string,
        allDigits ds = true -> (9 < len ds)%nat ->
        isErr (parseFractionalSecond (ds ++ rest)) = true).
Proof.
  repeat split; try reflexivity.
  - exact parseFractionalSecond_value.
  - exact parseFractionalSecond_empty.
  - exact parseFractionalSecond_trailing_zero.
  - intros ds rest Hd Hl. apply parseFractionalSecond_long; [exact Hd | lia].
Qed.

Lemma parseFractionalSecond_canonical_witness :
  parseFractionalSecond "09251Z" = Ok (92510000, "Z")
  /\ isErr (parseFractionalSecond "+02:00") = true
  /\ isErr (parseFractionalSecond "250+02:00") = true
  /\ isErr (parseFractionalSecond "12345678901") = true.
Proof.
  destruct parseFractionalSecond_canonical as (_ & _ & _ & Hv & He & Hz & Hl).
  split; [ | split; [ | split ] ].
  - apply (Hv "09251" "Z"); [ reflexivity | reflexivity | simpl; lia | discriminate ].
  - apply (He "+02:00"); reflexivity.
  - apply (Hz "250" "+02:00"); reflexivity.
  - apply (Hl "12345678901" ""); [ reflexivity | simpl; lia ].
Defined.

(** ** The timezone decoder *)

(** C8.  The timezone decoder accepts "+14:00" and rejects "+15:00"; "+02:30"
    is the offset of 150 minutes east of UTC; the empty remainder and "Z"
    both are UTC; a remainder whose length is not 0, 1 or 6 is an error. *)
Theorem parseTz_bounds :
  parseTz "+14:00" = Ok (FixedZone "+14:00" (14 * 3600))
  /\ isErr (parseTz "+15:00") = true
  /\ parseTz "+02:30" = Ok (FixedZone "+02:30" (150 * 60))
  /\ parseTz "" = Ok UTC
  /\ parseTz "Z" = Ok UTC
  /\ (forall s : string,
        len s <> 0%nat -> len s <> 1%nat -> len s <> 6%nat ->
        isErr (parseTz s) = true).
Proof.
  repeat split; try reflexivity.
  intros s H0 H1 H6. unfold parseTz.
  destruct (len s) as [|[|[|[|[|[|[|n]]]]]]]; try reflexivity; contradiction.
Qed.

Lemma parseTz_bounds_witness :
  isErr (parseTz "+2:00") = true /\ isErr (parseTz "+02:00Z") = true.
Proof.
  destruct parseTz_bounds as (_ & _ & _ & _ & _ & H).
  split.
  - apply (H "+2:00"); simpl; lia.
  - apply (H "+02:00Z"); simpl; lia.
Defined.

(** ** The two pattern parsers *)

(** A match of the pattern yields the whole text and its nine groups. *)
Lemma FindStringSubmatch_length (s : string) :
  FindStringSubmatch xmlDateTimeRe s = []
  \/ List.length (FindStringSubmatch xmlDateTimeRe s) = 10%nat.
Proof.
  unfold FindStringSubmatch.
  destruct (search (len s) xmlDateTimeRe s 0) as [m|]; [right | left; reflexivity].
  rewrite length_map, length_seq. reflexivity.
Qed.

Lemma list_of_length_10 {A : Type} (l : list A) :
  List.length l = 10%nat ->
  exists a0 a1 a2 a3 a4 a5 a6 a7 a8 a9, l = [a0; a1; a2; a3; a4; a5; a6; a7; a8; a9].
Proof.
  intros H.
  do 10 (destruct l as [|? l]; [discriminate H|]).
  destruct l; [|discriminate H].
  repeat eexists.
Qed.

(** C10.  ParseRe and ParseRe2 return the same outcome on every input: the
    same error on the same inputs, the same time and location otherwise. *)
Theorem ParseRe_ParseRe2 (s : string) : ParseRe s = ParseRe2 s.
Proof.
  unfold ParseRe, ParseRe2.
  destruct (FindStringSubmatch_length s) as [E|E].
  - rewrite E. reflexivity.
  - apply list_of_length_10 in E.
    destruct E as (a0 & a1 & a2 & a3 & a4 & a5 & a6 & a7 & a8 & a9 & E).
    rewrite E. cbn [List.length Nat.eqb reFields subAt nth_error bind].
    destruct (strconv.ParseInt a1 64); cbn [bind]; try reflexivity.
    destruct (strconv.ParseInt a2 64); cbn [bind]; try reflexivity.
    destruct (strconv.ParseInt a3 64); cbn [bind]; try reflexivity.
    destruct (strconv.ParseInt a4 64); cbn [bind]; try reflexivity.
    destruct (strconv.ParseInt a5 64); cbn [bind]; try reflexivity.
    destruct (strconv.ParseInt a6 64); cbn [bind]; try reflexivity.
Qed.

(** ** Fixed-width fields of decimal digits *)

Lemma isDigit_not_sign (c : ascii) :
  isDigit c = true -> Ascii.eqb c "+" = false /\ Ascii.eqb c "-" = false.
Proof.
  each_byte c; intros H; try discriminate H; split; reflexivity.
Qed.

Lemma parseUintLoop_digits (ds : string) :
  forall (i : nat) (n : Z),
    allDigits ds = true -> (i + len ds <= 18)%nat -> 0 <= n < 10 ^ Z.of_nat i ->
    strconv.parseUintLoop ds n (2 ^ 64 - 1) = (digitsAcc ds n, None).
Proof.
  induction ds as [|c ds IH]; intros i n Hd Hi Hn; [reflexivity|].
  simpl in Hd. apply andb_prop in Hd. destruct Hd as [Hc Hd].
  pose proof (isDigit_range c Hc) as Hr.
  simpl len in Hi.
  assert (Hp : 10 ^ Z.of_nat i <= 10 ^ 17) by (apply Z.pow_le_mono_r; lia).
  cbn [strconv.parseUintLoop digitsAcc]. rewrite Hc.
  replace (n >=? (2 ^ 64 - 1) / 10 + 1) with false
    by (symmetry; rewrite Z.geb_leb; apply Z.leb_gt;
        change ((2 ^ 64 - 1) / 10 + 1) with 1844674407370955162; lia).
  cbv zeta.
  rewrite (Z.mod_small (n * 10 + byteSub0 c)) by lia.
  replace (n * 10 + byteSub0 c <? n * 10) with false
    by (symmetry; apply Z.ltb_ge; lia).
  replace (n * 10 + byteSub0 c >? 2 ^ 64 - 1) with false
    by (symmetry; rewrite Z.gtb_ltb; apply Z.ltb_ge; lia).
  cbn [orb].
  apply (IH (S i)); [exact Hd | lia | ].
  rewrite Nat2Z.inj_succ, Z.pow_succ_r by lia. lia.
Qed.

(** On one to eighteen decimal digits ParseInt returns their number. *)
Lemma ParseInt_digits (ds : string) :
  allDigits ds = true -> (1 <= len ds <= 18)%nat ->
  strconv.ParseInt ds 64 = Ok (digitsValue ds).
Proof.
  intros Hd Hl. destruct ds as [|c ds]; [simpl in Hl; lia|].
  pose proof Hd as Hd'. simpl in Hd'. apply andb_prop in Hd'. destruct Hd' as [Hc _].
  destruct (isDigit_not_sign c Hc) as [Hp Hm].
  unfold strconv.ParseInt. rewrite Hp, Hm. unfold strconv.ParseUint.
  rewrite (parseUintLoop_digits (String c ds) 0 0 Hd) by (simpl in *; lia).
  pose proof (digitsAcc_bounds (String c ds) 0 0 Hd ltac:(simpl; lia)) as Hb.
  fold (digitsValue (String c ds)) in *.
  assert (Hp18 : 10 ^ Z.of_nat (0 + len (String c ds)) <= 10 ^ 18)
    by (apply Z.pow_le_mono_r; lia).
  cbn [negb andb].
  replace (digitsValue (String c ds) >=? 2 ^ (64 - 1)) with false
    by (symmetry; rewrite Z.geb_leb; apply Z.leb_gt; change (2 ^ (64 - 1)) with (2 ^ 63); lia).
  reflexivity.
Qed.

Lemma take_append (s1 s2 : string) : take (len s1) (s1 ++ s2) = s1.
Proof.
  unfold len. induction s1 as [|c s1 IH]; simpl; [destruct s2; reflexivity|].
  rewrite IH. reflexivity.
Qed.

(** exactInt on a field of [l] decimal digits: their number, and the rest. *)
Lemma exactInt_digits (ds rest : string) (l : nat) :
  allDigits ds = true -> len ds = l -> (1 <= l <= 18)%nat ->
  exactInt (ds ++ rest) l = Ok (digitsValue ds, rest).
Proof.
  intros Hd Hl Hr. subst l. unfold exactInt, sliceTo, sliceFrom.
  rewrite len_append.
  replace (len ds + len rest <? len ds)%nat with false
    by (symmetry; apply Nat.ltb_ge; lia).
  cbn [bind]. rewrite take_append, (ParseInt_digits ds Hd Hr), drop_append.
  reflexivity.
Qed.

Lemma digitsValue_bounds (ds : string) (l : nat) :
  allDigits ds = true -> len ds = l -> 0 <= digitsValue ds < 10 ^ Z.of_nat l.
Proof.
  intros Hd Hl. subst l.
  exact (digitsAcc_bounds ds 0 0 Hd ltac:(simpl; lia)).
Qed.

(** ** Where the code departs from the specification *)

(** C1.  Parse indexes the next byte without looking at the length: on the
    empty string, and on an input that ends after a fixed-width field, it
    panics. *)
Theorem Parse_panics_at_end_of_input :
  Parse "" = Panic IndexOutOfRange
  /\ Parse "2017" = Panic IndexOutOfRange
  /\ Parse "2017-08" = Panic IndexOutOfRange
  /\ Parse "2017-08-16" = Panic IndexOutOfRange
  /\ Parse "2017-08-16T13" = Panic IndexOutOfRange
  /\ Parse "2017-08-16T13:07" = Panic IndexOutOfRange.
Proof.
  repeat split; vm_compute; reflexivity.
Qed.

(** C3.  On a negative offset the two parsers disagree: ParseRe applies the
    sign to the hours only, and its bound on the hour lets every negative
    hour through. *)
Theorem Parse_ParseRe_negative_offset :
  Parse "2017-08-16T13:07:00-02:30"
    = Ok (mkTime 1502897820 0 (FixedZone "-02:30" (-9000)))
  /\ ParseRe "2017-08-16T13:07:00-02:30"
    = Ok (mkTime 1502894220 0 (FixedZone "" (-5400)))
  /\ Parse "2017-08-16T13:07:00-15:00" = Err (errorsNew "max timezone hour is 14")
  /\ ParseRe "2017-08-16T13:07:00-15:00"
    = Ok (mkTime 1502942820 0 (FixedZone "" (-54000))).
Proof.
  repeat split; vm_compute; reflexivity.
Qed.

(** C5.  A canonical string with a positive offset does not come back: the
    hour of the offset is printed three digits wide. *)
Theorem stringify_Parse_positive_offset :
  (t <- Parse "2017-08-16T13:07:00.1+02:00" ;; Ok (stringify t))
  = Ok "2017-08-16T13:07:00.1+002:00".
Proof.
  vm_compute. reflexivity.
Qed.

(** C6.  The offset suffix of the formatter: two hours east come out as
    "+002:00"; half an hour east or west has no sign before the hour; two
    hours west and the zero offset come out as specified. *)
Theorem stringify_offset_suffix :
  stringify (Date 2017 8 16 13 7 0 92510000 (FixedZone "+02:00" 7200))
    = "2017-08-16T13:07:00.09251+002:00"
  /\ stringify (Date 2017 8 16 13 7 0 0 (FixedZone "+00:30" 1800))
    = "2017-08-16T13:07:00000:30"
  /\ stringify (Date 2017 8 16 13 7 0 0 (FixedZone "-00:30" (-1800)))
    = "2017-08-16T13:07:00000:-30"
  /\ stringify (Date 2017 8 16 11 7 0 92510000 (FixedZone "-02:00" (-7200)))
    = "2017-08-16T11:07:00.09251-02:00"
  /\ stringify (Date 2017 8 16 11 7 0 92510000 UTC)
    = "2017-08-16T11:07:00.09251".
Proof.
  repeat split; vm_compute; reflexivity.
Qed.

(** C9.  strconv.ParseInt reads a sign, so the strict scanner accepts a sign
    inside a fixed-width field: month "+8", offset hour "-1".  The pattern
    parser refuses both inputs. *)
Theorem Parse_accepts_sign_in_field :
  Parse "2017-+8-16T13:07:00" = Ok (Date 2017 8 16 13 7 0 0 UTC)
  /\ Parse "2017-08-16T13:07:00+-1:00"
    = Ok (Date 2017 8 16 13 7 0 0 (FixedZone "+-1:00" (-3600)))
  /\ ParseRe "2017-+8-16T13:07:00" = Err (errorsNew "does not match format")
  /\ ParseRe "2017-08-16T13:07:00+-1:00" = Err (errorsNew "does not match format").
Proof.
  repeat split; vm_compute; reflexivity.
Qed.

(** ** What strconv.ParseInt accepts *)

Lemma ParseInt_no_panic (s : string) (b : Z) (p : panic) :
  strconv.ParseInt s b <> Panic p.
Proof.
  unfold strconv.ParseInt. destruct s as [|c s]; [discriminate|].
  destruct (if Ascii.eqb c "+" then (false, s)
            else if Ascii.eqb c "-" then (true, s) else (false, String c s)) as [neg body].
  destruct (strconv.ParseUint body b) as [un [[|]|]];
    repeat match goal with |- context [if ?x then _ else _] => destruct x end;
    discriminate.
Qed.

Lemma parseUintLoop_nondigits (ds : string) :
  forall (i : nat) (n : Z),
    allDigits ds = false -> (i + len ds <= 18)%nat -> 0 <= n < 10 ^ Z.of_nat i ->
    strconv.parseUintLoop ds n (2 ^ 64 - 1) = (0, Some ErrSyntax).
Proof.
  induction ds as [|c ds IH]; intros i n Hd Hi Hn; [discriminate Hd|].
  cbn [allDigits] in Hd. cbn [strconv.parseUintLoop].
  destruct (isDigit c) eqn:Hc; [|reflexivity].
  cbn [andb] in Hd.
  pose proof (isDigit_range c Hc) as Hr.
  simpl len in Hi.
  assert (Hp : 10 ^ Z.of_nat i <= 10 ^ 17) by (apply Z.pow_le_mono_r; lia).
  replace (n >=? (2 ^ 64 - 1) / 10 + 1) with false
    by (symmetry; rewrite Z.geb_leb; apply Z.leb_gt;
        change ((2 ^ 64 - 1) / 10 + 1) with 1844674407370955162; lia).
  cbv zeta.
  rewrite (Z.mod_small (n * 10 + byteSub0 c)) by lia.
  replace (n * 10 + byteSub0 c <? n * 10) with false
    by (symmetry; apply Z.ltb_ge; lia).
  replace (n * 10 + byteSub0 c >? 2 ^ 64 - 1) with false
    by (symmetry; rewrite Z.gtb_ltb; apply Z.ltb_ge; lia).
  cbn [orb].
  apply (IH (S i)); [exact Hd | lia | ].
  rewrite Nat2Z.inj_succ, Z.pow_succ_r by lia. lia.
Qed.

Lemma ParseUint_syntax (s : string) :
  (len s <= 18)%nat -> (s = "" \/ allDigits s = false) ->
  strconv.ParseUint s 64 = (0, Some ErrSyntax).
Proof.
  intros Hl [->|H]; [reflexivity|].
  destruct s as [|c s]; [reflexivity|].
  unfold strconv.ParseUint.
  apply (parseUintLoop_nondigits (String c s) 0 0 H); simpl in *; lia.
Qed.

Lemma ParseInt_ok_inv (s : string) (v : Z) :
  strconv.ParseInt s 64 = Ok v -> (len s <= 18)%nat -> fieldShape s = true.
Proof.
  intros H Hl. destruct s as [|c s]; [discriminate H|].
  unfold strconv.ParseInt in H. unfold fieldShape, fieldFirst.
  simpl len in Hl.
  destruct (Ascii.eqb c "+") eqn:Ep; [|destruct (Ascii.eqb c "-") eqn:Em].
  - rewrite orb_true_r. cbn [orb andb].
    destruct (allDigits s) eqn:Hd; [reflexivity|].
    rewrite (ParseUint_syntax s) in H by (try lia; right; exact Hd). discriminate H.
  - rewrite orb_true_r. cbn [andb].
    destruct (allDigits s) eqn:Hd; [reflexivity|].
    rewrite (ParseUint_syntax s) in H by (try lia; right; exact Hd). discriminate H.
  - rewrite !orb_false_r.
    destruct (allDigits (String c s)) eqn:Hd; [exact Hd|].
    rewrite (ParseUint_syntax (String c s)) in H by (simpl; try lia; right; exact Hd).
    discriminate H.
Qed.

(** ** Running the strict scanner on an input of known length

    The tactics below evaluate Parse on a string whose bytes are variables,
    splitting on each test the scanner makes. *)

Ltac on_eqb :=
  match goal with
  | |- context [if Ascii.eqb ?a ?b then _ else _] =>
      let E := fresh "E" in
      destruct (Ascii.eqb a b) eqn:E;
      [ apply Ascii.eqb_eq in E; try subst a | ]
  | |- context [negb (Ascii.eqb ?a ?b)] =>
      let E := fresh "E" in
      destruct (Ascii.eqb a b) eqn:E;
      [ apply Ascii.eqb_eq in E; try subst a | ]
  end.

Ltac on_ParseInt :=
  match goal with
  | |- context [strconv.ParseInt ?x 64] =>
      let E := fresh "E" in
      let v := fresh "v" in
      destruct (strconv.ParseInt x 64) as [v|?|?] eqn:E;
      [ apply ParseInt_ok_inv in E; [ | simpl; lia ]
      | | exfalso; exact (ParseInt_no_panic _ _ _ E) ]
  end.

Ltac reduce_header :=
  cbn [bind index String.get sliceFrom sliceTo exactInt len String.length
       Nat.ltb Nat.leb Nat.eqb drop take negb isOk isErr].


Ltac closes_header := first [ reflexivity | (intro; discriminate) ].
Ltac scan_header := repeat (reduce_header; first [ closes_header | on_eqb | on_ParseInt ]).

Lemma fieldShape2 (a b : ascii) :
  fieldShape (String a (String b "")) = true -> fieldFirst a = true /\ isDigit b = true.
Proof.
  cbn [fieldShape allDigits]. rewrite andb_true_r. intros H.
  apply andb_prop in H. exact H.
Qed.

Lemma fieldShape4 (a b c d : ascii) :
  fieldShape (String a (String b (String c (String d "")))) = true ->
  fieldFirst a = true /\ isDigit b = true /\ isDigit c = true /\ isDigit d = true.
Proof.
  cbn [fieldShape allDigits]. rewrite andb_true_r. intros H.
  apply andb_prop in H. destruct H as [H0 H]. apply andb_prop in H. destruct H as [H1 H]. apply andb_prop in H. destruct H as [H2 H]. repeat split; assumption.
Qed.

Lemma fieldFirst_digit (c : ascii) :
  fieldFirst c = true -> Ascii.eqb c "-" = false -> Ascii.eqb c "+" = false ->
  isDigit c = true.
Proof.
  unfold fieldFirst. intros H Hm Hp. rewrite Hm, Hp, !orb_false_r in H. exact H.
Qed.

Ltac reduce_all :=
  cbn [bind index String.get sliceFrom sliceTo exactInt len String.length
       Nat.ltb Nat.leb Nat.eqb drop take negb andb orb isOk isErr
       Ascii.eqb Bool.eqb parseTz parseFractionalSecond fracLoop append].


Ltac absurd_fact :=
  match goal with
  | H : false = true |- _ => discriminate H
  | H : isDigit (Ascii _ _ _ _ _ _ _ _) = true |- _ =>
      exfalso; revert H; clear; vm_compute; discriminate
  | H : fieldFirst (Ascii _ _ _ _ _ _ _ _) = true |- _ =>
      exfalso; revert H; clear; vm_compute; discriminate
  end.

Ltac on_zcmp :=
  match goal with
  | |- context [if Z.gtb ?a ?b then _ else _] => destruct (Z.gtb a b)
  | |- context [if Z.eqb ?a ?b then _ else _] => destruct (Z.eqb a b)
  end.

Ltac on_isDigit :=
  match goal with
  | H : isDigit ?c = true |- context [isDigit ?c] => rewrite H
  | |- context [isDigit ?c] =>
      tryif is_var c
      then (let E := fresh "E" in destruct (isDigit c) eqn:E)
      else (let v := eval vm_compute in (isDigit c) in change (isDigit c) with v)
  end.

Ltac closes := first [ reflexivity | (intro; discriminate) | absurd_fact ].
Ltac scan :=
  repeat (reduce_all; first [ closes | on_zcmp | on_eqb | on_ParseInt | on_isDigit ]).

Lemma parseTz_ok_shape (r : string) :
  isOk (parseTz r) = true -> tzShape r = true.
Proof.
  do 7 (destruct r as [|? r]; [ scan | ]).
  all: try (intro; discriminate).
  all: intros _; cbn [tzShape Ascii.eqb Bool.eqb orb andb];
    repeat match goal with
    | H : fieldShape (String _ (String _ "")) = true |- _ =>
        apply fieldShape2 in H; destruct H as [? ?]
    end;
    repeat match goal with
    | H : isDigit _ = true |- _ => rewrite H; clear H
    | H : fieldFirst _ = true |- _ => rewrite H; clear H
    end;
    reflexivity.
Qed.

Lemma cutOut_spec (s : string) (i : nat) :
  (i < len s)%nat -> cutOut s i = Ok (take i s ++ drop (S i) s).
Proof.
  intros Hi. unfold cutOut, sliceFrom, sliceTo.
  destruct (Nat.eqb_spec i 0) as [->|H0].
  - replace (len s <? 1)%nat with false by (symmetry; apply Nat.ltb_ge; lia).
    reflexivity.
  - replace (len s <? i)%nat with false by (symmetry; apply Nat.ltb_ge; lia).
    replace (len s <? i + 1)%nat with false by (symmetry; apply Nat.ltb_ge; lia).
    destruct (Z.eqb_spec (Z.of_nat i) (Z.of_nat (len s) - 1)) as [E|E].
    + f_equal. assert (El : len s = S i) by lia.
      clear E H0 Hi. revert s El. induction i as [|i IH]; intros [|c s] El; try discriminate El.
      * destruct s; [reflexivity | discriminate El].
      * simpl. rewrite <- IH; [reflexivity|]. unfold len in *. simpl in El. lia.
    + cbn [bind]. rewrite Nat.add_1_r. reflexivity.
Qed.

Lemma fracLoop_index (s : string) :
  forall (i : nat) (ld n : Z),
    (fst (fst (fracLoop s i ld n)) <= i + len s)%nat.
Proof.
  unfold len. induction s as [|c s IH]; intros i ld n; cbn [fracLoop].
  - simpl. lia.
  - destruct ((i <? 10)%nat && isDigit c).
    + specialize (IH (S i) (byteSub0 c) (wrapInt (wrapInt (n * 10) + byteSub0 c))).
      cbn [String.length]. lia.
    + simpl. lia.
Qed.

Lemma parseFractionalSecond_no_panic (s : string) :
  isPanic (parseFractionalSecond s) = false.
Proof.
  unfold parseFractionalSecond.
  pose proof (fracLoop_index s 0 0 0) as H.
  destruct (fracLoop s 0 0 0) as [[j ld] n]. cbn [fst] in H.
  destruct (j =? 0)%nat; [reflexivity|].
  destruct (ld =? 0); [reflexivity|].
  unfold sliceFrom.
  replace (len s <? j)%nat with false by (symmetry; apply Nat.ltb_ge; lia).
  cbn [bind]. destruct (9 <? j)%nat; [reflexivity|]. destruct (j <? 9)%nat; reflexivity.
Qed.

Ltac scan_panic :=
  repeat (reduce_all; cbn [isPanic];
          first [ reflexivity | on_zcmp | on_eqb | on_ParseInt | on_isDigit ]).

Lemma parseTz_no_panic (r : string) : isPanic (parseTz r) = false.
Proof.
  do 7 (destruct r as [|? r]; [ scan_panic | ]).
  reflexivity.
Qed.

Ltac scan_header_panic :=
  repeat (reduce_header; cbn [isPanic];
          first [ reflexivity | on_eqb | on_ParseInt ]).

Ltac on_decoder :=
  match goal with
  | |- context [parseFractionalSecond ?x] =>
      let H := fresh "H" in
      pose proof (parseFractionalSecond_no_panic x) as H;
      destruct (parseFractionalSecond x) as [[? ?]|?|?]; [ clear H | clear H | discriminate H ]
  | |- context [parseTz ?x] =>
      let H := fresh "H" in
      pose proof (parseTz_no_panic x) as H;
      destruct (parseTz x) as [?|?|?]; [ clear H | clear H | discriminate H ]
  end.

(** From eighteen bytes on, and without year sign, Parse does not panic. *)
Lemma Parse_no_panic (s : string) :
  (18 <= len s)%nat -> noYearSign s = true -> isPanic (Parse s) = false.
Proof.
  intros Hl Hy.
  do 18 (destruct s as [|? s]; [ exfalso; revert Hl; clear; cbn [len String.length]; lia | ]).
  clear Hl. cbn [noYearSign] in Hy. apply negb_true_iff in Hy.
  unfold Parse. reduce_header. rewrite Hy.
  destruct s as [|c18 s]; [ scan_header_panic | ].
  destruct s as [|c t]; scan_header_panic;
    repeat (reduce_header; cbn [isPanic]; first [ reflexivity | on_eqb | on_decoder ]).
Qed.

Ltac split_facts H :=
  repeat match type of H with
         | (_ && _) = true =>
             let F := fresh "F" in apply andb_prop in H; destruct H as [H F]
         end;
  repeat match goal with
  | F : Ascii.eqb ?a ?b = true |- _ =>
      apply Ascii.eqb_eq in F;
      first [ discriminate F | subst a | subst b ]
  end.

(** ** Where the parsers cannot panic *)

(** Parse can only panic on an input shorter than nineteen bytes: from
    nineteen bytes on it returns a time or an error. *)
Theorem Parse_no_panic_from_19 (s : string) :
  (19 <= len s)%nat -> isPanic (Parse s) = false.
Proof.
  intros Hl.
  destruct (noYearSign s) eqn:Hy.
  - apply Parse_no_panic; [lia | exact Hy].
  - do 19 (destruct s as [|? s]; [ exfalso; revert Hl; clear; cbn [len String.length]; lia | ]).
    clear Hl. cbn [noYearSign] in Hy. apply negb_false_iff, Ascii.eqb_eq in Hy. subst.
    unfold Parse.
    destruct s as [|c19 s]; [ scan_header_panic | ].
    destruct s as [|c t]; scan_header_panic;
      repeat (reduce_header; cbn [isPanic]; first [ reflexivity | on_eqb | on_decoder ]).
Qed.

Lemma Parse_no_panic_from_19_witness :
  isPanic (Parse "-2017-08-16T13:07:0") = false.
Proof.
  apply (Parse_no_panic_from_19 "-2017-08-16T13:07:0"). simpl. lia.
Defined.

(** The pattern parser never panics: every input gives a time or an error. *)
Theorem ParseRe_no_panic (s : string) : isPanic (ParseRe s) = false.
Proof.
  unfold ParseRe.
  destruct (FindStringSubmatch_length s) as [E|E].
  - rewrite E. reflexivity.
  - apply list_of_length_10 in E.
    destruct E as (a0 & a1 & a2 & a3 & a4 & a5 & a6 & a7 & a8 & a9 & E).
    rewrite E.
    cbn [List.length Nat.eqb reFields subAt nth_error bind reZoneGuard Nat.leb].
    repeat match goal with
    | |- context [strconv.ParseInt ?x 64] =>
        let H := fresh "H" in
        destruct (strconv.ParseInt x 64) as [?|?|?] eqn:H;
        [ clear H | clear H | exfalso; exact (ParseInt_no_panic _ _ _ H) ];
        cbn [bind isPanic]; try reflexivity
    end.
    cbn [subAt nth_error bind].
    destruct (nonEmpty a7); cbn [bind].
    1: pose proof (parseFractionalSecond_no_panic a7) as Hf;
       destruct (parseFractionalSecond a7) as [[nsec r]|e|p];
       [ clear Hf | reflexivity | discriminate Hf ]; cbn [bind].
    all: destruct (nonEmpty a8); [ | destruct (nonEmpty a9) ]; cbn [bind];
      try reflexivity;
      cbn [subAt nth_error bind];
      repeat match goal with
      | |- context [strconv.ParseInt ?x 32] =>
          let H := fresh "H" in
          destruct (strconv.ParseInt x 32) as [?|?|?] eqn:H;
          [ clear H | clear H | exfalso; exact (ParseInt_no_panic _ _ _ H) ];
          try reflexivity
      | |- context [if ?v >? 14 then _ else _] => destruct (v >? 14); try reflexivity
      end.
Qed.

(** ** What the decoders accept *)

Lemma digitRun_spec (n : nat) (s : string) :
  s = digitRun n s ++ drop (len (digitRun n s)) s
  /\ allDigits (digitRun n s) = true
  /\ (len (digitRun n s) <= n)%nat
  /\ (startsWithDigit (drop (len (digitRun n s)) s) = false \/ len (digitRun n s) = n).
Proof.
  unfold len. revert s. induction n as [|n IH]; intros s.
  - simpl. repeat split; auto.
  - destruct s as [|c s]; [ simpl; repeat split; auto; lia | ].
    cbn [digitRun]. destruct (isDigit c) eqn:Hc.
    + destruct (IH s) as (H1 & H2 & H3 & H4).
      cbn [String.length drop append allDigits]. rewrite Hc, H2.
      repeat split; [ f_equal; exact H1 | lia | ].
      destruct H4 as [H4|H4]; [left; exact H4 | right; lia].
    + cbn [String.length drop append allDigits startsWithDigit].
      repeat split; [ lia | left; exact Hc ].
Qed.

Lemma digitsAcc_pos (ds : string) :
  forall (acc : Z) (c : ascii),
    allDigits ds = true -> lastByte ds = Some c -> byteSub0 c <> 0 -> 0 <= acc ->
    0 < digitsAcc ds acc.
Proof.
  induction ds as [|a ds IH]; intros acc c Hd Hl Hc Ha; [discriminate Hl|].
  simpl in Hd. apply andb_prop in Hd. destruct Hd as [Hda Hd].
  pose proof (isDigit_range a Hda) as Hr.
  destruct ds as [|b ds].
  - simpl in Hl. injection Hl as <-. simpl. lia.
  - cbn [digitsAcc]. apply (IH _ c Hd); [exact Hl | exact Hc | lia].
Qed.

Lemma parseFractionalSecond_inv (s rest : string) (n : Z) :
  parseFractionalSecond s = Ok (n, rest) ->
  exists ds : string,
    s = ds ++ rest /\ allDigits ds = true /\ (1 <= len ds <= 9)%nat
    /\ lastByte ds <> Some "0"%char /\ startsWithDigit rest = false
    /\ n = digitsValue ds * 10 ^ (9 - Z.of_nat (len ds))
    /\ 0 < n < 10 ^ 9.
Proof.
  intros H.
  destruct (digitRun_spec 10 s) as (Hs & Hd & Hl & Hr).
  generalize dependent (drop (len (digitRun 10 s)) s). intros r Hs Hr.
  generalize dependent (digitRun 10 s). intros ds Hd Hl Hs Hr.
  destruct (Nat.eq_dec (len ds) 0) as [E0|E0].
  { destruct ds; [|discriminate E0]. simpl in Hs.
    destruct Hr as [Hr|Hr]; [|discriminate Hr].
    pose proof (parseFractionalSecond_empty r Hr) as He.
    rewrite <- Hs, H in He. discriminate He. }
  destruct (Nat.eq_dec (len ds) 10) as [E10|E10].
  { assert (Hl10 : (10 <= len ds)%nat) by lia.
    pose proof (parseFractionalSecond_long ds r Hd Hl10) as He.
    rewrite <- Hs, H in He. discriminate He. }
  assert (Hr' : startsWithDigit r = false) by (destruct Hr as [Hr|Hr]; [exact Hr | contradiction]).
  destruct (lastByte ds) as [c|] eqn:El.
  2:{ destruct ds as [|a ds']; [contradiction|].
      destruct (lastByte_cons ds' a) as [c E]. congruence. }
  destruct (Ascii.eqb_spec c "0") as [Ec|Ec].
  { subst c. pose proof (parseFractionalSecond_trailing_zero ds r Hd Hr' El) as He.
    rewrite <- Hs, H in He. discriminate He. }
  assert (Hz : lastByte ds <> Some "0"%char) by congruence.
  assert (Hl9 : (1 <= len ds <= 9)%nat) by lia.
  pose proof (parseFractionalSecond_value ds r Hd Hr' Hl9 Hz) as Hv.
  rewrite <- Hs, H in Hv.
  assert (Hn : n = digitsValue ds * 10 ^ (9 - Z.of_nat (len ds))) by congruence.
  assert (Hrest : rest = r) by congruence.
  clear Hv. subst rest.
  exists ds. repeat split; try assumption; try lia.
  - pose proof (lastByte_isDigit ds c Hd El) as Hc.
    assert (Hb : byteSub0 c <> 0).
    { intro Hb. apply (isDigit_zero c Hc) in Hb. contradiction. }
    pose proof (digitsAcc_pos ds 0 c Hd El Hb (Z.le_refl 0)) as Hp.
    fold (digitsValue ds) in Hp. subst n.
    apply Z.mul_pos_pos; [exact Hp | apply Z.pow_pos_nonneg; lia].
  - pose proof (digitsValue_bounds ds (len ds) Hd eq_refl) as Hb. subst n.
    assert (Hp : 10 ^ Z.of_nat (len ds) * 10 ^ (9 - Z.of_nat (len ds)) = 10 ^ 9).
    { rewrite <- Z.pow_add_r by lia. f_equal. lia. }
    assert (Hq : 0 < 10 ^ (9 - Z.of_nat (len ds))) by (apply Z.pow_pos_nonneg; lia).
    nia.
Qed.

(** The fractional-second decoder never panics, and what it accepts is one
    to nine digits not ending in '0', followed by something that is not a
    digit: it returns the digits' number scaled to nine places, which lies
    strictly between 0 and 10^9, and the unread rest. *)
Theorem parseFractionalSecond_accepts (s : string) :
  isPanic (parseFractionalSecond s) = false
  /\ (forall (n : Z) (rest : string),
        parseFractionalSecond s = Ok (n, rest) ->
        exists ds : string,
          s = ds ++ rest /\ allDigits ds = true /\ (1 <= len ds <= 9)%nat
          /\ lastByte ds <> Some "0"%char /\ startsWithDigit rest = false
          /\ n = digitsValue ds * 10 ^ (9 - Z.of_nat (len ds))
          /\ 0 < n < 10 ^ 9).
Proof.
  split; [ apply parseFractionalSecond_no_panic | ].
  intros n rest H. exact (parseFractionalSecond_inv s rest n H).
Qed.

Lemma parseFractionalSecond_accepts_witness :
  exists ds : string,
    "09251+02:00" = ds ++ "+02:00" /\ allDigits ds = true /\ (1 <= len ds <= 9)%nat
    /\ lastByte ds <> Some "0"%char /\ startsWithDigit "+02:00" = false
    /\ 92510000 = digitsValue ds * 10 ^ (9 - Z.of_nat (len ds))
    /\ 0 < 92510000 < 10 ^ 9.
Proof.
  destruct (parseFractionalSecond_accepts "09251+02:00") as [_ H].
  apply (H 92510000 "+02:00"). reflexivity.
Defined.

(** The number ParseInt returns, by the first byte of its input. *)
Lemma ParseInt_ok_value (s : string) (v : Z) :
  (len s <= 18)%nat -> strconv.ParseInt s 64 = Ok v ->
  exists (c : ascii) (r : string),
    s = String c r /\ allDigits r = true
    /\ ((c = "+"%char /\ r <> "" /\ v = digitsValue r)
        \/ (c = "-"%char /\ r <> "" /\ v = - digitsValue r)
        \/ (isDigit c = true /\ v = digitsValue s)).
Proof.
  intros Hl H.
  pose proof (ParseInt_ok_inv s v H Hl) as Hs.
  destruct s as [|c r]; [discriminate Hs|].
  cbn [fieldShape] in Hs. apply andb_prop in Hs. destruct Hs as [Hc Hr].
  exists c, r. split; [reflexivity|]. split; [exact Hr|].
  simpl len in Hl.
  assert (Hu : r <> "" ->
               strconv.ParseUint r 64 = (digitsValue r, None)
               /\ (digitsValue r >=? 2 ^ (64 - 1)) = false
               /\ (digitsValue r >? 2 ^ (64 - 1)) = false).
  { intros Hne. destruct r as [|a r']; [contradiction|].
    pose proof (digitsValue_bounds (String a r') _ Hr eq_refl) as Hb.
    assert (Hp : 10 ^ Z.of_nat (len (String a r')) <= 10 ^ 18)
      by (apply Z.pow_le_mono_r; simpl in *; lia).
    change (2 ^ (64 - 1)) with (2 ^ 63).
    repeat split.
    - unfold strconv.ParseUint.
      apply (parseUintLoop_digits (String a r') 0 0 Hr); simpl in *; lia.
    - rewrite Z.geb_leb. apply Z.leb_gt. lia.
    - rewrite Z.gtb_ltb. apply Z.ltb_ge. lia. }
  pose proof H as H'. unfold strconv.ParseInt in H.
  destruct (Ascii.eqb_spec c "+") as [Ep|Ep].
  - left. subst c. split; [reflexivity|].
    destruct r as [|a r']; [discriminate H|].
    split; [discriminate|].
    destruct Hu as (Hu & Hge & Hgt); [discriminate|].
    rewrite Hu in H. cbv beta iota zeta in H. rewrite Hge in H.
    cbn [negb andb] in H. congruence.
  - destruct (Ascii.eqb_spec c "-") as [Em|Em].
    + right; left. subst c. split; [reflexivity|].
      destruct r as [|a r']; [discriminate H|].
      split; [discriminate|].
      destruct Hu as (Hu & Hge & Hgt); [discriminate|].
      rewrite Hu in H. cbv beta iota zeta in H. rewrite Hgt in H.
      cbn [negb andb] in H. congruence.
    + right; right.
      assert (Hd : isDigit c = true).
      { apply fieldFirst_digit; [exact Hc | apply Ascii.eqb_neq; exact Em | apply Ascii.eqb_neq; exact Ep]. }
      split; [exact Hd|].
      assert (Hall : allDigits (String c r) = true) by (simpl; rewrite Hd, Hr; reflexivity).
      pose proof (ParseInt_digits (String c r) Hall) as Hv.
      rewrite Hv in H' by (simpl; lia). congruence.
Qed.

Lemma ParseInt_ok_bounds (s : string) (v : Z) :
  (len s <= 18)%nat -> strconv.ParseInt s 64 = Ok v ->
  - 10 ^ (Z.of_nat (len s) - 1) < v < 10 ^ Z.of_nat (len s).
Proof.
  intros Hl H.
  destruct (ParseInt_ok_value s v Hl H) as (c & r & -> & Hr & Hv).
  pose proof (digitsValue_bounds r _ Hr eq_refl) as Hb.
  simpl len. rewrite Nat2Z.inj_succ.
  replace (Z.succ (Z.of_nat (len r)) - 1) with (Z.of_nat (len r)) by lia.
  rewrite Z.pow_succ_r by lia.
  destruct Hv as [(_ & _ & ->)|[(_ & _ & ->)|(Hc & ->)]]; try lia.
  assert (Hd : allDigits (String c r) = true) by (simpl; rewrite Hc, Hr; reflexivity).
  pose proof (digitsValue_bounds (String c r) _ Hd eq_refl) as Hb'.
  simpl len in Hb'. rewrite Nat2Z.inj_succ, Z.pow_succ_r in Hb' by lia. lia.
Qed.

Lemma exactInt_inv (s rest : string) (l : nat) (v : Z) :
  exactInt s l = Ok (v, rest) ->
  s = take l s ++ rest /\ len (take l s) = l
  /\ strconv.ParseInt (take l s) 64 = Ok v.
Proof.
  unfold exactInt, sliceTo, sliceFrom.
  destruct (len s <? l)%nat eqn:El; [discriminate|].
  apply Nat.ltb_ge in El. cbn [bind].
  destruct (strconv.ParseInt (take l s) 64) as [i|e|p]; [|discriminate|discriminate].
  cbn [bind]. intros H.
  assert (Hv : i = v) by congruence. assert (Hr : drop l s = rest) by congruence.
  subst. repeat split.
  - symmetry. apply take_drop.
  - apply len_take. exact El.
Qed.

(** exactInt never panics; it reports "not enough" on a short input; and
    what it accepts is a digit or sign followed by digits, whose number lies
    strictly between -10^(l-1) and 10^l. *)
Theorem exactInt_accepts (s : string) (l : nat) :
  (1 <= l <= 18)%nat ->
  isPanic (exactInt s l) = false
  /\ ((len s < l)%nat -> exactInt s l = Err (errorsNew "not enough"))
  /\ (forall (v : Z) (rest : string),
        exactInt s l = Ok (v, rest) ->
        s = take l s ++ rest /\ len s = (l + len rest)%nat
        /\ fieldShape (take l s) = true
        /\ - 10 ^ (Z.of_nat l - 1) < v < 10 ^ Z.of_nat l).
Proof.
  intros Hl. split; [|split].
  - unfold exactInt, sliceTo, sliceFrom.
    destruct (len s <? l)%nat; [reflexivity|]. cbn [bind].
    destruct (strconv.ParseInt (take l s) 64) as [i|e|p] eqn:E; try reflexivity.
    exfalso. exact (ParseInt_no_panic _ _ _ E).
  - intros Hs. unfold exactInt.
    replace (len s <? l)%nat with true by (symmetry; apply Nat.ltb_lt; exact Hs).
    reflexivity.
  - intros v rest H.
    destruct (exactInt_inv s rest l v H) as (Hs & Ht & Hv).
    assert (Ht18 : (len (take l s) <= 18)%nat) by lia.
    repeat split.
    + exact Hs.
    + rewrite Hs at 1. rewrite len_append, Ht. reflexivity.
    + exact (ParseInt_ok_inv _ _ Hv Ht18).
    + pose proof (ParseInt_ok_bounds _ _ Ht18 Hv) as Hb. rewrite Ht in Hb. lia.
    + pose proof (ParseInt_ok_bounds _ _ Ht18 Hv) as Hb. rewrite Ht in Hb. lia.
Qed.

Lemma exactInt_accepts_witness :
  "+8-16" = take 2 "+8-16" ++ "-16" /\ len "+8-16" = (2 + len "-16")%nat
  /\ fieldShape (take 2 "+8-16") = true
  /\ - 10 ^ (Z.of_nat 2 - 1) < 8 < 10 ^ Z.of_nat 2.
Proof.
  destruct (exactInt_accepts "+8-16" 2) as (_ & _ & H); [ simpl; lia | ].
  apply (H 8 "-16"). reflexivity.
Defined.

Lemma parseTz_six (g t1 t2 c t4 t5 : ascii) (l : Location) :
  let s := String g (String t1 (String t2 (String c (String t4 (String t5 ""))))) in
  parseTz s = Ok l ->
  exists sign hz mz : Z,
    ((g = "+"%char /\ sign = 1) \/ (g = "-"%char /\ sign = -1))
    /\ c = ":"%char
    /\ strconv.ParseInt (String t1 (String t2 "")) 64 = Ok hz /\ hz <= 14
    /\ strconv.ParseInt (String t4 (String t5 "")) 64 = Ok mz
    /\ l = FixedZone s (wrapInt (wrapInt (sign * wrapInt (wrapInt (hz * 60) + mz)) * 60)).
Proof.
  intros s. subst s. unfold parseTz. reduce_all.
  assert (Hgen : forall sign : Z,
    (((g = "+"%char /\ sign = 1) \/ (g = "-"%char /\ sign = -1))) ->
    (sign0 <- Ok sign ;;
     s <- Ok (String t1 (String t2 (String c (String t4 (String t5 ""))))) ;;
     x <- exactInt s 2 ;;
     (let (hz, s0) := x in
      if hz >? 14 then Err (errorsNew "max timezone hour is 14")
      else
       c0 <- index s0 0 ;;
       (if negb (Ascii.eqb c0 ":")
        then Err (errorsNew "expected : in dateTime format after 2 digit timezone hour")
        else
         s1 <- sliceFrom s0 1 ;;
         x0 <- exactInt s1 2 ;;
         (let (mz, _) := x0 in
          Ok (FixedZone (String g (String t1 (String t2 (String c (String t4 (String t5 ""))))))
                (wrapInt (wrapInt (sign0 * wrapInt (wrapInt (hz * 60) + mz)) * 60)))))))
    = Ok l ->
    exists sign hz mz : Z,
      ((g = "+"%char /\ sign = 1) \/ (g = "-"%char /\ sign = -1))
      /\ c = ":"%char
      /\ strconv.ParseInt (String t1 (String t2 "")) 64 = Ok hz /\ hz <= 14
      /\ strconv.ParseInt (String t4 (String t5 "")) 64 = Ok mz
      /\ l = FixedZone (String g (String t1 (String t2 (String c (String t4 (String t5 ""))))))
               (wrapInt (wrapInt (sign * wrapInt (wrapInt (hz * 60) + mz)) * 60))).
  { intros sign Hg. reduce_all.
    destruct (strconv.ParseInt (String t1 (String t2 "")) 64) as [hz|e|p] eqn:E1;
      reduce_all; try discriminate.
    destruct (hz >? 14) eqn:E14; [discriminate|].
    destruct (Ascii.eqb c ":") eqn:Ec; reduce_all; [|discriminate].
    apply Ascii.eqb_eq in Ec.
    destruct (strconv.ParseInt (String t4 (String t5 "")) 64) as [mz|e|p] eqn:E2;
      reduce_all; try discriminate.
    intros H. exists sign, hz, mz.
    repeat split; try assumption; try congruence.
    rewrite Z.gtb_ltb in E14. apply Z.ltb_ge in E14. exact E14. }
  destruct (Ascii.eqb g "+") eqn:Ep.
  - apply Ascii.eqb_eq in Ep. apply Hgen. left. auto.
  - destruct (Ascii.eqb g "-") eqn:Em.
    + apply Ascii.eqb_eq in Em. apply Hgen. right. auto.
    + reduce_all. discriminate.
Qed.

Lemma tz_offset_value (sign hz mz : Z) :
  (sign = 1 \/ sign = -1) -> -10 < hz <= 14 -> -10 < mz < 100 ->
  wrapInt (wrapInt (sign * wrapInt (wrapInt (hz * 60) + mz)) * 60)
  = sign * (hz * 60 + mz) * 60.
Proof.
  intros Hs Hh Hm.
  rewrite (wrapInt_small (hz * 60)) by lia.
  rewrite (wrapInt_small (hz * 60 + mz)) by lia.
  rewrite (wrapInt_small (sign * (hz * 60 + mz))) by (destruct Hs; subst; lia).
  rewrite wrapInt_small by (destruct Hs; subst; lia).
  reflexivity.
Qed.

Lemma parseTz_inv (s : string) (l : Location) :
  parseTz s = Ok l ->
  (s = "" /\ l = UTC) \/ (s = "Z" /\ l = UTC)
  \/ (len s = 6%nat
      /\ exists o : Z,
           l = FixedZone s o /\ -56340 <= o <= 56340 /\ o mod 60 = 0).
Proof.
  intros H.
  assert (Hs : tzShape s = true) by (apply parseTz_ok_shape; rewrite H; reflexivity).
  destruct s as [|g s]; [ left; split; [reflexivity | cbn in H; congruence] | ].
  destruct s as [|t1 s].
  { right; left. cbn [tzShape] in Hs. apply Ascii.eqb_eq in Hs. subst g.
    split; [reflexivity | cbn in H; congruence]. }
  do 4 (destruct s as [|? s]; [discriminate Hs|]).
  destruct s; [|discriminate Hs].
  right; right. split; [reflexivity|].
  destruct (parseTz_six _ _ _ _ _ _ l H) as (sign & hz & mz & Hg & Hc & E1 & H14 & E2 & Hl).
  assert (L2 : forall a b : ascii, (len (String a (String b "")) <= 18)%nat)
    by (intros; simpl; lia).
  pose proof (ParseInt_ok_bounds _ _ (L2 _ _) E1) as B1.
  pose proof (ParseInt_ok_bounds _ _ (L2 _ _) E2) as B2.
  cbn [len String.length] in B1, B2.
  change (10 ^ (Z.of_nat 2 - 1)) with 10 in B1, B2.
  change (10 ^ Z.of_nat 2) with 100 in B1, B2.
  assert (Hsign : sign = 1 \/ sign = -1) by (destruct Hg as [[_ ?]|[_ ?]]; auto).
  rewrite tz_offset_value in Hl by lia.
  eexists. split; [exact Hl|]. split.
  - destruct Hsign; subst sign; lia.
  - apply Z.mod_mul. lia.
Qed.

(** The timezone decoder never panics, and what it accepts is the empty
    remainder or "Z", both UTC, or six bytes: the zone is then named by the
    remainder itself, and its offset is a whole number of minutes at most
    15 h 39 min (56340 s) from UTC. *)
Theorem parseTz_accepts (s : string) :
  isPanic (parseTz s) = false
  /\ (forall l : Location,
        parseTz s = Ok l ->
        (s = "" /\ l = UTC) \/ (s = "Z" /\ l = UTC)
        \/ (len s = 6%nat
            /\ exists o : Z,
                 l = FixedZone s o /\ -56340 <= o <= 56340 /\ o mod 60 = 0)).
Proof.
  split; [ apply parseTz_no_panic | exact (parseTz_inv s) ].
Qed.

Lemma parseTz_accepts_witness :
  exists o : Z,
    FixedZone "-02:30" (-9000) = FixedZone "-02:30" o
    /\ -56340 <= o <= 56340 /\ o mod 60 = 0.
Proof.
  destruct (parseTz_accepts "-02:30") as [_ H].
  destruct (H (FixedZone "-02:30" (-9000)) eq_refl) as [[E _]|[[E _]|[_ Hx]]];
    [ discriminate E | discriminate E | exact Hx ].
Defined.

(** The timezone decoder on a sign, two digits, ":" and two digits. *)
Lemma parseTz_sign_digits (sg : ascii) (h m : string) :
  sg = "+"%char \/ sg = "-"%char ->
  allDigits h = true -> len h = 2%nat -> allDigits m = true -> len m = 2%nat ->
  parseTz (String sg (h ++ ":" ++ m))
  = if digitsValue h >? 14 then Err (errorsNew "max timezone hour is 14")
    else Ok (FixedZone (String sg (h ++ ":" ++ m))
               ((if Ascii.eqb sg "+" then 1 else -1)
                * (digitsValue h * 60 + digitsValue m) * 60)).
Proof.
  intros Hsg Hh Lh Hm Lm.
  pose proof (digitsValue_bounds h 2 Hh Lh) as Bh.
  pose proof (digitsValue_bounds m 2 Hm Lm) as Bm.
  change (10 ^ Z.of_nat 2) with 100 in Bh, Bm.
  assert (Hlen : len (String sg (h ++ ":" ++ m)) = 6%nat).
  { cbn [len String.length]. fold (len (h ++ ":" ++ m)).
    rewrite len_append, Lh. cbn [append len String.length]. fold (len m). rewrite Lm. reflexivity. }
  unfold parseTz. rewrite Hlen.
  cbn [index String.get bind sliceFrom len String.length Nat.ltb Nat.leb drop].
  assert (Hgen : forall sign : Z, (sign = 1 \/ sign = -1) ->
    (sign0 <- Ok sign ;;
     s <- Ok (h ++ ":" ++ m) ;;
     x <- exactInt s 2 ;;
     (let (hz, s0) := x in
      if hz >? 14 then Err (errorsNew "max timezone hour is 14")
      else
       c0 <- index s0 0 ;;
       (if negb (Ascii.eqb c0 ":")
        then Err (errorsNew "expected : in dateTime format after 2 digit timezone hour")
        else
         s1 <- sliceFrom s0 1 ;;
         x0 <- exactInt s1 2 ;;
         (let (mz, _) := x0 in
          Ok (FixedZone (String sg (h ++ ":" ++ m))
                (wrapInt (wrapInt (sign0 * wrapInt (wrapInt (hz * 60) + mz)) * 60)))))))
    = (if digitsValue h >? 14 then Err (errorsNew "max timezone hour is 14")
       else Ok (FixedZone (String sg (h ++ ":" ++ m))
                  (sign * (digitsValue h * 60 + digitsValue m) * 60)))).
  { intros sign Hs. cbn [bind].
    rewrite (exactInt_digits h _ 2 Hh Lh) by lia. cbn [bind].
    destruct (digitsValue h >? 14) eqn:E14; [reflexivity|].
    rewrite Z.gtb_ltb in E14. apply Z.ltb_ge in E14.
    cbn [append index String.get bind Ascii.eqb Bool.eqb negb sliceFrom len
         String.length Nat.ltb Nat.leb drop].
    replace m with (m ++ "") at 1 by (clear; induction m; simpl; congruence).
    rewrite (exactInt_digits m _ 2 Hm Lm) by lia. cbn [bind].
    rewrite tz_offset_value by lia. reflexivity. }
  destruct Hsg as [->| ->]; cbn [Ascii.eqb Bool.eqb]; apply Hgen; auto.
Qed.

(** On a sign, two digits, ":" and two digits the timezone decoder returns
    an error when the hour exceeds 14, and otherwise the offset of
    hh*60+mm minutes, east for "+" and west for "-". *)
Theorem parseTz_digits (sg : ascii) (h m : string) :
  sg = "+"%char \/ sg = "-"%char ->
  allDigits h = true -> len h = 2%nat -> allDigits m = true -> len m = 2%nat ->
  parseTz (String sg (h ++ ":" ++ m))
  = if digitsValue h >? 14 then Err (errorsNew "max timezone hour is 14")
    else Ok (FixedZone (String sg (h ++ ":" ++ m))
               ((if Ascii.eqb sg "+" then 1 else -1)
                * (digitsValue h * 60 + digitsValue m) * 60)).
Proof.
  apply parseTz_sign_digits.
Qed.

Lemma parseTz_digits_witness :
  parseTz "+05:45" = Ok (FixedZone "+05:45" 20700).
Proof.
  apply (parseTz_digits "+" "05" "45"); [ left | .. ]; reflexivity.
Defined.

(** ** The strict scanner, field by field *)

(** The end of Parse, from the fraction on, is [decodeTail]. *)
Lemma Parse_tail (tail : string) (k : Z -> Location -> Time) :
  ('(nsec, s) <- (if (0 <? len tail)%nat then
                    c <- index tail 0 ;;
                    if Ascii.eqb c "." then
                      s' <- sliceFrom tail 1 ;; parseFractionalSecond s'
                    else Ok (0, tail)
                  else Ok (0, tail)) ;;
   loc <- parseTz s ;; Ok (k nsec loc))
  = ('(nsec, l) <- decodeTail tail ;; Ok (k nsec l)).
Proof.
  unfold decodeTail. destruct tail as [|c f].
  - cbn. reflexivity.
  - cbn [len String.length Nat.ltb Nat.leb index String.get bind].
    destruct (Ascii.eqb c ".").
    + cbn [sliceFrom len String.length Nat.ltb Nat.leb drop bind].
      destruct (parseFractionalSecond f) as [[nsec r]|e|p]; cbn [bind]; try reflexivity.
      destruct (parseTz r); reflexivity.
    + cbn [bind]. destruct (parseTz (String c f)); reflexivity.
Qed.

Lemma Parse_scanFrom (s : string) :
  Parse s
  = (c <- index s 0 ;;
     if Ascii.eqb c "-" then s' <- sliceFrom s 1 ;; scanFrom (-1) s'
     else if Ascii.eqb c "+" then Err (errorsNew "+ before year not allowed")
     else scanFrom 1 s).
Proof.
  unfold Parse, scanFrom.
  destruct (index s 0) as [c| |]; cbn [bind]; [ | reflexivity | reflexivity ].
  destruct (Ascii.eqb c "-");
    [ destruct (sliceFrom s 1) as [s'| |]; cbn [bind]; [ | reflexivity | reflexivity ]
    | destruct (Ascii.eqb c "+"); [ reflexivity | cbn [bind] ] ].
  all: repeat first
      [ match goal with
        | |- bind (exactInt ?s ?l) _ = bind (exactInt ?s ?l) _ =>
            let x := fresh "x" in
            destruct (exactInt s l) as [x|?|?]; cbn [bind];
            [ destruct x | reflexivity | reflexivity ]
        | |- bind (index ?s ?i) _ = bind (index ?s ?i) _ =>
            destruct (index s i) as [?|?|?]; cbn [bind]; [ | reflexivity | reflexivity ]
        | |- bind (sliceFrom ?s ?i) _ = bind (sliceFrom ?s ?i) _ =>
            destruct (sliceFrom s i) as [?|?|?]; cbn [bind]; [ | reflexivity | reflexivity ]
        | |- (if ?b then Err ?e else _) = (if ?b then Err ?e else _) =>
            destruct b; [ reflexivity | ]
        end
      | apply Parse_tail ].
Qed.

Ltac field_inv H l f v :=
  let E := fresh "E" in
  let r := fresh "r" in
  let Hs := fresh "Hs" in
  let L := fresh "L" in
  let P := fresh "P" in
  match type of H with
  | bind (exactInt ?s l) _ = _ =>
      destruct (exactInt s l) as [[v r]| |] eqn:E; cbn [bind] in H; try discriminate H;
      apply exactInt_inv in E; destruct E as (Hs & L & P);
      remember (take l s) as f eqn:Hf; clear Hf; subst s
  end.

Ltac delim_inv H :=
  let c := fresh "c" in
  let r := fresh "r" in
  let E := fresh "E" in
  match type of H with
  | bind (index ?s 0) _ = _ =>
      destruct s as [|c r]; [ discriminate H | ];
      cbn [index String.get bind] in H;
      match type of H with
      | (if negb (Ascii.eqb c ?d) then _ else _) = _ =>
          destruct (Ascii.eqb c d) eqn:E; cbn [negb] in H; [ | discriminate H ];
          apply Ascii.eqb_eq in E; subst c;
          cbn [sliceFrom len String.length Nat.ltb Nat.leb drop bind] in H
      end
  end.

(** What [scanFrom] accepts: six fields that strconv.ParseInt reads, the
    five delimiters, and a tail that the decoders accept. *)
Lemma scanFrom_inv (sign : Z) (s : string) (t : Time) :
  scanFrom sign s = Ok t ->
  exists (yf mof df hf mif sf tail : string) (y mo d h mi sec nsec : Z) (l : Location),
    s = yf ++ "-" ++ mof ++ "-" ++ df ++ "T" ++ hf ++ ":" ++ mif ++ ":" ++ sf ++ tail
    /\ (len yf = 4 /\ len mof = 2 /\ len df = 2
        /\ len hf = 2 /\ len mif = 2 /\ len sf = 2)%nat
    /\ strconv.ParseInt yf 64 = Ok y /\ strconv.ParseInt mof 64 = Ok mo
    /\ strconv.ParseInt df 64 = Ok d /\ strconv.ParseInt hf 64 = Ok h
    /\ strconv.ParseInt mif 64 = Ok mi /\ strconv.ParseInt sf 64 = Ok sec
    /\ decodeTail tail = Ok (nsec, l)
    /\ t = Date (wrapInt (y * sign)) mo d h mi sec nsec l.
Proof.
  unfold scanFrom. intros H.
  field_inv H 4%nat yf y. delim_inv H.
  field_inv H 2%nat mof mo. delim_inv H.
  field_inv H 2%nat df d. delim_inv H.
  field_inv H 2%nat hf h. delim_inv H.
  field_inv H 2%nat mif mi. delim_inv H.
  field_inv H 2%nat sf sec.
  match type of H with
  | bind (decodeTail ?s) _ = _ =>
      destruct (decodeTail s) as [[nsec l]| |] eqn:Et; cbn [bind] in H; try discriminate H
  end.
  assert (Ht : t = Date (wrapInt (y * sign)) mo d h mi sec nsec l) by congruence.
  exists yf, mof, df, hf, mif, sf. eexists. exists y, mo, d, h, mi, sec, nsec, l.
  repeat split; try eassumption; reflexivity.
Qed.

Lemma exactInt_of_ParseInt (f rest : string) (l : nat) (v : Z) :
  len f = l -> strconv.ParseInt f 64 = Ok v ->
  exactInt (f ++ rest) l = Ok (v, rest).
Proof.
  intros Hl Hv. subst l. unfold exactInt, sliceTo, sliceFrom.
  rewrite len_append.
  replace (len f + len rest <? len f)%nat with false
    by (symmetry; apply Nat.ltb_ge; lia).
  cbn [bind]. rewrite take_append, Hv, drop_append. reflexivity.
Qed.

Lemma scanFrom_fields (sign : Z) (yf mof df hf mif sf tail : string)
    (y mo d h mi sec : Z) :
  (len yf = 4 /\ len mof = 2 /\ len df = 2
   /\ len hf = 2 /\ len mif = 2 /\ len sf = 2)%nat ->
  strconv.ParseInt yf 64 = Ok y -> strconv.ParseInt mof 64 = Ok mo ->
  strconv.ParseInt df 64 = Ok d -> strconv.ParseInt hf 64 = Ok h ->
  strconv.ParseInt mif 64 = Ok mi -> strconv.ParseInt sf 64 = Ok sec ->
  scanFrom sign
    (yf ++ "-" ++ mof ++ "-" ++ df ++ "T" ++ hf ++ ":" ++ mif ++ ":" ++ sf ++ tail)
  = ('(nsec, l) <- decodeTail tail ;;
     Ok (Date (wrapInt (y * sign)) mo d h mi sec nsec l)).
Proof.
  intros (L1 & L2 & L3 & L4 & L5 & L6) P1 P2 P3 P4 P5 P6.
  unfold scanFrom.
  rewrite (exactInt_of_ParseInt yf _ 4 y L1 P1).
  cbn [bind append index String.get Ascii.eqb Bool.eqb negb sliceFrom len
       String.length Nat.ltb Nat.leb drop].
  rewrite (exactInt_of_ParseInt mof _ 2 mo L2 P2).
  cbn [bind append index String.get Ascii.eqb Bool.eqb negb sliceFrom len
       String.length Nat.ltb Nat.leb drop].
  rewrite (exactInt_of_ParseInt df _ 2 d L3 P3).
  cbn [bind append index String.get Ascii.eqb Bool.eqb negb sliceFrom len
       String.length Nat.ltb Nat.leb drop].
  rewrite (exactInt_of_ParseInt hf _ 2 h L4 P4).
  cbn [bind append index String.get Ascii.eqb Bool.eqb negb sliceFrom len
       String.length Nat.ltb Nat.leb drop].
  rewrite (exactInt_of_ParseInt mif _ 2 mi L5 P5).
  cbn [bind append index String.get Ascii.eqb Bool.eqb negb sliceFrom len
       String.length Nat.ltb Nat.leb drop].
  rewrite (exactInt_of_ParseInt sf _ 2 sec L6 P6).
  reflexivity.
Qed.

Lemma norm_in_range (hi lo base : Z) :
  0 <= lo < base -> norm hi lo base = (hi, lo).
Proof.
  intros H. unfold norm.
  replace (lo <? 0) with false by (symmetry; apply Z.ltb_ge; lia).
  replace (lo >=? base) with false by (symmetry; rewrite Z.geb_leb; apply Z.leb_gt; lia).
  reflexivity.
Qed.

Lemma Date_nanos_location (y mo d h mi sec nsec : Z) (l : Location) :
  0 <= nsec < 10 ^ 9 ->
  nanos (Date y mo d h mi sec nsec l) = nsec
  /\ location (Date y mo d h mi sec nsec l) = l.
Proof.
  intros H. unfold Date.
  destruct (norm y (mo - 1) 12) as [y' m'].
  rewrite (norm_in_range sec nsec 1000000000) by (change (10 ^ 9) with 1000000000 in H; lia).
  destruct (norm mi sec 60) as [mi' s'].
  destruct (norm h mi' 60) as [h' mi''].
  destruct (norm d h' 24) as [d' h''].
  split; reflexivity.
Qed.

Lemma decodeTail_inv (tail : string) (nsec : Z) (l : Location) :
  decodeTail tail = Ok (nsec, l) ->
  (len tail <= 16)%nat /\ 0 <= nsec < 10 ^ 9
  /\ -56340 <= zoneOffset l <= 56340.
Proof.
  assert (Htz : forall r l', parseTz r = Ok l' ->
                 (len r <= 6)%nat /\ -56340 <= zoneOffset l' <= 56340).
  { intros r l' H. destruct (parseTz_inv r l' H) as [[-> ->]|[[-> ->]|(Hl & o & -> & Ho & _)]];
      cbn [len String.length zoneOffset]; try lia. }
  unfold decodeTail. intros H.
  destruct tail as [|c f].
  - destruct (parseTz "") as [l'| |] eqn:E; cbn [bind] in H; try discriminate H.
    destruct (Htz _ _ E) as [H1 H2].
    assert (nsec = 0) by congruence. assert (l' = l) by congruence. subst.
    cbn [len String.length]. lia.
  - destruct (Ascii.eqb c ".").
    + destruct (parseFractionalSecond f) as [[n r]| |] eqn:Ef; cbn [bind] in H; try discriminate H.
      destruct (parseTz r) as [l'| |] eqn:E; cbn [bind] in H; try discriminate H.
      destruct (Htz _ _ E) as [H1 H2].
      destruct (parseFractionalSecond_inv _ _ _ Ef) as (ds & Hf & _ & Hl & _ & _ & _ & Hn).
      assert (nsec = n) by congruence. assert (l' = l) by congruence. subst.
      cbn [len String.length]. fold (len (ds ++ r)). rewrite len_append. lia.
    + destruct (parseTz (String c f)) as [l'| |] eqn:E; cbn [bind] in H; try discriminate H.
      destruct (Htz _ _ E) as [H1 H2].
      assert (nsec = 0) by congruence. assert (l' = l) by congruence. subst. lia.
Qed.

Lemma year_sign (yf : string) (y : Z) :
  len yf = 4%nat -> strconv.ParseInt yf 64 = Ok y ->
  wrapInt (y * 1) = y /\ wrapInt (y * -1) = - y.
Proof.
  intros L P.
  assert (L18 : (len yf <= 18)%nat) by lia.
  pose proof (ParseInt_ok_bounds yf y L18 P) as B. rewrite L in B.
  change (10 ^ (Z.of_nat 4 - 1)) with 1000 in B.
  change (10 ^ Z.of_nat 4) with 10000 in B.
  split; [ rewrite Z.mul_1_r | replace (y * -1) with (- y) by lia ];
    apply wrapInt_small; lia.
Qed.

Lemma Parse_inv (s : string) (t : Time) : Parse s = Ok t -> accepted s t.
Proof.
  rewrite Parse_scanFrom. intros H.
  destruct s as [|c s']; [discriminate H|].
  cbn [index String.get bind] in H.
  destruct (Ascii.eqb c "-") eqn:Em.
  - apply Ascii.eqb_eq in Em. subst c.
    cbn [sliceFrom len String.length Nat.ltb Nat.leb drop bind] in H.
    destruct (scanFrom_inv _ _ _ H)
      as (yf & mof & df & hf & mif & sf & tail & y & mo & d & h & mi & sec & nsec & l
          & Hs & HL & P1 & P2 & P3 & P4 & P5 & P6 & Ht & Hd).
    destruct (year_sign yf y (proj1 HL) P1) as [_ Hy]. rewrite Hy in Hd.
    exists true, yf, mof, df, hf, mif, sf, tail, y, mo, d, h, mi, sec, nsec, l.
    repeat split; try tauto; try assumption.
    + rewrite Hs. reflexivity.
    + discriminate.
  - destruct (Ascii.eqb c "+") eqn:Ep; [discriminate H|].
    destruct (scanFrom_inv _ _ _ H)
      as (yf & mof & df & hf & mif & sf & tail & y & mo & d & h & mi & sec & nsec & l
          & Hs & HL & P1 & P2 & P3 & P4 & P5 & P6 & Ht & Hd).
    destruct (year_sign yf y (proj1 HL) P1) as [Hy _]. rewrite Hy in Hd.
    exists false, yf, mof, df, hf, mif, sf, tail, y, mo, d, h, mi, sec, nsec, l.
    repeat split; try tauto; try assumption.
    intros _.
    assert (L18 : (len yf <= 18)%nat) by lia.
    destruct (ParseInt_ok_value yf y L18 P1) as (a & r & -> & Hr & Hv).
    cbn [append] in Hs. assert (a = c) by congruence. subst a.
    destruct Hv as [(E & _)|[(E & _)|(Hc & _)]].
    + subst c. discriminate Ep.
    + subst c. discriminate Em.
    + simpl. rewrite Hc, Hr. reflexivity.
Qed.

Lemma Parse_fields (s : string) (t : Time) : accepted s t -> Parse s = Ok t.
Proof.
  intros (neg & yf & mof & df & hf & mif & sf & tail & y & mo & d & h & mi & sec
          & nsec & l & Hs & Hn & HL & P1 & P2 & P3 & P4 & P5 & P6 & Ht & Hd).
  destruct (year_sign yf y (proj1 HL) P1) as [Hy1 Hy2].
  rewrite Parse_scanFrom. subst s. destruct neg.
  - cbn [append index String.get bind Ascii.eqb Bool.eqb sliceFrom len
         String.length Nat.ltb Nat.leb drop].
    pose proof (scanFrom_fields (-1) yf mof df hf mif sf tail y mo d h mi sec
                  HL P1 P2 P3 P4 P5 P6) as F.
    cbn [append] in F. rewrite F, Ht, Hy2. cbn [bind]. congruence.
  - specialize (Hn eq_refl).
    destruct yf as [|a r]; [destruct HL as [HL _]; discriminate HL|].
    assert (Ha : isDigit a = true) by (simpl in Hn; apply andb_prop in Hn; tauto).
    destruct (isDigit_not_sign a Ha) as [Hp Hm].
    pose proof (scanFrom_fields 1 (String a r) mof df hf mif sf tail y mo d h mi sec
                  HL P1 P2 P3 P4 P5 P6) as F.
    cbn [append] in F. cbn [append index String.get bind]. rewrite Hm, Hp.
    rewrite F, Ht, Hy1. cbn [bind]. congruence.
Qed.

(** Parse accepts exactly: an optional "-", a four-byte year, and two-byte
    month, day, hour, minute and second, each a number that strconv.ParseInt
    reads (the year all digits when no "-" stands before it), with the
    delimiters "-", "-", "T", ":", ":" between them, then a tail that the
    fraction and timezone decoders accept.  It returns the time that
    time.Date builds from these numbers. *)
Theorem Parse_accepts (s : string) (t : Time) : Parse s = Ok t <-> accepted s t.
Proof.
  split; [ apply Parse_inv | apply Parse_fields ].
Qed.

(** An input that Parse accepts is 19 to 36 bytes long; the time returned
    has its nanoseconds in [0, 10^9) and its zone offset within 56340 s of
    UTC. *)
Theorem Parse_ok_bounds (s : string) (t : Time) :
  Parse s = Ok t ->
  (19 <= len s <= 36)%nat /\ 0 <= nanos t < 10 ^ 9
  /\ -56340 <= zoneOffset (location t) <= 56340.
Proof.
  intros H.
  destruct (Parse_inv s t H)
    as (neg & yf & mof & df & hf & mif & sf & tail & y & mo & d & h & mi & sec
        & nsec & l & Hs & Hn & (L1 & L2 & L3 & L4 & L5 & L6) & _ & _ & _ & _ & _ & _ & Ht & Hd).
  destruct (decodeTail_inv tail nsec l Ht) as (Hl & Hns & Ho).
  destruct (Date_nanos_location (if neg then - y else y) mo d h mi sec nsec l Hns) as [E1 E2].
  rewrite Hd, E1, E2. split; [|tauto].
  subst s. rewrite !len_append. rewrite L1, L2, L3, L4, L5, L6.
  destruct neg; cbn [len String.length]; lia.
Qed.

Lemma Parse_ok_bounds_witness :
  (19 <= len "2017-08-16T13:07:00.09251+02:00" <= 36)%nat
  /\ 0 <= nanos (Date 2017 8 16 13 7 0 92510000 (FixedZone "+02:00" 7200)) < 10 ^ 9
  /\ -56340 <= zoneOffset (location (Date 2017 8 16 13 7 0 92510000 (FixedZone "+02:00" 7200))) <= 56340.
Proof.
  apply (Parse_ok_bounds "2017-08-16T13:07:00.09251+02:00"). reflexivity.
Defined.

(** ** Decimal rendering and reading are inverse *)

Lemma digit_char (c : ascii) :
  isDigit c = true ->
  ascii_of_N (Z.to_N (48 + byteSub0 c)) = c.
Proof.
  each_byte c; intros H; try discriminate H; reflexivity.
Qed.

Lemma zeros_len (n : nat) : len (zeros n) = n.
Proof. unfold len. induction n; simpl; congruence. Qed.

Lemma digitsAcc_zeros (n : nat) (a : Z) :
  digitsAcc (zeros n) a = a * 10 ^ Z.of_nat n.
Proof.
  revert a. induction n as [|n IH]; intros a.
  - simpl. lia.
  - cbn [zeros digitsAcc]. rewrite IH.
    change (byteSub0 "0") with 0.
    rewrite Nat2Z.inj_succ, Z.pow_succ_r by lia. lia.
Qed.

Lemma digitsAcc_append (s1 s2 : string) (a : Z) :
  digitsAcc (s1 ++ s2) a = digitsAcc s2 (digitsAcc s1 a).
Proof.
  revert a. induction s1 as [|c s1 IH]; intros a; simpl; [reflexivity | apply IH].
Qed.

Lemma allDigits_append (s1 s2 : string) :
  allDigits (s1 ++ s2) = allDigits s1 && allDigits s2.
Proof.
  induction s1 as [|c s1 IH]; simpl; [reflexivity|].
  rewrite IH, andb_assoc. reflexivity.
Qed.

Lemma allDigits_zeros (n : nat) : allDigits (zeros n) = true.
Proof. induction n; simpl; auto. Qed.

(** One step of [utoa]: the last digit goes before the accumulator. *)
Lemma utoa_step (fuel : nat) (a : Z) (c : ascii) (acc : string) :
  isDigit c = true -> 0 <= a ->
  utoa (S fuel) (a * 10 + byteSub0 c) acc
  = if a =? 0 then String c acc else utoa fuel a (String c acc).
Proof.
  intros Hc Ha. pose proof (isDigit_range c Hc) as Hr.
  cbn [utoa].
  replace ((a * 10 + byteSub0 c) mod 10) with (byteSub0 c)
    by (symmetry; rewrite Z.add_comm, Z.mod_add by lia; apply Z.mod_small; lia).
  rewrite (digit_char c Hc).
  replace ((a * 10 + byteSub0 c) / 10) with a
    by (symmetry; rewrite Z.add_comm, Z.div_add by lia; rewrite Z.div_small by lia; lia).
  destruct (Z.eqb_spec a 0) as [->|Hne].
  - replace (0 * 10 + byteSub0 c <? 10) with true by (symmetry; apply Z.ltb_lt; lia).
    reflexivity.
  - replace (a * 10 + byteSub0 c <? 10) with false by (symmetry; apply Z.ltb_ge; lia).
    reflexivity.
Qed.

(** Rendering the number of [a] followed by the digits [ds] renders [a] and
    leaves [ds] behind it. *)
Lemma utoa_digits (ds : string) :
  forall (fuel : nat) (a : Z) (acc : string),
    allDigits ds = true -> 0 < a -> (len ds <= fuel)%nat ->
    utoa fuel (digitsAcc ds a) acc = utoa (fuel - len ds) a (ds ++ acc).
Proof.
  induction ds as [|c ds IH]; intros fuel a acc Hd Ha Hf.
  - simpl. rewrite Nat.sub_0_r. reflexivity.
  - simpl in Hd. apply andb_prop in Hd. destruct Hd as [Hc Hd].
    pose proof (isDigit_range c Hc) as Hr.
    cbn [len String.length] in Hf. fold (len ds) in Hf.
    cbn [digitsAcc]. rewrite IH by (try assumption; lia).
    cbn [len String.length]. fold (len ds).
    replace (fuel - len ds)%nat with (S (fuel - S (len ds))) by lia.
    rewrite utoa_step by (try assumption; lia).
    replace (a =? 0) with false by (symmetry; apply Z.eqb_neq; lia).
    reflexivity.
Qed.

(** Digits read and rendered again, padded to their length, are the same
    digits. *)
Lemma padDigits_digitsValue (ds : string) :
  allDigits ds = true -> (1 <= len ds <= 20)%nat ->
  padDigits (len ds) (digitsValue ds) = ds.
Proof.
  unfold digitsValue.
  induction ds as [|c ds IH]; intros Hd Hl; [simpl in Hl; lia|].
  simpl in Hd. apply andb_prop in Hd. destruct Hd as [Hc Hd].
  pose proof (isDigit_range c Hc) as Hr.
  cbn [len String.length] in *. fold (len ds) in *.
  cbn [digitsAcc]. rewrite Z.mul_0_l, Z.add_0_l.
  destruct (Z.eqb_spec (byteSub0 c) 0) as [E0|E0].
  - rewrite E0. apply (isDigit_zero c Hc) in E0. subst c.
    destruct ds as [|c' ds'].
    + reflexivity.
    + assert (Hl' : (1 <= len (String c' ds') <= 20)%nat) by (cbn [len String.length] in *; lia).
      specialize (IH Hd Hl'). unfold padDigits in *.
      set (rep := utoa 20 (digitsAcc (String c' ds') 0) "") in *.
      assert (Hn : (len rep <= len (String c' ds'))%nat).
      { apply (f_equal len) in IH. rewrite len_append, zeros_len in IH. lia. }
      replace (S (len (String c' ds')) - len rep)%nat
        with (S (len (String c' ds') - len rep)) by lia.
      cbn [zeros append]. rewrite IH. reflexivity.
  - assert (Hrep : utoa 20 (digitsAcc ds (byteSub0 c)) "" = String c ds).
    { rewrite (utoa_digits ds 20 (byteSub0 c) "" Hd) by lia.
      replace (20 - len ds)%nat with (S (19 - len ds)) by lia.
      replace (byteSub0 c) with (0 * 10 + byteSub0 c) by lia.
      rewrite utoa_step by (try assumption; lia).
      cbn [Z.eqb].
      replace (ds ++ "") with ds by (clear; induction ds; simpl; congruence).
      reflexivity. }
    unfold padDigits. rewrite Hrep.
    cbn [len String.length]. fold (len ds).
    rewrite Nat.sub_diag. reflexivity.
Qed.

Lemma digitsValue_pad (ds : string) (m : nat) :
  digitsValue (ds ++ zeros m) = digitsValue ds * 10 ^ Z.of_nat m.
Proof.
  unfold digitsValue. rewrite digitsAcc_append, digitsAcc_zeros. reflexivity.
Qed.

(** Every number below [10 ^ w] is the value of [w] digits. *)
Lemma digits_of_value (w : nat) :
  forall v, 0 <= v < 10 ^ Z.of_nat w ->
  exists ds, allDigits ds = true /\ len ds = w /\ digitsValue ds = v.
Proof.
  induction w as [|w IH]; intros v Hv.
  - exists "". simpl in Hv. repeat split. unfold digitsValue. simpl. lia.
  - rewrite Nat2Z.inj_succ, Z.pow_succ_r in Hv by lia.
    destruct (IH (v / 10)) as (ds & Hd & Hl & Hval).
    { split; [apply Z.div_pos; lia | apply Z.div_lt_upper_bound; lia]. }
    pose proof (Z.mod_pos_bound v 10 ltac:(lia)) as Hm.
    pose proof (Z.div_mod v 10 ltac:(lia)) as Hdm.
    set (c := ascii_of_N (Z.to_N (48 + v mod 10))).
    assert (Hc : isDigit c = true /\ byteSub0 c = v mod 10).
    { subst c.
      assert (Hcases : v mod 10 = 0 \/ v mod 10 = 1 \/ v mod 10 = 2 \/ v mod 10 = 3
                       \/ v mod 10 = 4 \/ v mod 10 = 5 \/ v mod 10 = 6 \/ v mod 10 = 7
                       \/ v mod 10 = 8 \/ v mod 10 = 9) by lia.
      repeat (destruct Hcases as [E|Hcases]; [rewrite E; split; reflexivity|]).
      rewrite Hcases; split; reflexivity. }
    destruct Hc as [Hc1 Hc2].
    exists (ds ++ String c "").
    rewrite allDigits_append, len_append. cbn [allDigits len String.length].
    rewrite Hd, Hc1. repeat split; [lia|].
    unfold digitsValue in *. rewrite digitsAcc_append. cbn [digitsAcc].
    rewrite Hval, Hc2. lia.
Qed.

(** A number below [10 ^ w] rendered on [w] digits: [w] digits whose value
    is the number. *)
Lemma padDigits_value (w : nat) (v : Z) :
  (1 <= w <= 20)%nat -> 0 <= v < 10 ^ Z.of_nat w ->
  allDigits (padDigits w v) = true /\ len (padDigits w v) = w
  /\ digitsValue (padDigits w v) = v.
Proof.
  intros Hw Hv.
  destruct (digits_of_value w v Hv) as (ds & Hd & Hl & Hval).
  pose proof (padDigits_digitsValue ds Hd) as E.
  rewrite Hl, Hval in E. rewrite E by lia. auto.
Qed.

(** ** Trimming zeros *)

Lemma TrimRight_zeros_only (m : nat) : TrimRight (zeros m) "0" = "".
Proof. induction m as [|m IH]; simpl; [reflexivity | rewrite IH; reflexivity]. Qed.

Lemma TrimRight_zeros (s : string) (m : nat) :
  s <> "" -> lastByte s <> Some "0"%char -> TrimRight (s ++ zeros m) "0" = s.
Proof.
  induction s as [|c s IH]; intros Hne Hlast; [congruence|].
  destruct s as [|c' s'].
  - cbn [append TrimRight]. rewrite TrimRight_zeros_only.
    cbn [lastByte] in Hlast. cbn [inCutset].
    destruct (Ascii.eqb_spec c "0") as [->|_]; [congruence | reflexivity].
  - assert (E : TrimRight (String c' s' ++ zeros m) "0" = String c' s').
    { apply IH; [discriminate | exact Hlast]. }
    change (String c (String c' s') ++ zeros m)
      with (String c (String c' s' ++ zeros m)).
    cbn [TrimRight]. rewrite E. reflexivity.
Qed.

(** What [TrimRight] removes is a run of zeros, and what it leaves does not
    end in a zero. *)
Lemma TrimRight_split (s : string) :
  exists m, s = TrimRight s "0" ++ zeros m
            /\ lastByte (TrimRight s "0") <> Some "0"%char.
Proof.
  induction s as [|c s IH].
  - exists 0%nat. simpl. split; [reflexivity | discriminate].
  - destruct IH as (m & Hs & Hlast). cbn [TrimRight].
    destruct (TrimRight s "0") as [|c' r] eqn:ET.
    + cbn [inCutset]. destruct (Ascii.eqb_spec c "0") as [->|Hc].
      * exists (S m). cbn [orb append zeros]. simpl in Hs. rewrite <- Hs.
        split; [reflexivity | discriminate].
      * exists m. cbn [orb append]. simpl in Hs. rewrite <- Hs.
        split; [reflexivity | cbn [lastByte]; congruence].
    + exists m. split; [cbn [append] in *; congruence | exact Hlast].
Qed.

Lemma TrimRight_dot (s : string) :
  TrimRight (String "." s) "0" = String "." (TrimRight s "0").
Proof.
  cbn [TrimRight]. destruct (TrimRight s "0"); reflexivity.
Qed.

Lemma fmtD0_nonneg (w : nat) (n : Z) : 0 <= n -> fmtD0 w n = padDigits w n.
Proof.
  intros H. unfold fmtD0.
  replace (n <? 0) with false by (symmetry; apply Z.ltb_ge; lia). reflexivity.
Qed.

(** The fraction [stringify] writes for the nanoseconds the fraction digits
    [ds] stand for is ["." ++ ds]. *)
Lemma fraction_printed (ds : string) :
  allDigits ds = true -> (1 <= len ds <= 9)%nat -> lastByte ds <> Some "0"%char ->
  TrimRight ("." ++ fmtD0 9 (digitsValue ds * 10 ^ (9 - Z.of_nat (len ds)))) "0"
  = "." ++ ds.
Proof.
  intros Hd Hl Hlast.
  pose proof (digitsValue_bounds ds (len ds) Hd eq_refl) as Hb.
  rewrite fmtD0_nonneg by (apply Z.mul_nonneg_nonneg; [lia | apply Z.pow_nonneg; lia]).
  replace (9 - Z.of_nat (len ds)) with (Z.of_nat (9 - len ds)) by lia.
  rewrite <- digitsValue_pad.
  replace 9%nat with (len (ds ++ zeros (9 - len ds))) at 1
    by (rewrite len_append, zeros_len; lia).
  rewrite padDigits_digitsValue.
  - change ("." ++ ds ++ zeros (9 - len ds)) with (String "." (ds ++ zeros (9 - len ds))).
    rewrite TrimRight_dot, TrimRight_zeros; [reflexivity | | exact Hlast].
    destruct ds; [simpl in Hl; lia | discriminate].
  - rewrite allDigits_append, Hd, allDigits_zeros. reflexivity.
  - rewrite len_append, zeros_len. lia.
Qed.

(** The fraction that [stringify] writes for [n] nanoseconds is a "." and
    one to nine digits, the last of them not a zero, that stand for [n]. *)
Lemma fraction_digits (n : Z) :
  0 < n < 10 ^ 9 ->
  exists f,
    TrimRight ("." ++ fmtD0 9 n) "0" = String "." f
    /\ allDigits f = true /\ (1 <= len f <= 9)%nat
    /\ lastByte f <> Some "0"%char
    /\ digitsValue f * 10 ^ (9 - Z.of_nat (len f)) = n.
Proof.
  intros Hn.
  rewrite fmtD0_nonneg by lia.
  destruct (padDigits_value 9 n ltac:(lia) ltac:(lia)) as (Hd & Hl & Hv).
  destruct (TrimRight_split (padDigits 9 n)) as (m & Hs & Hlast).
  set (f := TrimRight (padDigits 9 n) "0") in *.
  exists f.
  rewrite Hs, allDigits_append in Hd. apply andb_prop in Hd. destruct Hd as [Hdf _].
  rewrite Hs, len_append, zeros_len in Hl.
  rewrite Hs, digitsValue_pad in Hv.
  assert (Hf : (1 <= len f)%nat).
  { destruct f; [|simpl; lia]. unfold digitsValue in Hv. simpl in Hv. lia. }
  split; [|split; [exact Hdf|split; [lia|split; [exact Hlast|]]]].
  - change ("." ++ padDigits 9 n) with (String "." (padDigits 9 n)).
    apply TrimRight_dot.
  - replace (9 - Z.of_nat (len f)) with (Z.of_nat m) by lia. exact Hv.
Qed.

(** ** The calendar: [absDate] and [absClock] undo [Date] *)

Ltac euclid := Z.to_euclidean_division_equations; lia.

(** The year and the day of the year that [absDate] finds in a day count
    built from a position in the 400-year cycle. *)
Lemma absDate_cycle (n400 n100 n4 n1 yd : Z) :
  0 <= n100 <= 3 -> 0 <= n4 <= 24 -> 0 <= n1 <= 3 -> 0 <= yd <= 365 ->
  (yd = 365 -> n1 = 3 /\ (n4 <> 24 \/ n100 = 3)) ->
  let d := daysPer400Years * n400 + daysPer100Years * n100
           + daysPer4Years * n4 + 365 * n1 + yd in
  let n := d / daysPer400Years in
  let y := 400 * n in
  let d := d - daysPer400Years * n in
  let n := d / daysPer100Years in
  let n := n - Z.shiftr n 2 in
  let y := y + 100 * n in
  let d := d - daysPer100Years * n in
  let n := d / daysPer4Years in
  let y := y + 4 * n in
  let d := d - daysPer4Years * n in
  let n := d / 365 in
  let n := n - Z.shiftr n 2 in
  let y := y + n in
  let d := d - 365 * n in
  y = 400 * n400 + 100 * n100 + 4 * n4 + n1 /\ d = yd.
Proof.
  intros H100 H4 H1 Hyd Hleap. cbv zeta.
  change daysPer400Years with 146097. change daysPer100Years with 36524.
  change daysPer4Years with 1461.
  rewrite !Z.shiftr_div_pow2 by lia. change (2 ^ 2) with 4.
  assert (E1 : (146097 * n400 + 36524 * n100 + 1461 * n4 + 365 * n1 + yd) / 146097 = n400).
  { symmetry. apply Z.div_unique with (r := 36524 * n100 + 1461 * n4 + 365 * n1 + yd); lia. }
  rewrite E1.
  replace (146097 * n400 + 36524 * n100 + 1461 * n4 + 365 * n1 + yd - 146097 * n400)
    with (36524 * n100 + 1461 * n4 + 365 * n1 + yd) by lia.
  set (q := (36524 * n100 + 1461 * n4 + 365 * n1 + yd) / 36524).
  assert (E2 : q - q / 4 = n100) by (subst q; euclid).
  rewrite E2.
  replace (36524 * n100 + 1461 * n4 + 365 * n1 + yd - 36524 * n100)
    with (1461 * n4 + 365 * n1 + yd) by lia.
  assert (E3 : (1461 * n4 + 365 * n1 + yd) / 1461 = n4).
  { symmetry. apply Z.div_unique with (r := 365 * n1 + yd); lia. }
  rewrite E3.
  replace (1461 * n4 + 365 * n1 + yd - 1461 * n4) with (365 * n1 + yd) by lia.
  set (q1 := (365 * n1 + yd) / 365).
  assert (E4 : q1 - q1 / 4 = n1) by (subst q1; euclid).
  rewrite E4. lia.
Qed.

Lemma daysBefore_values :
  daysBefore 0 = 0 /\ daysBefore 1 = 31 /\ daysBefore 2 = 59 /\ daysBefore 3 = 90
  /\ daysBefore 4 = 120 /\ daysBefore 5 = 151 /\ daysBefore 6 = 181
  /\ daysBefore 7 = 212 /\ daysBefore 8 = 243 /\ daysBefore 9 = 273
  /\ daysBefore 10 = 304 /\ daysBefore 11 = 334 /\ daysBefore 12 = 365.
Proof. repeat split. Qed.

Ltac month_cases m H :=
  assert (H : m = 1 \/ m = 2 \/ m = 3 \/ m = 4 \/ m = 5 \/ m = 6 \/ m = 7
              \/ m = 8 \/ m = 9 \/ m = 10 \/ m = 11 \/ m = 12) by lia;
  repeat (destruct H as [H|H]; [subst m|]); [..|subst m].

Ltac on_cmp :=
  match goal with
  | |- context [?a =? ?b] => destruct (Z.eqb_spec a b); try (exfalso; lia)
  | |- context [?a >? ?b] => destruct (Z.gtb_spec a b); try (exfalso; lia)
  end.

Ltac on_geb :=
  match goal with
  | |- context [?a >=? ?b] => destruct (Z.geb_spec a b); try (exfalso; lia)
  end.

(** The quotient by 31 of a day of the year is one of twelve numbers. *)
Ltac on_quotient :=
  match goal with
  | |- context [?x / 31] =>
      let q := fresh "q" in
      let Eq := fresh "Eq" in
      let Hq := fresh "Hq" in
      remember (x / 31) as q eqn:Eq;
      assert (Hq : q = 0 \/ q = 1 \/ q = 2 \/ q = 3 \/ q = 4 \/ q = 5 \/ q = 6
                   \/ q = 7 \/ q = 8 \/ q = 9 \/ q = 10 \/ q = 11)
        by (subst q; euclid);
      repeat (destruct Hq as [Hq|Hq]; [rewrite Hq in *|]); [..|rewrite Hq in *]
  end.

Ltac known_daysBefore :=
  change (daysBefore 0) with 0 in *; change (daysBefore 1) with 31 in *;
  change (daysBefore 2) with 59 in *; change (daysBefore 3) with 90 in *;
  change (daysBefore 4) with 120 in *; change (daysBefore 5) with 151 in *;
  change (daysBefore 6) with 181 in *; change (daysBefore 7) with 212 in *;
  change (daysBefore 8) with 243 in *; change (daysBefore 9) with 273 in *;
  change (daysBefore 10) with 304 in *; change (daysBefore 11) with 334 in *;
  change (daysBefore 12) with 365 in *.

(** The month and the day of the month that [absDate] finds in a day of the
    year. *)
Lemma yday_month_day (year m day : Z) :
  1 <= m <= 12 -> 1 <= day <= daysIn m year ->
  let yd := daysBefore (m - 1) + (if isLeap year && (m >=? 3) then 1 else 0)
            + (day - 1) in
  (if isLeap year && (yd =? 31 + 29 - 1) then (year, 2, 29)
   else
     let day := if isLeap year && (yd >? 31 + 29 - 1) then yd - 1 else yd in
     let month := day / 31 in
     let e := daysBefore (month + 1) in
     let '(month, begin) :=
       if day >=? e then (month + 1, e) else (month, daysBefore month) in
     (year, month + 1, day - begin + 1)) = (year, m, day).
Proof.
  intros Hm Hd. unfold daysIn in Hd. change (31 + 29 - 1) with 59.
  destruct (isLeap year); month_cases m Hc;
    cbn [Z.eqb Z.geb Z.compare Pos.compare Pos.compare_cont andb Pos.eqb] in *;
    change (1 - 1) with 0 in *; change (2 - 1) with 1 in *;
    change (3 - 1) with 2 in *; change (4 - 1) with 3 in *;
    change (5 - 1) with 4 in *; change (6 - 1) with 5 in *;
    change (7 - 1) with 6 in *; change (8 - 1) with 7 in *;
    change (9 - 1) with 8 in *; change (10 - 1) with 9 in *;
    change (11 - 1) with 10 in *; change (12 - 1) with 11 in *;
    known_daysBefore;
    cbv zeta;
    repeat (on_cmp; cbn [andb]);
    try (f_equal; lia);
    on_quotient; try (exfalso; euclid);
    change (0 + 1) with 1; change (1 + 1) with 2; change (2 + 1) with 3;
    change (3 + 1) with 4; change (4 + 1) with 5; change (5 + 1) with 6;
    change (6 + 1) with 7; change (7 + 1) with 8; change (8 + 1) with 9;
    change (9 + 1) with 10; change (10 + 1) with 11; change (11 + 1) with 12;
    known_daysBefore;
    on_geb; f_equal; lia.
Qed.

(** In every year of the 400-year cycle, the leap years are the fourth
    years, but for the last of the first three centuries. *)
Lemma isLeap_cycle (year n400 n100 n4 n1 : Z) :
  0 <= n100 <= 3 -> 0 <= n4 <= 24 -> 0 <= n1 <= 3 ->
  year = 400 * n400 + 100 * n100 + 4 * n4 + n1 + absoluteZeroYear ->
  isLeap year = true <-> n1 = 3 /\ (n4 <> 24 \/ n100 = 3).
Proof.
  intros H100 H4 H1 Hy. unfold absoluteZeroYear in Hy. unfold isLeap.
  destruct (Z.eqb_spec (Z.rem year 4) 0) as [E4|E4];
    destruct (Z.eqb_spec (Z.rem year 100) 0) as [E100|E100];
    destruct (Z.eqb_spec (Z.rem year 400) 0) as [E400|E400];
    cbn [andb orb negb]; (split; [intros H | intros [H3 H']]);
    first [ discriminate H | reflexivity | subst year; euclid ].
Qed.

(** The wall clock of [Date] on fields of a real date and time is its
    arguments: [absDate] and [absClock] undo [Date]. *)
Lemma Date_fields (year month day hour min sec nsec : Z) (loc : Location) :
  absoluteZeroYear <= year -> 1 <= month <= 12 -> 1 <= day <= daysIn month year ->
  0 <= hour <= 23 -> 0 <= min <= 59 -> 0 <= sec <= 59 -> 0 <= nsec < 10 ^ 9 ->
  let t := Date year month day hour min sec nsec loc in
  absDate (absSec t) = (year, month, day)
  /\ absClock (absSec t) = (hour, min, sec).
Proof.
  intros Hy Hmo Hd Hh Hmi Hs Hn t.
  set (y0 := year - absoluteZeroYear).
  set (n400 := y0 / 400). set (y1 := y0 - 400 * n400).
  set (n100 := y1 / 100). set (y2 := y1 - 100 * n100).
  set (n4 := y2 / 4). set (n1 := y2 - 4 * n4).
  set (yd := daysBefore (month - 1)
             + (if isLeap year && (month >=? 3) then 1 else 0) + (day - 1)).
  assert (B : 0 <= n100 <= 3 /\ 0 <= n4 <= 24 /\ 0 <= n1 <= 3
              /\ year = 400 * n400 + 100 * n100 + 4 * n4 + n1 + absoluteZeroYear).
  { subst n1 n4 y2 n100 y1 n400.
    assert (H0 : 0 <= y0) by (subst y0; lia).
    assert (H1 : year = y0 + absoluteZeroYear) by (subst y0; lia).
    clearbody y0. clear - H0 H1. euclid. }
  destruct B as (B100 & B4 & B1 & Ey).
  pose proof (isLeap_cycle year n400 n100 n4 n1 B100 B4 B1 Ey) as HL.
  assert (Byd : 0 <= yd <= 365 /\ (yd = 365 -> isLeap year = true)).
  { subst yd. unfold daysIn in Hd. clear - Hmo Hd.
    destruct (isLeap year); month_cases month Hc;
      cbn [Z.eqb Z.geb Z.compare Pos.compare Pos.compare_cont andb Pos.eqb] in *;
      change (1 - 1) with 0 in *; change (2 - 1) with 1 in *;
      change (3 - 1) with 2 in *; change (4 - 1) with 3 in *;
      change (5 - 1) with 4 in *; change (6 - 1) with 5 in *;
      change (7 - 1) with 6 in *; change (8 - 1) with 7 in *;
      change (9 - 1) with 8 in *; change (10 - 1) with 9 in *;
      change (11 - 1) with 10 in *; change (12 - 1) with 11 in *;
      known_daysBefore; lia. }
  destruct Byd as (Byd & Hyd365).
  assert (Habs : absSec t
                 = (daysPer400Years * n400 + daysPer100Years * n100
                    + daysPer4Years * n4 + 365 * n1 + yd) * secondsPerDay
                   + (hour * 3600 + min * 60 + sec)).
  { subst t. unfold Date.
    rewrite (norm_in_range year (month - 1) 12) by lia. cbv beta iota.
    rewrite (norm_in_range sec nsec 1000000000) by (change (10 ^ 9) with 1000000000 in Hn; lia).
    cbv beta iota.
    rewrite (norm_in_range min sec 60) by lia. cbv beta iota.
    rewrite (norm_in_range hour min 60) by lia. cbv beta iota.
    rewrite (norm_in_range day hour 24) by lia. cbv beta iota zeta.
    unfold absSec. cbn [unixSec location].
    replace (month - 1 + 1) with month by lia.
    fold y0. fold n400. fold y1. fold n100. fold y2. fold n4. fold n1.
    unfold internalToUnix, internalToAbsolute. subst yd.
    destruct (isLeap year && (month >=? 3)); lia. }
  split.
  - unfold absDate. rewrite Habs.
    assert (E0 : ((daysPer400Years * n400 + daysPer100Years * n100
                   + daysPer4Years * n4 + 365 * n1 + yd) * secondsPerDay
                  + (hour * 3600 + min * 60 + sec)) / secondsPerDay
                 = daysPer400Years * n400 + daysPer100Years * n100
                   + daysPer4Years * n4 + 365 * n1 + yd).
    { symmetry. apply Z.div_unique with (r := hour * 3600 + min * 60 + sec);
        unfold secondsPerDay; lia. }
    rewrite E0.
    destruct (absDate_cycle n400 n100 n4 n1 yd B100 B4 B1 Byd) as [Ecy Ecd].
    { intros E. apply HL, Hyd365, E. }
    cbv zeta in Ecy, Ecd. cbv zeta. rewrite Ecy, Ecd. rewrite <- Ey.
    apply (yday_month_day year month day Hmo Hd).
  - unfold absClock. rewrite Habs. unfold secondsPerDay.
    assert (E0 : ((daysPer400Years * n400 + daysPer100Years * n100
                   + daysPer4Years * n4 + 365 * n1 + yd) * 86400
                  + (hour * 3600 + min * 60 + sec)) mod 86400
                 = hour * 3600 + min * 60 + sec).
    { symmetry. apply Z.mod_unique with
        (q := daysPer400Years * n400 + daysPer100Years * n100
              + daysPer4Years * n4 + 365 * n1 + yd); lia. }
    rewrite E0. cbv zeta.
    assert (E1 : (hour * 3600 + min * 60 + sec) / 3600 = hour)
      by (symmetry; apply Z.div_unique with (r := min * 60 + sec); lia).
    rewrite E1.
    replace (hour * 3600 + min * 60 + sec - hour * 3600) with (min * 60 + sec) by lia.
    assert (E2 : (min * 60 + sec) / 60 = min)
      by (symmetry; apply Z.div_unique with (r := sec); lia).
    rewrite E2. f_equal. lia.
Qed.

(** ** Reading a date and time and writing it again *)

Lemma digitField_inv (n : nat) (s : string) :
  digitField n s = true -> allDigits s = true /\ len s = n.
Proof.
  unfold digitField. intros H. apply andb_prop in H. destruct H as [H1 H2].
  apply Nat.eqb_eq in H2. auto.
Qed.

Lemma Format_Date (year month day hour min sec nsec : Z) (loc : Location) :
  absoluteZeroYear <= year -> realDateTime year month day hour min sec ->
  0 <= nsec < 10 ^ 9 ->
  Format (Date year month day hour min sec nsec loc)
  = appendInt year 4 ++ "-" ++ appendInt month 2 ++ "-" ++ appendInt day 2 ++ "T"
    ++ appendInt hour 2 ++ ":" ++ appendInt min 2 ++ ":" ++ appendInt sec 2.
Proof.
  intros Hy (Hmo & Hd & Hh & Hmi & Hs) Hn. unfold Format.
  destruct (Date_fields year month day hour min sec nsec loc Hy Hmo Hd Hh Hmi Hs Hn)
    as [E1 E2].
  rewrite E1, E2. reflexivity.
Qed.

Lemma appendInt_digits (n : nat) (ds : string) :
  digitField n ds = true -> (1 <= n <= 18)%nat ->
  appendInt (digitsValue ds) n = ds.
Proof.
  intros H Hn. apply digitField_inv in H. destruct H as [Hd Hl].
  pose proof (digitsValue_bounds ds n Hd Hl) as Hb. unfold appendInt.
  replace (digitsValue ds <? 0) with false by (symmetry; apply Z.ltb_ge; lia).
  rewrite <- Hl. apply padDigits_digitsValue; [exact Hd | lia].
Qed.

Lemma appendInt_neg_digits (n : nat) (ds : string) :
  digitField n ds = true -> (1 <= n <= 18)%nat -> digitsValue ds <> 0 ->
  appendInt (- digitsValue ds) n = "-" ++ ds.
Proof.
  intros H Hn H0. apply digitField_inv in H. destruct H as [Hd Hl].
  pose proof (digitsValue_bounds ds n Hd Hl) as Hb. unfold appendInt.
  replace (- digitsValue ds <? 0) with true by (symmetry; apply Z.ltb_lt; lia).
  rewrite Z.opp_involutive, <- Hl.
  rewrite padDigits_digitsValue; [reflexivity | exact Hd | lia].
Qed.

Lemma fmtD0_neg_digits (n : nat) (ds : string) :
  digitField n ds = true -> (1 <= n <= 18)%nat -> digitsValue ds <> 0 ->
  fmtD0 (S n) (- digitsValue ds) = "-" ++ ds.
Proof.
  intros H Hn H0. apply digitField_inv in H. destruct H as [Hd Hl].
  pose proof (digitsValue_bounds ds n Hd Hl) as Hb. unfold fmtD0.
  replace (- digitsValue ds <? 0) with true by (symmetry; apply Z.ltb_lt; lia).
  rewrite Z.opp_involutive. replace (S n - 1)%nat with (len ds) by lia.
  rewrite padDigits_digitsValue; [reflexivity | exact Hd | lia].
Qed.

(** What the two decoders return on a canonical fraction and a zone of
    whole hours west, and what [stringify] writes for it. *)
Lemma decodeTail_round_trip (frac tz : string) :
  canonicalFraction frac -> westHourZone tz ->
  exists (nsec : Z) (l : Location),
    decodeTail (frac ++ tz) = Ok (nsec, l)
    /\ 0 <= nsec < 10 ^ 9
    /\ fractionSuffix nsec = frac /\ zoneSuffix (zoneOffset l) = tz.
Proof.
  unfold fractionSuffix, zoneSuffix. cbv zeta.
  intros Hf Hz.
  assert (Z0 : exists l, parseTz tz = Ok l /\ startsWithDigit tz = false
            /\ (match tz with String c _ => Ascii.eqb c "." | _ => false end) = false
            /\ (if negb (zoneOffset l =? 0) then
          (if Z.quot (Z.quot (zoneOffset l) 60) 60 >? 0 then "+" else "")
          ++ fmtD0 3 (Z.quot (Z.quot (zoneOffset l) 60) 60) ++ ":"
          ++ fmtD0 2 (wrapInt (Z.quot (zoneOffset l) 60
                               - wrapInt (60 * Z.quot (Z.quot (zoneOffset l) 60) 60)))
        else "") = tz).
  { destruct Hz as [->|(hh & -> & Hh & Hv)].
    - exists UTC. repeat split.
    - pose proof (digitField_inv 2 hh Hh) as [Hd Hl].
      pose proof (parseTz_sign_digits "-" hh "00" (or_intror eq_refl) Hd Hl eq_refl eq_refl) as P.
      replace (digitsValue hh >? 14) with false in P
        by (symmetry; rewrite Z.gtb_ltb; apply Z.ltb_ge; lia).
      change (digitsValue "00") with 0 in P. cbn [Ascii.eqb Bool.eqb] in P.
      eexists. split; [exact P|]. split; [reflexivity|]. split; [reflexivity|].
      cbn [zoneOffset].
      set (v := digitsValue hh) in *.
      replace (-1 * (v * 60 + 0) * 60) with (- (v * 3600)) by lia.
      assert (Q1 : Z.quot (- (v * 3600)) 60 = - (v * 60)) by euclid.
      assert (Q2 : Z.quot (- (v * 60)) 60 = - v) by euclid.
      rewrite Q1, Q2.
      replace (- (v * 3600) =? 0) with false by (symmetry; apply Z.eqb_neq; lia).
      replace (- v >? 0) with false by (symmetry; rewrite Z.gtb_ltb; apply Z.ltb_ge; lia).
      cbn [negb].
      replace (wrapInt (- (v * 60) - wrapInt (60 * - v))) with 0
        by (rewrite (wrapInt_small (60 * - v)) by lia;
            replace (- (v * 60) - 60 * - v) with 0 by lia; reflexivity).
      subst v. rewrite (fmtD0_neg_digits 2 hh Hh) by lia. reflexivity. }
  destruct Z0 as (l & Pz & Sz & Dz & Rz).
  destruct Hf as [->|(ds & -> & Hd & Hl & Hlast)].
  - exists 0, l. cbn [append]. split.
    + unfold decodeTail. destruct tz as [|c r].
      * rewrite Pz. reflexivity.
      * rewrite Dz, Pz. reflexivity.
    + split; [lia|]. split; [reflexivity | exact Rz].
  - exists (digitsValue ds * 10 ^ (9 - Z.of_nat (len ds))), l.
    pose proof (parseFractionalSecond_value ds tz Hd Sz Hl Hlast) as Pf.
    destruct (parseFractionalSecond_inv _ _ _ Pf) as (_ & _ & _ & _ & _ & _ & _ & Hn).
    split.
    + change (("." ++ ds) ++ tz) with (String "." (ds ++ tz)).
      unfold decodeTail. cbn [Ascii.eqb Bool.eqb]. rewrite Pf. cbn [bind].
      rewrite Pz. reflexivity.
    + split; [lia|]. split; [|exact Rz].
      replace (digitsValue ds * 10 ^ (9 - Z.of_nat (len ds)) >? 0) with true
        by (symmetry; rewrite Z.gtb_ltb; apply Z.ltb_lt; lia).
      apply fraction_printed; assumption.
Qed.

Lemma append_empty_r (s : string) : s ++ "" = s.
Proof. induction s as [|c s IH]; simpl; congruence. Qed.

(** What [stringify] writes for a real date and time: the date and time,
    the fraction and the timezone. *)
Lemma stringify_Date (y mo d h mi sec ns : Z) (l : Location) :
  absoluteZeroYear <= y -> realDateTime y mo d h mi sec -> 0 <= ns < 10 ^ 9 ->
  stringify (Date y mo d h mi sec ns l)
  = (appendInt y 4 ++ "-" ++ appendInt mo 2 ++ "-" ++ appendInt d 2 ++ "T"
     ++ appendInt h 2 ++ ":" ++ appendInt mi 2 ++ ":" ++ appendInt sec 2)
    ++ fractionSuffix ns ++ zoneSuffix (zoneOffset l).
Proof.
  intros Hy Hreal Hn. unfold stringify, fractionSuffix, zoneSuffix.
  rewrite (Format_Date y mo d h mi sec ns l Hy Hreal Hn).
  destruct (Date_nanos_location y mo d h mi sec ns l Hn) as [En El].
  rewrite En, El. cbv zeta.
  set (F := appendInt y 4 ++ "-" ++ appendInt mo 2 ++ "-" ++ appendInt d 2 ++ "T"
            ++ appendInt h 2 ++ ":" ++ appendInt mi 2 ++ ":" ++ appendInt sec 2).
  destruct (ns >? 0); destruct (negb (zoneOffset l =? 0));
    try destruct (Z.quot (Z.quot (zoneOffset l) 60) 60 >? 0);
    cbn [append];
    repeat (progress (repeat rewrite append_assoc'; cbn [append]));
    repeat rewrite append_empty_r; reflexivity.
Qed.

(** A date and time in canonical form, with no timezone or with a
    timezone of whole hours west ("-01:00" to "-14:00"), is read by [Parse]
    and written back by [stringify] as the same string. *)
Theorem stringify_Parse_round_trip
    (neg : bool) (yf mof df hf mif sf frac tz : string) :
  digitField 4 yf = true -> digitField 2 mof = true -> digitField 2 df = true ->
  digitField 2 hf = true -> digitField 2 mif = true -> digitField 2 sf = true ->
  (neg = true -> digitsValue yf <> 0) ->
  realDateTime (if neg then - digitsValue yf else digitsValue yf)
    (digitsValue mof) (digitsValue df)
    (digitsValue hf) (digitsValue mif) (digitsValue sf) ->
  canonicalFraction frac -> westHourZone tz ->
  let s := (if neg then "-" else "") ++ yf ++ "-" ++ mof ++ "-" ++ df ++ "T"
           ++ hf ++ ":" ++ mif ++ ":" ++ sf ++ frac ++ tz in
  exists t, Parse s = Ok t /\ stringify t = s.
Proof.
  intros Fy Fmo Fd Fh Fmi Fs Hneg Hreal Hfrac Htz s.
  destruct (decodeTail_round_trip frac tz Hfrac Htz) as (nsec & l & Dt & Hn & Rf & Rz).
  pose proof (digitField_inv _ _ Fy) as [Dy Ly].
  pose proof (digitField_inv _ _ Fmo) as [Dmo Lmo].
  pose proof (digitField_inv _ _ Fd) as [Dd Ld].
  pose proof (digitField_inv _ _ Fh) as [Dh Lh].
  pose proof (digitField_inv _ _ Fmi) as [Dmi Lmi].
  pose proof (digitField_inv _ _ Fs) as [Ds Ls].
  pose proof (digitsValue_bounds yf 4 Dy Ly) as By.
  change (10 ^ Z.of_nat 4) with 10000 in By.
  set (Y := if neg then - digitsValue yf else digitsValue yf) in *.
  exists (Date Y (digitsValue mof) (digitsValue df) (digitsValue hf)
            (digitsValue mif) (digitsValue sf) nsec l).
  split.
  - apply Parse_fields.
    exists neg, yf, mof, df, hf, mif, sf, (frac ++ tz), (digitsValue yf),
      (digitsValue mof), (digitsValue df), (digitsValue hf), (digitsValue mif),
      (digitsValue sf), nsec, l.
    split; [reflexivity|]. split; [intros _; exact Dy|].
    split; [repeat split; assumption|].
    repeat (split; [apply ParseInt_digits; [assumption | lia]|]).
    split; [exact Dt | reflexivity].
  - assert (HY : absoluteZeroYear <= Y)
      by (unfold absoluteZeroYear; subst Y; destruct neg; lia).
    assert (EY : appendInt Y 4 = (if neg then "-" else "") ++ yf).
    { subst Y. destruct neg.
      - apply appendInt_neg_digits; [exact Fy | lia | auto].
      - apply appendInt_digits; [exact Fy | lia]. }
    rewrite (stringify_Date Y _ _ _ _ _ nsec l HY Hreal Hn).
    rewrite EY, Rf, Rz. rewrite !(appendInt_digits 2) by (try assumption; lia).
    subst s. destruct neg; cbn [append];
      repeat (progress (repeat rewrite append_assoc'; cbn [append]));
      reflexivity.
Qed.

Lemma stringify_Parse_round_trip_witness :
  exists t, Parse "2017-08-16T11:07:00.09251-02:00" = Ok t
            /\ stringify t = "2017-08-16T11:07:00.09251-02:00".
Proof.
  apply (stringify_Parse_round_trip false "2017" "08" "16" "11" "07" "00"
           ".09251" "-02:00"); try reflexivity.
  - discriminate.
  - unfold realDateTime. vm_compute. intuition discriminate.
  - right. exists "09251". repeat split; [simpl; lia | simpl; lia | discriminate].
  - right. exists "02". repeat split; vm_compute; discriminate.
Defined.

(** ** Writing a time and reading it again *)

(** Parse on six number fields and their delimiters hands the rest to the
    two decoders. *)
Lemma Parse_on_fields (neg : bool) (yf mof df hf mif sf tail : string)
    (y mo d h mi sec : Z) :
  (neg = false -> allDigits yf = true) ->
  (len yf = 4 /\ len mof = 2 /\ len df = 2
   /\ len hf = 2 /\ len mif = 2 /\ len sf = 2)%nat ->
  strconv.ParseInt yf 64 = Ok y -> strconv.ParseInt mof 64 = Ok mo ->
  strconv.ParseInt df 64 = Ok d -> strconv.ParseInt hf 64 = Ok h ->
  strconv.ParseInt mif 64 = Ok mi -> strconv.ParseInt sf 64 = Ok sec ->
  Parse ((if neg then "-" else "") ++ yf ++ "-" ++ mof ++ "-" ++ df ++ "T"
         ++ hf ++ ":" ++ mif ++ ":" ++ sf ++ tail)
  = ('(nsec, l) <- decodeTail tail ;;
     Ok (Date (if neg then - y else y) mo d h mi sec nsec l)).
Proof.
  intros Hn HL P1 P2 P3 P4 P5 P6.
  destruct (year_sign yf y (proj1 HL) P1) as [Hy1 Hy2].
  rewrite Parse_scanFrom. destruct neg.
  - cbn [append index String.get bind Ascii.eqb Bool.eqb sliceFrom len
         String.length Nat.ltb Nat.leb drop].
    pose proof (scanFrom_fields (-1) yf mof df hf mif sf tail y mo d h mi sec
                  HL P1 P2 P3 P4 P5 P6) as F.
    cbn [append] in F. rewrite F, Hy2. reflexivity.
  - specialize (Hn eq_refl).
    destruct yf as [|a r]; [destruct HL as [HL _]; discriminate HL|].
    assert (Ha : isDigit a = true) by (simpl in Hn; apply andb_prop in Hn; tauto).
    destruct (isDigit_not_sign a Ha) as [Hp Hm].
    pose proof (scanFrom_fields 1 (String a r) mof df hf mif sf tail y mo d h mi sec
                  HL P1 P2 P3 P4 P5 P6) as F.
    cbn [append] in F. cbn [append index String.get bind]. rewrite Hm, Hp.
    rewrite F, Hy1. reflexivity.
Qed.

Lemma rendered_field (w : nat) (v : Z) :
  (1 <= w <= 18)%nat -> 0 <= v < 10 ^ Z.of_nat w ->
  allDigits (padDigits w v) = true /\ len (padDigits w v) = w
  /\ strconv.ParseInt (padDigits w v) 64 = Ok v.
Proof.
  intros Hw Hv.
  destruct (padDigits_value w v ltac:(lia) Hv) as (Hd & Hl & Hval).
  repeat split; try assumption.
  rewrite ParseInt_digits by (try assumption; lia). congruence.
Qed.

Lemma appendInt_nonneg (x : Z) (w : nat) : 0 <= x -> appendInt x w = padDigits w x.
Proof.
  intros H. unfold appendInt.
  replace (x <? 0) with false by (symmetry; apply Z.ltb_ge; lia). reflexivity.
Qed.

(** Parse on the date and time that [Format] writes. *)
Lemma Parse_rendered (y mo d h mi sec : Z) (tail : string) :
  -9999 <= y <= 9999 -> 0 <= mo <= 99 -> 0 <= d <= 99 -> 0 <= h <= 99 ->
  0 <= mi <= 99 -> 0 <= sec <= 99 ->
  Parse ((appendInt y 4 ++ "-" ++ appendInt mo 2 ++ "-" ++ appendInt d 2 ++ "T"
          ++ appendInt h 2 ++ ":" ++ appendInt mi 2 ++ ":" ++ appendInt sec 2)
         ++ tail)
  = ('(nsec, l) <- decodeTail tail ;; Ok (Date y mo d h mi sec nsec l)).
Proof.
  intros Hy Hmo Hd Hh Hmi Hs.
  rewrite !(appendInt_nonneg _ 2) by lia.
  destruct (rendered_field 2 mo ltac:(lia) ltac:(simpl; lia)) as (_ & L2 & P2).
  destruct (rendered_field 2 d ltac:(lia) ltac:(simpl; lia)) as (_ & L3 & P3).
  destruct (rendered_field 2 h ltac:(lia) ltac:(simpl; lia)) as (_ & L4 & P4).
  destruct (rendered_field 2 mi ltac:(lia) ltac:(simpl; lia)) as (_ & L5 & P5).
  destruct (rendered_field 2 sec ltac:(lia) ltac:(simpl; lia)) as (_ & L6 & P6).
  set (yf := padDigits 4 (Z.abs y)).
  destruct (rendered_field 4 (Z.abs y) ltac:(lia) ltac:(simpl; lia)) as (D1 & L1 & P1).
  fold yf in D1, L1, P1.
  pose proof (Parse_on_fields (y <? 0) yf _ _ _ _ _ tail (Z.abs y) mo d h mi sec
                (fun _ => D1) (conj L1 (conj L2 (conj L3 (conj L4 (conj L5 L6)))))
                P1 P2 P3 P4 P5 P6) as F.
  assert (EY : appendInt y 4 = (if y <? 0 then "-" else "") ++ yf).
  { unfold appendInt, yf. destruct (Z.ltb_spec y 0).
    - rewrite Z.abs_neq by lia. reflexivity.
    - rewrite Z.abs_eq by lia. reflexivity. }
  assert (EV : (if y <? 0 then - Z.abs y else Z.abs y) = y)
    by (destruct (Z.ltb_spec y 0); lia).
  rewrite EV in F. rewrite <- F. f_equal. rewrite EY.
  repeat (progress (repeat rewrite append_assoc'; cbn [append])).
  reflexivity.
Qed.

Lemma daysIn_bounds (mo y : Z) : 1 <= mo <= 12 -> 28 <= daysIn mo y <= 31.
Proof.
  intros Hmo. unfold daysIn.
  destruct ((mo =? 2) && isLeap y); [lia|]. month_cases mo Hc;
    change (1 - 1) with 0 in *; change (2 - 1) with 1 in *;
    change (3 - 1) with 2 in *; change (4 - 1) with 3 in *;
    change (5 - 1) with 4 in *; change (6 - 1) with 5 in *;
    change (7 - 1) with 6 in *; change (8 - 1) with 7 in *;
    change (9 - 1) with 8 in *; change (10 - 1) with 9 in *;
    change (11 - 1) with 10 in *; change (12 - 1) with 11 in *;
    known_daysBefore; lia.
Qed.

(** The two decoders on the fraction that [stringify] writes, followed by
    something that is not a digit: the timezone decoder decides. *)
Lemma decodeTail_printed (ns : Z) (zone : string) :
  0 <= ns < 10 ^ 9 -> startsWithDigit zone = false ->
  (match zone with String c _ => Ascii.eqb c "." | _ => false end) = false ->
  decodeTail (fractionSuffix ns ++ zone) = (l <- parseTz zone ;; Ok (ns, l)).
Proof.
  intros Hn Hz Hdot. unfold fractionSuffix. destruct (Z.gtb_spec ns 0) as [Hpos|Hzero].
  - destruct (fraction_digits ns ltac:(lia)) as (f & Ef & Hd & Hl & Hlast & Hv).
    rewrite Ef. cbn [append]. unfold decodeTail. cbn [Ascii.eqb Bool.eqb].
    rewrite (parseFractionalSecond_value f zone Hd Hz Hl Hlast), Hv. reflexivity.
  - assert (ns = 0) by lia. subst ns. cbn [append]. unfold decodeTail.
    destruct zone as [|c r]; [reflexivity|]. rewrite Hdot. reflexivity.
Qed.

(** Parse on what [stringify] writes for a real date and time: the six
    fields are read back, the two decoders decide. *)
Lemma Parse_stringify_Date (y mo d h mi sec ns : Z) (l : Location) :
  -9999 <= y <= 9999 -> realDateTime y mo d h mi sec -> 0 <= ns < 10 ^ 9 ->
  Parse (stringify (Date y mo d h mi sec ns l))
  = ('(nsec, l') <- decodeTail (fractionSuffix ns ++ zoneSuffix (zoneOffset l)) ;;
     Ok (Date y mo d h mi sec nsec l')).
Proof.
  intros Hy Hreal Hn.
  rewrite stringify_Date by (try assumption; unfold absoluteZeroYear; lia).
  destruct Hreal as (Hmo & Hd & Hh & Hmi & Hs).
  pose proof (daysIn_bounds mo y Hmo) as Bd.
  apply Parse_rendered; lia.
Qed.

(** The timezone written for an offset of an hour or more east: seven
    bytes. *)
Lemma zoneSuffix_east (off : Z) :
  3600 <= off < 360000 ->
  len (zoneSuffix off) = 7%nat
  /\ exists r, zoneSuffix off = String "+" r.
Proof.
  intros Hoff. unfold zoneSuffix. cbv zeta.
  set (M := Z.quot off 60). set (H := Z.quot M 60).
  assert (BH : 1 <= H <= 99 /\ 0 <= M - 60 * H <= 59) by (subst H M; euclid).
  destruct BH as [BH BR]. clearbody H M.
  replace (off =? 0) with false by (symmetry; apply Z.eqb_neq; lia).
  replace (H >? 0) with true by (symmetry; rewrite Z.gtb_ltb; apply Z.ltb_lt; lia).
  cbn [negb]. rewrite (wrapInt_small (60 * H)) by lia.
  rewrite (wrapInt_small (M - 60 * H)) by lia.
  rewrite (fmtD0_nonneg 3 H), (fmtD0_nonneg 2 (M - 60 * H)) by lia.
  assert (B3 : 0 <= H < 10 ^ Z.of_nat 3) by (change (10 ^ Z.of_nat 3) with 1000; lia).
  assert (B2 : 0 <= M - 60 * H < 10 ^ Z.of_nat 2)
    by (change (10 ^ Z.of_nat 2) with 100; lia).
  destruct (padDigits_value 3 H ltac:(lia) B3) as (_ & L3 & _).
  destruct (padDigits_value 2 (M - 60 * H) ltac:(lia) B2) as (_ & L2 & _).
  split; [|eexists; reflexivity].
  change ("+" ++ padDigits 3 H ++ ":" ++ padDigits 2 (M - 60 * H))
    with (String "+" (padDigits 3 H ++ String ":" (padDigits 2 (M - 60 * H)))).
  cbn [len String.length].
  fold (len (padDigits 3 H ++ String ":" (padDigits 2 (M - 60 * H)))).
  rewrite len_append. cbn [len String.length].
  fold (len (padDigits 2 (M - 60 * H))). lia.
Qed.

Lemma Parse_stringify_east_error (y mo d h mi sec ns : Z) (l : Location) :
  -9999 <= y <= 9999 -> realDateTime y mo d h mi sec -> 0 <= ns < 10 ^ 9 ->
  3600 <= zoneOffset l < 360000 ->
  Parse (stringify (Date y mo d h mi sec ns l))
  = Err (errorsNew "timezone requires exactly 6 characters if not Z").
Proof.
  intros Hy Hreal Hn Hoff.
  rewrite Parse_stringify_Date by assumption.
  destruct (zoneSuffix_east _ Hoff) as (Lz & r & Ez).
  rewrite decodeTail_printed by (try assumption; rewrite Ez; reflexivity).
  unfold parseTz. rewrite Lz. reflexivity.
Qed.

(** The instant of [Date] depends on the location through its offset only. *)
Lemma Date_same_offset (y mo d h mi sec ns : Z) (l1 l2 : Location) :
  zoneOffset l1 = zoneOffset l2 ->
  unixSec (Date y mo d h mi sec ns l1) = unixSec (Date y mo d h mi sec ns l2)
  /\ nanos (Date y mo d h mi sec ns l1) = nanos (Date y mo d h mi sec ns l2).
Proof.
  intros E. unfold Date.
  destruct (norm y (mo - 1) 12) as [y' m'].
  destruct (norm sec ns 1000000000) as [sec' ns'].
  destruct (norm mi sec' 60) as [mi' sec''].
  destruct (norm h mi' 60) as [h' mi''].
  destruct (norm d h' 24) as [d' h''].
  cbn [unixSec nanos]. rewrite E. split; reflexivity.
Qed.

(** The digits at the head of a string are determined. *)
Lemma digit_prefix_unique (a : string) :
  forall b r1 r2,
    allDigits a = true -> allDigits b = true ->
    startsWithDigit r1 = false -> startsWithDigit r2 = false ->
    a ++ r1 = b ++ r2 -> a = b.
Proof.
  induction a as [|c a IH]; intros b r1 r2 Ha Hb H1 H2 E.
  - destruct b as [|c' b]; [reflexivity|]. cbn [append] in E. subst r1.
    simpl in Hb. apply andb_prop in Hb. simpl in H1. destruct Hb; congruence.
  - destruct b as [|c' b].
    + cbn [append] in E. subst r2.
      simpl in Ha. apply andb_prop in Ha. simpl in H2. destruct Ha; congruence.
    + cbn [append] in E. injection E as Ec E.
      simpl in Ha, Hb. apply andb_prop in Ha. apply andb_prop in Hb.
      f_equal; [exact Ec|]. apply (IH b r1 r2); tauto.
Qed.

Lemma lastByte_append_zero (s : string) : lastByte (s ++ "0") = Some "0"%char.
Proof.
  induction s as [|c s IH]; [reflexivity|].
  cbn [append lastByte]. destruct (s ++ "0") eqn:E; [|exact IH].
  destruct s; discriminate E.
Qed.

(** The two decoders refuse a timezone that begins with the digit zero,
    after the fraction that [stringify] writes. *)
Lemma decodeTail_zero_zone (ns : Z) (r : string) :
  0 <= ns < 10 ^ 9 ->
  isOk (decodeTail (fractionSuffix ns ++ String "0" (String "0" (String "0" (String ":" r)))))
  = false.
Proof.
  intros Hn. unfold fractionSuffix. destruct (Z.gtb_spec ns 0) as [Hpos|Hzero].
  - destruct (fraction_digits ns ltac:(lia)) as (f & Ef & Hd & Hl & Hlast & Hv).
    rewrite Ef. cbn [append]. unfold decodeTail. cbn [Ascii.eqb Bool.eqb].
    destruct (parseFractionalSecond (f ++ String "0" (String "0" (String "0" (String ":" r)))))
      as [[n rest]|e|p] eqn:P; [|reflexivity|reflexivity].
    exfalso.
    destruct (parseFractionalSecond_inv _ _ _ P)
      as (ds & E & Dds & _ & Lds & Srest & _).
    assert (Eds : (f ++ "000") = ds).
    { apply (digit_prefix_unique (f ++ "000") ds (String ":" r) rest).
      - rewrite allDigits_append, Hd. reflexivity.
      - exact Dds.
      - reflexivity.
      - exact Srest.
      - rewrite <- E, append_assoc'. reflexivity. }
    apply Lds. rewrite <- Eds.
    change "000" with ("00" ++ "0"). rewrite <- append_assoc'.
    apply lastByte_append_zero.
  - cbn [append]. unfold decodeTail. cbn [Ascii.eqb Bool.eqb].
    destruct (parseTz (String "0" (String "0" (String "0" (String ":" r))))) eqn:P;
      [|reflexivity|reflexivity].
    exfalso. assert (Hs : isOk (parseTz (String "0" (String "0" (String "0" (String ":" r))))) = true)
      by (rewrite P; reflexivity).
    apply parseTz_ok_shape in Hs.
    destruct r as [|x [|z [|w r]]]; discriminate Hs.
Qed.

(** The timezone written for an offset of less than an hour, east or west:
    the hours are "000", without a sign. *)
Lemma zoneSuffix_minutes (off : Z) :
  -3600 < off < 3600 -> off <> 0 ->
  exists r, zoneSuffix off = String "0" (String "0" (String "0" (String ":" r))).
Proof.
  intros Hoff Hne. unfold zoneSuffix. cbv zeta.
  replace (off =? 0) with false by (symmetry; apply Z.eqb_neq; lia).
  assert (EH : Z.quot (Z.quot off 60) 60 = 0) by euclid.
  rewrite EH. cbn [negb]. eexists. reflexivity.
Qed.

(** The timezone written for an offset of an hour or more west. *)
Lemma zoneSuffix_west (off : Z) :
  -360000 < off <= -3600 ->
  exists H R,
    1 <= H <= 99 /\ 0 <= R <= 59 /\ -60 < off + 3600 * H + 60 * R <= 0
    /\ zoneSuffix off = "-" ++ padDigits 2 H ++ ":" ++ fmtD0 2 (- R).
Proof.
  intros Hoff. unfold zoneSuffix. cbv zeta.
  set (M := Z.quot off 60). set (H := Z.quot M 60).
  assert (B : 1 <= - H <= 99 /\ 0 <= - (M - 60 * H) <= 59
              /\ -60 < off + 3600 * - H + 60 * - (M - 60 * H) <= 0)
    by (subst H M; euclid).
  destruct B as (BH & BR & Boff). clearbody H M.
  exists (- H), (- (M - 60 * H)).
  split; [exact BH|]. split; [exact BR|]. split; [exact Boff|].
  replace (off =? 0) with false by (symmetry; apply Z.eqb_neq; lia).
  replace (H >? 0) with false by (symmetry; rewrite Z.gtb_ltb; apply Z.ltb_ge; lia).
  cbn [negb]. rewrite (wrapInt_small (60 * H)) by lia.
  rewrite (wrapInt_small (M - 60 * H)) by lia.
  rewrite Z.opp_involutive.
  unfold fmtD0 at 1.
  replace (H <? 0) with true by (symmetry; apply Z.ltb_lt; lia).
  reflexivity.
Qed.

Lemma utoa_len (fuel : nat) :
  forall u acc, (len acc + 1 <= len (utoa (S fuel) u acc))%nat.
Proof.
  induction fuel as [|fuel IH]; intros u acc.
  - cbn [utoa]. destruct (u <? 10); cbn [len String.length]; fold (len acc); lia.
  - change (utoa (S (S fuel)) u acc)
      with (if u <? 10 then String (ascii_of_N (Z.to_N (48 + u mod 10))) acc
            else utoa (S fuel) (u / 10)
                   (String (ascii_of_N (Z.to_N (48 + u mod 10))) acc)).
    destruct (u <? 10).
    + cbn [len String.length]. fold (len acc). lia.
    + pose proof (IH (u / 10) (String (ascii_of_N (Z.to_N (48 + u mod 10))) acc)) as L.
      cbn [len String.length] in L. fold (len acc) in L. lia.
Qed.

(** A negative number of two digits written by "%02d" takes three bytes. *)
Lemma fmtD0_two_digits_neg (R : Z) : 10 <= R -> (3 <= len (fmtD0 2 (- R)))%nat.
Proof.
  intros HR. unfold fmtD0.
  replace (- R <? 0) with true by (symmetry; apply Z.ltb_lt; lia).
  rewrite Z.opp_involutive. cbn [append len String.length].
  fold (len (padDigits (2 - 1) R)). unfold padDigits. rewrite len_append.
  change (utoa 20 R "") with
    (if R <? 10 then String (ascii_of_N (Z.to_N (48 + R mod 10))) ""
     else utoa 19 (R / 10) (String (ascii_of_N (Z.to_N (48 + R mod 10))) "")).
  replace (R <? 10) with false by (symmetry; apply Z.ltb_ge; lia).
  pose proof (utoa_len 18 (R / 10) (String (ascii_of_N (Z.to_N (48 + R mod 10))) "")) as L.
  cbn [len String.length] in L. lia.
Qed.

(** What the timezone decoder makes of a timezone written for an offset
    west: it refuses minutes on two digits and hours above 14, and it reads
    minutes on one digit, written with their minus sign, as minutes east. *)
Lemma parseTz_west_zone (H R : Z) (l : Location) :
  1 <= H <= 99 -> 0 <= R <= 59 ->
  parseTz ("-" ++ padDigits 2 H ++ ":" ++ fmtD0 2 (- R)) = Ok l ->
  H <= 14 /\ R <= 9 /\ zoneOffset l = - 3600 * H + 60 * R.
Proof.
  intros BH BR P.
  assert (B2 : 0 <= H < 10 ^ Z.of_nat 2) by (change (10 ^ Z.of_nat 2) with 100; lia).
  destruct (rendered_field 2 H ltac:(lia) B2) as (Dh & Lh & Ph).
  destruct (padDigits 2 H) as [|a [|b [|c hh]]]; try discriminate Lh.
  cbn [append] in P.
  destruct (Z_le_gt_dec R 9) as [R9|R10].
  - assert (Hc : R = 0 \/ R = 1 \/ R = 2 \/ R = 3 \/ R = 4 \/ R = 5 \/ R = 6
                 \/ R = 7 \/ R = 8 \/ R = 9) by lia.
    assert (Hm : exists c1 c2, fmtD0 2 (- R) = String c1 (String c2 "")
                 /\ strconv.ParseInt (String c1 (String c2 "")) 64 = Ok (- R)).
    { repeat (destruct Hc as [Hc|Hc];
              [subst R; eexists; eexists; split; reflexivity|]).
      subst R; eexists; eexists; split; reflexivity. }
    destruct Hm as (c1 & c2 & Em & Pm). rewrite Em in P.
    destruct (parseTz_six _ _ _ _ _ _ l P)
      as (sign & hz & mz & Hsign & _ & Phz & Hhz & Pmz & El).
    destruct Hsign as [[Hs _]|[_ Hs]]; [discriminate Hs|].
    assert (hz = H) by congruence. assert (mz = - R) by congruence. subst hz mz sign.
    rewrite tz_offset_value in El by lia. subst l. cbn [zoneOffset].
    repeat split; lia.
  - exfalso. pose proof (fmtD0_two_digits_neg R ltac:(lia)) as L.
    unfold parseTz in P.
    cbn [len String.length] in P. fold (len (fmtD0 2 (- R))) in P.
    destruct (len (fmtD0 2 (- R))) as [|[|[|n]]]; try lia; discriminate P.
Qed.

(** Written with no offset or with a whole number of hours west, a real
    date and time is read back with the same offset. *)
Lemma Parse_stringify_west_ok (y mo d h mi sec ns : Z) (l : Location) :
  -9999 <= y <= 9999 -> realDateTime y mo d h mi sec -> 0 <= ns < 10 ^ 9 ->
  (zoneOffset l = 0 \/ exists k, 1 <= k <= 14 /\ zoneOffset l = -3600 * k) ->
  exists l', Parse (stringify (Date y mo d h mi sec ns l))
             = Ok (Date y mo d h mi sec ns l')
             /\ zoneOffset l' = zoneOffset l.
Proof.
  intros Hy Hreal Hn Hoff.
  rewrite Parse_stringify_Date by assumption.
  destruct Hoff as [E0|(k & Hk & Ek)].
  - exists UTC. rewrite E0. change (zoneSuffix 0) with "".
    rewrite decodeTail_printed by (try assumption; reflexivity).
    split; reflexivity.
  - destruct (zoneSuffix_west (zoneOffset l) ltac:(lia))
      as (H & R & BH & BR & Boff & Ez).
    assert (H = k /\ R = 0) by lia. destruct H0; subst H R.
    rewrite Ez. change (fmtD0 2 (- 0)) with "00".
    assert (B2 : 0 <= k < 10 ^ Z.of_nat 2) by (change (10 ^ Z.of_nat 2) with 100; lia).
    destruct (padDigits_value 2 k ltac:(lia) B2) as (Dk & Lk & Vk).
    pose proof (parseTz_sign_digits "-" (padDigits 2 k) "00" (or_intror eq_refl)
                  Dk Lk eq_refl eq_refl) as P.
    rewrite Vk in P.
    replace (k >? 14) with false in P
      by (symmetry; rewrite Z.gtb_ltb; apply Z.ltb_ge; lia).
    change (digitsValue "00") with 0 in P. cbn [Ascii.eqb Bool.eqb] in P.
    eexists.
    rewrite decodeTail_printed by (try assumption; reflexivity).
    change ("-" ++ padDigits 2 k ++ ":" ++ "00")
      with (String "-" (padDigits 2 k ++ ":" ++ "00")).
    rewrite P. cbn [bind]. split; [reflexivity|]. cbn [zoneOffset]. lia.
Qed.

(** What [stringify] writes for a real date and time is read back by
    [Parse] as the same instant with the same offset exactly when the
    offset is zero or a whole number of hours west, 1 to 14. *)
Theorem Parse_stringify_same_time (y mo d h mi sec ns : Z) (l : Location) :
  -9999 <= y <= 9999 -> realDateTime y mo d h mi sec -> 0 <= ns < 10 ^ 9 ->
  -360000 < zoneOffset l < 360000 ->
  let t := Date y mo d h mi sec ns l in
  (exists t', Parse (stringify t) = Ok t'
              /\ unixSec t' = unixSec t /\ nanos t' = nanos t
              /\ zoneOffset (location t') = zoneOffset (location t))
  <-> (zoneOffset l = 0 \/ exists k, 1 <= k <= 14 /\ zoneOffset l = -3600 * k).
Proof.
  intros Hy Hreal Hn Hoff t. subst t.
  destruct (Date_nanos_location y mo d h mi sec ns l Hn) as [_ El].
  rewrite El. split.
  - intros (t' & P & _ & _ & Eo).
    destruct (Z.eq_dec (zoneOffset l) 0) as [E0|Hne]; [left; exact E0|]. right.
    destruct (Z_le_gt_dec 3600 (zoneOffset l)) as [Heast|Hlt].
    { rewrite Parse_stringify_east_error in P by (try assumption; lia).
      discriminate P. }
    rewrite Parse_stringify_Date in P by assumption.
    destruct (Z_le_gt_dec (zoneOffset l) (-3600)) as [Hwest|Hmin].
    + destruct (zoneSuffix_west (zoneOffset l) ltac:(lia))
        as (H & R & BH & BR & Boff & Ez).
      rewrite Ez in P.
      rewrite decodeTail_printed in P by (try assumption; reflexivity).
      destruct (parseTz ("-" ++ padDigits 2 H ++ ":" ++ fmtD0 2 (- R)))
        as [l'|e|p] eqn:Pz; try discriminate P.
      cbn [bind] in P. injection P as P. subst t'.
      destruct (Date_nanos_location y mo d h mi sec ns l' Hn) as [_ El'].
      rewrite El' in Eo.
      destruct (parseTz_west_zone H R l' BH BR Pz) as (H14 & R9 & Eo').
      exists H. lia.
    + exfalso.
      destruct (zoneSuffix_minutes (zoneOffset l) ltac:(lia) Hne) as (r & Ez).
      rewrite Ez in P.
      pose proof (decodeTail_zero_zone ns r Hn) as Z0.
      destruct (decodeTail (fractionSuffix ns
                  ++ String "0" (String "0" (String "0" (String ":" r)))));
        [discriminate Z0 | discriminate P | discriminate P].
  - intros Hz.
    destruct (Parse_stringify_west_ok y mo d h mi sec ns l Hy Hreal Hn Hz) as (l' & P & Eo).
    exists (Date y mo d h mi sec ns l'). split; [exact P|].
    destruct (Date_same_offset y mo d h mi sec ns l' l Eo) as [Eu En].
    destruct (Date_nanos_location y mo d h mi sec ns l' Hn) as [_ El'].
    rewrite El'. auto.
Qed.

Lemma Parse_stringify_same_time_witness :
  let t := Date 2017 8 16 11 7 0 92510000 (FixedZone "-02:00" (-7200)) in
  (exists t', Parse (stringify t) = Ok t'
              /\ unixSec t' = unixSec t /\ nanos t' = nanos t
              /\ zoneOffset (location t') = zoneOffset (location t))
  <-> (zoneOffset (FixedZone "-02:00" (-7200)) = 0
       \/ exists k, 1 <= k <= 14
                    /\ zoneOffset (FixedZone "-02:00" (-7200)) = -3600 * k).
Proof.
  apply (Parse_stringify_same_time 2017 8 16 11 7 0 92510000
           (FixedZone "-02:00" (-7200))).
  - lia.
  - unfold realDateTime. vm_compute. intuition discriminate.
  - lia.
  - simpl. lia.
Defined.

(** ** The pattern, run on an input of the lexical form *)

Lemma restAt_0 (s : string) : restAt s 0 s.
Proof. exists "". split; reflexivity. Qed.

Lemma restAt_step (s : string) (i : nat) (c : ascii) (r : string) :
  restAt s i (String c r) -> restAt s (S i) r.
Proof.
  intros (pre & E & L). exists (pre ++ String c ""). split.
  - rewrite append_assoc'. exact E.
  - rewrite len_append, L. simpl. lia.
Qed.

Lemma restAt_app (s : string) (i : nat) (x r : string) :
  restAt s i (x ++ r) -> restAt s (i + len x) r.
Proof.
  intros (pre & E & L). exists (pre ++ x). split.
  - rewrite append_assoc'. exact E.
  - rewrite len_append, L. reflexivity.
Qed.

Lemma restAt_len (s : string) (i : nat) (r : string) :
  restAt s i r -> len s = (i + len r)%nat.
Proof. intros (pre & E & L). subst s. rewrite len_append, L. reflexivity. Qed.

Lemma get_append (pre r : string) : String.get (len pre) (pre ++ r) = String.get 0 r.
Proof. induction pre as [|c pre IH]; [reflexivity | exact IH]. Qed.

Lemma restAt_get (s : string) (i : nat) (c : ascii) (r : string) :
  restAt s i (String c r) -> String.get i s = Some c.
Proof. intros (pre & E & L). subst s i. apply get_append. Qed.

Lemma restAt_get_end (s : string) (i : nat) :
  restAt s i "" -> String.get i s = None.
Proof. intros (pre & E & L). subst s i. apply get_append. Qed.

Lemma substring_prefix (x r : string) : substring 0 (len x) (x ++ r) = x.
Proof.
  induction x as [|c x IH]; [destruct r; reflexivity|].
  cbn [len String.length append substring]. fold (len x). rewrite IH. reflexivity.
Qed.

Lemma restAt_substring (s : string) (i : nat) (x r : string) :
  restAt s i (x ++ r) -> substring i (len x) s = x.
Proof.
  intros (pre & E & L). subst s i.
  induction pre as [|c pre IH]; [exact (substring_prefix x r) | exact IH].
Qed.

(** One byte of the input against a literal, a digit or a set. *)
Lemma run_Lit_at (s : string) (i : nat) (c : ascii) (r : string) cs k :
  restAt s i (String c r) -> run (Lit c) s i cs k = k (S i) cs.
Proof.
  intros H. cbn [run]. unfold class. rewrite (restAt_get _ _ _ _ H).
  rewrite Ascii.eqb_refl. reflexivity.
Qed.

Lemma run_Lit_miss (s : string) (i : nat) (c c' : ascii) (r : string) cs k :
  restAt s i (String c' r) -> Ascii.eqb c c' = false -> run (Lit c) s i cs k = None.
Proof.
  intros H E. cbn [run]. unfold class. rewrite (restAt_get _ _ _ _ H), E. reflexivity.
Qed.

Lemma run_Lit_end (s : string) (i : nat) (c : ascii) cs k :
  restAt s i "" -> run (Lit c) s i cs k = None.
Proof.
  intros H. cbn [run]. unfold class. rewrite (restAt_get_end _ _ H). reflexivity.
Qed.

Lemma run_Digit_at (s : string) (i : nat) (c : ascii) (r : string) cs k :
  restAt s i (String c r) -> isDigit c = true -> run Digit s i cs k = k (S i) cs.
Proof.
  intros H E. cbn [run]. unfold class. rewrite (restAt_get _ _ _ _ H), E. reflexivity.
Qed.

Lemma run_Digit_stop (s : string) (i : nat) (r : string) cs k :
  restAt s i r -> startsWithDigit r = false -> run Digit s i cs k = None.
Proof.
  intros H E. cbn [run]. unfold class. destruct r as [|c r].
  - rewrite (restAt_get_end _ _ H). reflexivity.
  - rewrite (restAt_get _ _ _ _ H). simpl in E. rewrite E. reflexivity.
Qed.

Lemma run_OneOf_at (s : string) (i : nat) (set : string) (c : ascii) (r : string) cs k :
  restAt s i (String c r) -> inCutset c set = true ->
  run (OneOf set) s i cs k = k (S i) cs.
Proof.
  intros H E. cbn [run]. unfold class. rewrite (restAt_get _ _ _ _ H), E. reflexivity.
Qed.

Lemma run_OneOf_miss (s : string) (i : nat) (set : string) (c : ascii) (r : string) cs k :
  restAt s i (String c r) -> inCutset c set = false ->
  run (OneOf set) s i cs k = None.
Proof.
  intros H E. cbn [run]. unfold class. rewrite (restAt_get _ _ _ _ H), E. reflexivity.
Qed.

Lemma run_OneOf_end (s : string) (i : nat) (set : string) cs k :
  restAt s i "" -> run (OneOf set) s i cs k = None.
Proof.
  intros H. cbn [run]. unfold class. rewrite (restAt_get_end _ _ H). reflexivity.
Qed.

Lemma run_EndText_at (s : string) (i : nat) cs k :
  restAt s i "" -> run EndText s i cs k = k i cs.
Proof.
  intros H. cbn [run]. rewrite (restAt_len _ _ _ H). cbn [len String.length].
  rewrite Nat.add_0_r, Nat.eqb_refl. reflexivity.
Qed.

Lemma run_Cat (r1 r2 : regex) s i cs k :
  run (Cat r1 r2) s i cs k = run r1 s i cs (fun j cs' => run r2 s j cs' k).
Proof. reflexivity. Qed.

Lemma run_Cap (g : nat) (r : regex) s i cs k :
  run (Cap g r) s i cs k = run r s i cs (fun j cs' => k j ((g, (i, j)) :: cs')).
Proof. reflexivity. Qed.

Lemma run_Times_0 (r : regex) s i cs k : run (Times 0 r) s i cs k = k i cs.
Proof. reflexivity. Qed.

Lemma run_Times_S (n : nat) (r : regex) s i cs k :
  run (Times (S n) r) s i cs k
  = run r s i cs (fun j cs' => run (Times n r) s j cs' k).
Proof. reflexivity. Qed.

Lemma run_Quest_taken (r : regex) s i cs k m :
  run r s i cs k = Some m -> run (Quest r) s i cs k = Some m.
Proof. intros H. cbn [run]. rewrite H. reflexivity. Qed.

Lemma run_Quest_skip (r : regex) s i cs k :
  run r s i cs k = None -> run (Quest r) s i cs k = k i cs.
Proof. intros H. cbn [run]. rewrite H. reflexivity. Qed.

Lemma run_Alt_left (r1 r2 : regex) s i cs k m :
  run r1 s i cs k = Some m -> run (Alt r1 r2) s i cs k = Some m.
Proof. intros H. cbn [run]. rewrite H. reflexivity. Qed.

Lemma run_Alt_right (r1 r2 : regex) s i cs k :
  run r1 s i cs k = None -> run (Alt r1 r2) s i cs k = run r2 s i cs k.
Proof. intros H. cbn [run]. rewrite H. reflexivity. Qed.

(** The greedy loop of "\d+" on a run of digits that ends where something
    else or nothing follows: the match continues after the last digit. *)
Lemma plus_loop_digits (s : string) (k : nat -> spans -> option spans) (ds : string) :
  forall (fuel i : nat) (cs : spans) (m : spans) (r : string),
    restAt s i (ds ++ r) -> allDigits ds = true -> ds <> "" ->
    startsWithDigit r = false -> (len ds <= fuel)%nat ->
    k (i + len ds)%nat cs = Some m ->
    (fix loop (fuel : nat) (i : nat) (cs : spans) {struct fuel} : option spans :=
       match fuel with
       | O => None
       | S fuel' =>
           run Digit s i cs (fun j cs' =>
             match (if (i <? j)%nat then loop fuel' j cs' else None) with
             | Some m => Some m
             | None => k j cs'
             end)
       end) fuel i cs = Some m.
Proof.
  induction ds as [|c ds IH]; intros fuel i cs m r Hat Hd Hne Hr Hf Hk; [congruence|].
  simpl in Hd. apply andb_prop in Hd. destruct Hd as [Hc Hd].
  cbn [len String.length] in Hf, Hk. fold (len ds) in Hf, Hk.
  destruct fuel as [|fuel]; [lia|].
  cbn [append] in Hat.
  rewrite (run_Digit_at s i c (ds ++ r) cs _ Hat Hc).
  replace (i <? S i)%nat with true by (symmetry; apply Nat.ltb_lt; lia).
  pose proof (restAt_step _ _ _ _ Hat) as Hat'.
  destruct ds as [|c' ds'].
  - cbn [append] in Hat'. cbn [len String.length] in Hk.
    replace (i + 1)%nat with (S i) in Hk by lia.
    destruct fuel as [|fuel]; [exact Hk|].
    rewrite (run_Digit_stop s (S i) r cs _ Hat' Hr). exact Hk.
  - rewrite (IH fuel (S i) cs m r Hat' Hd); [reflexivity | discriminate | exact Hr | | ].
    + cbn [len String.length] in *. lia.
    + replace (S i + len (String c' ds'))%nat with (i + S (len (String c' ds')))%nat by lia.
      exact Hk.
Qed.

Lemma run_Plus_digits (s : string) (i : nat) (ds r : string) cs k m :
  restAt s i (ds ++ r) -> allDigits ds = true -> ds <> "" ->
  startsWithDigit r = false ->
  k (i + len ds)%nat cs = Some m ->
  run (Plus Digit) s i cs k = Some m.
Proof.
  intros Hat Hd Hne Hr Hk.
  apply (plus_loop_digits s k ds (S (len s)) i cs m r Hat Hd Hne Hr); [|exact Hk].
  rewrite (restAt_len _ _ _ Hat), len_append. lia.
Qed.

Lemma run_BeginText s cs k : run BeginText s 0 cs k = k 0%nat cs.
Proof. reflexivity. Qed.

Lemma search_first (fuel : nat) (r : regex) (s : string) (m : spans) :
  run r s 0 [] (fun j cs => Some ((O, (0%nat, j)) :: cs)) = Some m ->
  search fuel r s 0 = Some m.
Proof. intros H. destruct fuel; cbn [search]; rewrite H; reflexivity. Qed.

Lemma restAt_substring_span (s : string) (i j : nat) (x r : string) :
  restAt s i (x ++ r) -> j = (i + len x)%nat -> substring i (j - i) s = x.
Proof.
  intros H ->. replace (i + len x - i)%nat with (len x) by lia.
  exact (restAt_substring s i x r H).
Qed.

Lemma digitField_2 (x : string) :
  digitField 2 x = true ->
  exists a b, x = String a (String b "") /\ isDigit a = true /\ isDigit b = true.
Proof.
  intros H. apply digitField_inv in H. destruct H as [Hd Hl].
  destruct x as [|a [|b [|c x]]]; try discriminate Hl.
  simpl in Hd. rewrite andb_true_r in Hd. apply andb_prop in Hd.
  exists a, b. tauto.
Qed.

Lemma digitField_4 (x : string) :
  digitField 4 x = true ->
  exists a b c d, x = String a (String b (String c (String d "")))
                  /\ isDigit a = true /\ isDigit b = true
                  /\ isDigit c = true /\ isDigit d = true.
Proof.
  intros H. apply digitField_inv in H. destruct H as [Hd Hl].
  destruct x as [|a [|b [|c [|d [|e x]]]]]; try discriminate Hl.
  simpl in Hd. rewrite andb_true_r in Hd.
  apply andb_prop in Hd. destruct Hd as [Ha Hd].
  apply andb_prop in Hd. destruct Hd as [Hb Hd].
  apply andb_prop in Hd. destruct Hd as [Hc Hd].
  exists a, b, c, d. tauto.
Qed.

(** The facts [restAt s (i+1) r], [restAt s (i+2) r'], ... that follow from
    one of them, byte by byte. *)
Ltac rest_steps H :=
  lazymatch type of H with
  | restAt ?s ?i (String ?c ?r) =>
      let H' := fresh "R" in
      pose proof (restAt_step s i c r H) as H'; rest_steps H'
  | _ => idtac
  end.

(** The pattern run on the bytes whose place is known, up to the next
    choice. *)
Ltac re_run :=
  repeat first
    [ rewrite run_Cat | rewrite run_Cap | rewrite run_Times_S | rewrite run_Times_0
    | rewrite run_BeginText
    | erewrite run_Lit_at by eassumption
    | erewrite run_Digit_at by (first [eassumption | assumption])
    | erewrite run_OneOf_at by (first [eassumption | reflexivity])
    | erewrite run_EndText_at by eassumption
    | progress cbv beta ].

Lemma substring_all (s : string) : substring 0 (len s) s = s.
Proof.
  pose proof (substring_prefix s "") as H. rewrite append_empty_r in H. exact H.
Qed.

Ltac digit_not_sign :=
  rewrite Ascii.eqb_sym; apply isDigit_not_sign; assumption.

(** One group of the match: the bytes between its two indices. *)
Ltac group_text :=
  first
    [ reflexivity
    | eapply restAt_substring_span;
        [cbn [append]; eassumption | cbn [len String.length]; lia]
    | match goal with
      | H : restAt ?s ?j "" |- substring 0 (?j - 0) ?s = ?s =>
          rewrite Nat.sub_0_r;
          replace j with (len s)
            by (rewrite (restAt_len _ _ _ H); cbn [len String.length]; lia);
          apply substring_all
      end ].

(** On an input of the lexical form the pattern matches, and its groups are
    the fields of the input. *)
Lemma FindStringSubmatch_lexical
    (sgn yf mof df hf mif sf frac ds tz tzh tzm : string) :
  sgn = "" \/ sgn = "-" ->
  digitField 4 yf = true -> digitField 2 mof = true -> digitField 2 df = true ->
  digitField 2 hf = true -> digitField 2 mif = true -> digitField 2 sf = true ->
  (frac = "" /\ ds = "") \/ (frac = "." ++ ds /\ allDigits ds = true /\ ds <> "") ->
  (tz = "" /\ tzh = "" /\ tzm = "") \/ (tz = "Z" /\ tzh = "" /\ tzm = "")
  \/ (exists sg hh, (sg = "+"%char \/ sg = "-"%char)
                    /\ digitField 2 hh = true /\ digitField 2 tzm = true
                    /\ tzh = String sg hh /\ tz = tzh ++ ":" ++ tzm) ->
  let s := sgn ++ yf ++ "-" ++ mof ++ "-" ++ df ++ "T" ++ hf ++ ":" ++ mif ++ ":"
           ++ sf ++ frac ++ tz in
  FindStringSubmatch xmlDateTimeRe s
  = [s; sgn ++ yf; mof; df; hf; mif; sf; ds; tzh; tzm].
Proof.
  intros Hsgn Fy Fmo Fd Fh Fmi Fs Hfrac Htz s.
  destruct (digitField_4 _ Fy) as (y1 & y2 & y3 & y4 & -> & Dy1 & Dy2 & Dy3 & Dy4).
  destruct (digitField_2 _ Fmo) as (m1 & m2 & -> & Dm1 & Dm2).
  destruct (digitField_2 _ Fd) as (d1 & d2 & -> & Dd1 & Dd2).
  destruct (digitField_2 _ Fh) as (h1 & h2 & -> & Dh1 & Dh2).
  destruct (digitField_2 _ Fmi) as (i1 & i2 & -> & Di1 & Di2).
  destruct (digitField_2 _ Fs) as (s1 & s2 & -> & Ds1 & Ds2).
  assert (Hzone : (tz = "" /\ tzh = "" /\ tzm = "") \/ (tz = "Z" /\ tzh = "" /\ tzm = "")
            \/ (exists sg z1 z2 z3 z4,
                  (sg = "+"%char \/ sg = "-"%char)
                  /\ isDigit z1 = true /\ isDigit z2 = true
                  /\ isDigit z3 = true /\ isDigit z4 = true
                  /\ tzh = String sg (String z1 (String z2 ""))
                  /\ tzm = String z3 (String z4 "")
                  /\ tz = String sg (String z1 (String z2 (String ":"
                            (String z3 (String z4 ""))))))).
  { destruct Htz as [H|[H|(sg & hh & Hsg & Fhh & Fmm & -> & ->)]]; [tauto | tauto |].
    right; right.
    destruct (digitField_2 _ Fhh) as (z1 & z2 & -> & Dz1 & Dz2).
    destruct (digitField_2 _ Fmm) as (z3 & z4 & -> & Dz3 & Dz4).
    exists sg, z1, z2, z3, z4. repeat split; assumption. }
  clear Htz Fy Fmo Fd Fh Fmi Fs.
  remember s as s' eqn:Es. subst s.
  pose proof (restAt_0 s') as R0. rewrite Es in R0 at 2. clear Es.
  unfold FindStringSubmatch.
  destruct Hsgn as [-> | ->];
    destruct Hfrac as [[-> ->] | (-> & Dds & Nds)];
    destruct Hzone as [(-> & -> & ->) | [(-> & -> & ->)
      | (sg & z1 & z2 & z3 & z4 & Hsg & Dz1 & Dz2 & Dz3 & Dz4 & -> & -> & ->)]];
    cbn [append] in R0; rest_steps R0;
    try match goal with
        | H : restAt s' _ (ds ++ _) |- _ =>
            let Rz := fresh "Rz" in
            pose proof (restAt_app _ _ _ _ H) as Rz; rest_steps Rz
        end.
  all: erewrite search_first;
    [ | unfold xmlDateTimeRe; cbn [cats]; re_run;
        first [ apply run_Quest_taken; progress re_run
              | rewrite run_Quest_skip
                  by (eapply run_Lit_miss; [eassumption | digit_not_sign]); re_run ];
        first [ apply run_Quest_taken; re_run;
                eapply run_Plus_digits;
                  [eassumption | assumption | assumption
                  | first [reflexivity | destruct Hsg; subst sg; reflexivity] |];
                re_run
              | rewrite run_Quest_skip
                  by (rewrite run_Cat;
                      first [ eapply run_Lit_end; eassumption
                            | eapply run_Lit_miss; [eassumption | ];
                              first [reflexivity | destruct Hsg; subst sg; reflexivity] ]);
                re_run ];
        first [ apply run_Quest_taken; apply run_Alt_left;
                destruct Hsg; subst sg; re_run; reflexivity
              | apply run_Quest_taken;
                rewrite run_Alt_right
                  by (re_run; eapply run_OneOf_miss; [eassumption | reflexivity]);
                re_run; reflexivity
              | rewrite run_Quest_skip
                  by (rewrite run_Alt_right
                        by (re_run; eapply run_OneOf_end; eassumption);
                      eapply run_Lit_end; eassumption);
                re_run; reflexivity ] ].
  all: cbn [map seq NumSubexp xmlDateTimeRe cats Nat.max span Nat.eqb].
  all: repeat match goal with
       | |- (_ :: _) = (_ :: _) => apply (f_equal2 (@cons string))
       end; try reflexivity.
  all: cbn [append]; group_text.
Qed.

(** ** strconv.ParseInt on a sign and digits, and on 32 bits *)

Lemma parseUintLoop_digits32 (ds : string) :
  forall (i : nat) (n : Z),
    allDigits ds = true -> (i + len ds <= 9)%nat -> 0 <= n < 10 ^ Z.of_nat i ->
    strconv.parseUintLoop ds n (2 ^ 32 - 1) = (digitsAcc ds n, None).
Proof.
  induction ds as [|c ds IH]; intros i n Hd Hi Hn; [reflexivity|].
  simpl in Hd. apply andb_prop in Hd. destruct Hd as [Hc Hd].
  pose proof (isDigit_range c Hc) as Hr.
  simpl len in Hi.
  assert (Hp : 10 ^ Z.of_nat i <= 10 ^ 8) by (apply Z.pow_le_mono_r; lia).
  cbn [strconv.parseUintLoop digitsAcc]. rewrite Hc.
  replace (n >=? (2 ^ 64 - 1) / 10 + 1) with false
    by (symmetry; rewrite Z.geb_leb; apply Z.leb_gt;
        change ((2 ^ 64 - 1) / 10 + 1) with 1844674407370955162; lia).
  cbv zeta.
  rewrite (Z.mod_small (n * 10 + byteSub0 c)) by lia.
  replace (n * 10 + byteSub0 c <? n * 10) with false
    by (symmetry; apply Z.ltb_ge; lia).
  replace (n * 10 + byteSub0 c >? 2 ^ 32 - 1) with false
    by (symmetry; rewrite Z.gtb_ltb; apply Z.ltb_ge; lia).
  cbn [orb].
  apply (IH (S i)); [exact Hd | lia | ].
  rewrite Nat2Z.inj_succ, Z.pow_succ_r by lia. lia.
Qed.

(** ParseInt on digits behind an optional sign, on 64 and on 32 bits. *)
Lemma ParseInt_signed (bits : Z) (sg : string) (ds : string) :
  bits = 64 \/ bits = 32 ->
  sg = "" \/ sg = "+" \/ sg = "-" ->
  allDigits ds = true -> (1 <= len ds <= 9)%nat ->
  strconv.ParseInt (sg ++ ds) bits
  = Ok (if String.eqb sg "-" then - digitsValue ds else digitsValue ds).
Proof.
  intros Hbits Hsg Hd Hl.
  pose proof (digitsValue_bounds ds (len ds) Hd eq_refl) as Hb.
  assert (Hp9 : 10 ^ Z.of_nat (len ds) <= 10 ^ 9) by (apply Z.pow_le_mono_r; lia).
  assert (HU : strconv.ParseUint ds bits = (digitsValue ds, None)).
  { unfold strconv.ParseUint. destruct ds as [|c ds]; [simpl in Hl; lia|].
    destruct Hbits as [-> | ->].
    - apply (parseUintLoop_digits (String c ds) 0 0 Hd); simpl in *; lia.
    - apply (parseUintLoop_digits32 (String c ds) 0 0 Hd); simpl in *; lia. }
  assert (Hcut : 2 ^ 31 <= 2 ^ (bits - 1))
    by (destruct Hbits as [-> | ->]; [change (2 ^ (64 - 1)) with (2 ^ 63) | change (2 ^ (32 - 1)) with (2 ^ 31)]; lia).
  destruct Hsg as [-> | [-> | ->]]; cbn [append String.eqb Ascii.eqb Bool.eqb].
  - destruct ds as [|c ds]; [simpl in Hl; lia|].
    pose proof Hd as Hd'. simpl in Hd'. apply andb_prop in Hd'. destruct Hd' as [Hc _].
    destruct (isDigit_not_sign c Hc) as [Hp Hm].
    unfold strconv.ParseInt. rewrite Hp, Hm, HU. cbn [negb andb].
    replace (digitsValue (String c ds) >=? 2 ^ (bits - 1)) with false
      by (symmetry; rewrite Z.geb_leb; apply Z.leb_gt; lia).
    reflexivity.
  - unfold strconv.ParseInt. cbn [Ascii.eqb Bool.eqb]. rewrite HU. cbn [negb andb].
    replace (digitsValue ds >=? 2 ^ (bits - 1)) with false
      by (symmetry; rewrite Z.geb_leb; apply Z.leb_gt; lia).
    reflexivity.
  - unfold strconv.ParseInt. cbn [Ascii.eqb Bool.eqb]. rewrite HU. cbn [negb andb].
    replace (digitsValue ds >? 2 ^ (bits - 1)) with false
      by (symmetry; rewrite Z.gtb_ltb; apply Z.ltb_ge; lia).
    reflexivity.
Qed.

(** ** The fraction decoder does not look behind the digits *)

Lemma fracLoop_rest (ds : string) :
  forall (rest : string) (i : nat) (ld n : Z),
    startsWithDigit rest = false ->
    fracLoop (ds ++ rest) i ld n = fracLoop ds i ld n.
Proof.
  induction ds as [|c ds IH]; intros rest i ld n Hr.
  - cbn [append]. rewrite fracLoop_stop by (left; exact Hr). reflexivity.
  - cbn [append fracLoop]. destruct ((i <? 10)%nat && isDigit c); [|reflexivity].
    apply IH. exact Hr.
Qed.

(** The fraction decoder on digits followed by something that is not a
    digit: what it does on the digits alone, with the rest handed back. *)
Lemma parseFractionalSecond_rest (ds rest : string) :
  allDigits ds = true -> startsWithDigit rest = false ->
  parseFractionalSecond (ds ++ rest)
  = match parseFractionalSecond ds with
    | Ok (n, _) => Ok (n, rest)
    | Err e => Err e
    | Panic p => Panic p
    end.
Proof.
  intros Hd Hr.
  destruct (parseFractionalSecond ds) as [[n r]|e|p] eqn:P.
  - destruct (parseFractionalSecond_inv _ _ _ P)
      as (ds0 & E & D0 & L0 & Last0 & Sr & En & _).
    assert (r = "").
    { rewrite E, allDigits_append in Hd. apply andb_prop in Hd. destruct Hd as [_ Hd].
      destruct r as [|c r]; [reflexivity|]. simpl in Hd, Sr.
      apply andb_prop in Hd. destruct Hd; congruence. }
    subst r. rewrite append_empty_r in E. subst ds0.
    rewrite (parseFractionalSecond_value ds rest D0 Hr L0 Last0), En. reflexivity.
  - unfold parseFractionalSecond in *. rewrite fracLoop_rest by exact Hr.
    pose proof (fracLoop_index ds 0 0 0) as Hi.
    destruct (fracLoop ds 0 0 0) as [[i ld] n]. cbn [fst] in Hi.
    destruct (i =? 0)%nat; [exact P|].
    destruct (ld =? 0); [exact P|].
    unfold sliceFrom in *. rewrite len_append.
    replace (len ds + len rest <? i)%nat with false by (symmetry; apply Nat.ltb_ge; lia).
    replace (len ds <? i)%nat with false in P by (symmetry; apply Nat.ltb_ge; lia).
    cbn [bind] in *.
    destruct (9 <? i)%nat; [exact P|].
    destruct (i <? 9)%nat; discriminate P.
  - pose proof (parseFractionalSecond_no_panic ds) as N. rewrite P in N. discriminate N.
Qed.

(** ** The pattern parser and the strict scanner on the lexical form *)

Ltac field_facts :=
  repeat match goal with
  | H : digitField _ _ = true |- _ =>
      let D := fresh "D" in let L := fresh "L" in
      pose proof (digitField_inv _ _ H) as [D L]; clear H
  end.

(** ParseRe on a date and time of the lexical form without a numeric
    timezone. *)
Lemma ParseRe_lexical_utc (neg : bool) (yf mof df hf mif sf frac ds tz : string) :
  digitField 4 yf = true -> digitField 2 mof = true -> digitField 2 df = true ->
  digitField 2 hf = true -> digitField 2 mif = true -> digitField 2 sf = true ->
  lexicalFraction frac ds -> tz = "" \/ tz = "Z" ->
  ParseRe ((if neg then "-" else "") ++ yf ++ "-" ++ mof ++ "-" ++ df ++ "T"
           ++ hf ++ ":" ++ mif ++ ":" ++ sf ++ frac ++ tz)
  = (ns <- (if nonEmpty ds then '(n, _) <- parseFractionalSecond ds ;; Ok n
            else Ok 0) ;;
     Ok (Date (if neg then - digitsValue yf else digitsValue yf)
           (digitsValue mof) (digitsValue df)
           (digitsValue hf) (digitsValue mif) (digitsValue sf) ns UTC)).
Proof.
  intros Fy Fmo Fd Fh Fmi Fs Hfrac Htz.
  assert (Hsgn : (if neg then "-" else "") = "" \/ (if neg then "-" else "") = "-")
    by (destruct neg; auto).
  unfold ParseRe.
  rewrite (FindStringSubmatch_lexical _ yf mof df hf mif sf frac ds tz "" ""
             Hsgn Fy Fmo Fd Fh Fmi Fs Hfrac)
    by (destruct Htz; [left | right; left]; auto).
  cbn [List.length Nat.eqb reFields subAt nth_error bind reZoneGuard Nat.leb].
  field_facts.
  rewrite (ParseInt_signed 64 (if neg then "-" else "") yf)
    by first [ left; reflexivity | destruct neg; [right; right | left]; reflexivity
             | assumption | lia ].
  rewrite !ParseInt_digits by (try assumption; lia).
  replace ((if neg then "-" else "") =? "-")%string with neg by (destruct neg; reflexivity).
  cbn [bind subAt nth_error]. change (nonEmpty "") with false.
  destruct (nonEmpty ds); cbn [bind];
    [destruct (parseFractionalSecond ds) as [[n r]|e|p]; cbn [bind]|]; reflexivity.
Qed.

(** ParseRe on a date and time of the lexical form with a numeric timezone:
    the sign is read with the hours. *)
Lemma ParseRe_lexical_zone (neg : bool) (yf mof df hf mif sf frac ds : string)
    (sg : ascii) (hh mm : string) :
  digitField 4 yf = true -> digitField 2 mof = true -> digitField 2 df = true ->
  digitField 2 hf = true -> digitField 2 mif = true -> digitField 2 sf = true ->
  lexicalFraction frac ds ->
  sg = "+"%char \/ sg = "-"%char -> digitField 2 hh = true -> digitField 2 mm = true ->
  ParseRe ((if neg then "-" else "") ++ yf ++ "-" ++ mof ++ "-" ++ df ++ "T"
           ++ hf ++ ":" ++ mif ++ ":" ++ sf ++ frac ++ String sg (hh ++ ":" ++ mm))
  = (ns <- (if nonEmpty ds then '(n, _) <- parseFractionalSecond ds ;; Ok n
            else Ok 0) ;;
     let tmh := if Ascii.eqb sg "-" then - digitsValue hh else digitsValue hh in
     if tmh >? 14 then Err (errorsNew "max timezone hour is 14")
     else Ok (Date (if neg then - digitsValue yf else digitsValue yf)
                (digitsValue mof) (digitsValue df)
                (digitsValue hf) (digitsValue mif) (digitsValue sf) ns
                (FixedZone "" ((tmh * 60 + digitsValue mm) * 60)))).
Proof.
  intros Fy Fmo Fd Fh Fmi Fs Hfrac Hsg Fhh Fmm.
  assert (Hsgn : (if neg then "-" else "") = "" \/ (if neg then "-" else "") = "-")
    by (destruct neg; auto).
  unfold ParseRe.
  rewrite (FindStringSubmatch_lexical _ yf mof df hf mif sf frac ds
             (String sg (hh ++ ":" ++ mm)) (String sg hh) mm
             Hsgn Fy Fmo Fd Fh Fmi Fs Hfrac)
    by (right; right; exists sg, hh; repeat split; assumption).
  cbn [List.length Nat.eqb reFields subAt nth_error bind reZoneGuard Nat.leb].
  field_facts.
  rewrite (ParseInt_signed 64 (if neg then "-" else "") yf)
    by first [ left; reflexivity | destruct neg; [right; right | left]; reflexivity
             | assumption | lia ].
  rewrite !ParseInt_digits by (try assumption; lia).
  assert (Ph : strconv.ParseInt (String sg hh) 32
               = Ok (if Ascii.eqb sg "-" then - digitsValue hh else digitsValue hh)).
  { destruct Hsg as [-> | ->].
    - apply (ParseInt_signed 32 "+" hh); first [right; reflexivity | right; left; reflexivity | assumption | lia].
    - apply (ParseInt_signed 32 "-" hh); first [right; reflexivity | right; right; reflexivity | assumption | lia]. }
  assert (Pm : strconv.ParseInt mm 32 = Ok (digitsValue mm)).
  { apply (ParseInt_signed 32 "" mm); first [right; reflexivity | left; reflexivity | assumption | lia]. }
  rewrite Ph, Pm.
  pose proof (digitsValue_bounds hh 2 ltac:(assumption) ltac:(assumption)) as Bh.
  pose proof (digitsValue_bounds mm 2 ltac:(assumption) ltac:(assumption)) as Bm.
  change (10 ^ Z.of_nat 2) with 100 in Bh, Bm.
  set (tmh := if Ascii.eqb sg "-" then - digitsValue hh else digitsValue hh).
  assert (Bt : -100 < tmh < 100) by (subst tmh; destruct (Ascii.eqb sg "-"); lia).
  assert (Ew : wrapInt (wrapInt (wrapInt (tmh * 60) + digitsValue mm) * 60)
               = (tmh * 60 + digitsValue mm) * 60).
  { rewrite (wrapInt_small (tmh * 60)) by lia.
    rewrite (wrapInt_small (tmh * 60 + digitsValue mm)) by lia.
    apply wrapInt_small. lia. }
  rewrite Ew.
  replace ((if neg then "-" else "") =? "-")%string with neg by (destruct neg; reflexivity).
  cbn [bind subAt nth_error]. change (nonEmpty (String sg hh)) with true.
  destruct (nonEmpty ds); cbn [bind];
    [destruct (parseFractionalSecond ds) as [[n r]|e|p]; cbn [bind]|];
    try reflexivity; destruct (tmh >? 14); reflexivity.
Qed.

(** Parse on a date and time of the lexical form: the fraction is decoded
    as by ParseRe, the timezone by parseTz. *)
Lemma Parse_lexical (neg : bool) (yf mof df hf mif sf frac ds tz : string) :
  digitField 4 yf = true -> digitField 2 mof = true -> digitField 2 df = true ->
  digitField 2 hf = true -> digitField 2 mif = true -> digitField 2 sf = true ->
  lexicalFraction frac ds -> startsWithDigit tz = false ->
  (match tz with String c _ => Ascii.eqb c "." | _ => false end) = false ->
  Parse ((if neg then "-" else "") ++ yf ++ "-" ++ mof ++ "-" ++ df ++ "T"
         ++ hf ++ ":" ++ mif ++ ":" ++ sf ++ frac ++ tz)
  = (ns <- (if nonEmpty ds then '(n, _) <- parseFractionalSecond ds ;; Ok n
            else Ok 0) ;;
     l <- parseTz tz ;;
     Ok (Date (if neg then - digitsValue yf else digitsValue yf)
           (digitsValue mof) (digitsValue df)
           (digitsValue hf) (digitsValue mif) (digitsValue sf) ns l)).
Proof.
  intros Fy Fmo Fd Fh Fmi Fs Hfrac Hz Hdot. field_facts.
  rewrite (Parse_on_fields neg yf mof df hf mif sf (frac ++ tz)
             (digitsValue yf) (digitsValue mof) (digitsValue df)
             (digitsValue hf) (digitsValue mif) (digitsValue sf))
    by first [ intros _; assumption | repeat split; assumption
             | apply ParseInt_digits; [assumption | lia] ].
  destruct Hfrac as [[-> ->] | (-> & Dds & Nds)].
  - cbn [append nonEmpty String.eqb negb bind]. unfold decodeTail.
    destruct tz as [|c r].
    + destruct (parseTz ""); reflexivity.
    + rewrite Hdot. destruct (parseTz (String c r)); reflexivity.
  - replace (nonEmpty ds) with true
      by (destruct ds; [congruence | reflexivity]).
    change (("." ++ ds) ++ tz) with (String "." (ds ++ tz)).
    unfold decodeTail. cbn [Ascii.eqb Bool.eqb].
    rewrite (parseFractionalSecond_rest ds tz Dds Hz).
    destruct (parseFractionalSecond ds) as [[n r]|e|p]; cbn [bind]; try reflexivity.
    destruct (parseTz tz); reflexivity.
Qed.

Lemma agree_same_fields (y mo d h mi sec ns : Z) (l1 l2 : Location) :
  0 <= ns < 10 ^ 9 -> zoneOffset l1 = zoneOffset l2 ->
  agree (Ok (Date y mo d h mi sec ns l1)) (Ok (Date y mo d h mi sec ns l2)).
Proof.
  intros Hn E. cbn [agree].
  destruct (Date_same_offset y mo d h mi sec ns l1 l2 E) as [Eu En].
  destruct (Date_nanos_location y mo d h mi sec ns l1 Hn) as [_ E1].
  destruct (Date_nanos_location y mo d h mi sec ns l2 Hn) as [_ E2].
  rewrite E1, E2. auto.
Qed.

(** The nanoseconds of the two parsers: none, or what the fraction decoder
    returns, an error or a number below 10^9. *)
Lemma fraction_cases (ds : string) :
  (exists e, (if nonEmpty ds then '(n, _) <- parseFractionalSecond ds ;; Ok n
              else Ok 0) = Err e)
  \/ (exists ns, (if nonEmpty ds then '(n, _) <- parseFractionalSecond ds ;; Ok n
                  else Ok 0) = Ok ns /\ 0 <= ns < 10 ^ 9).
Proof.
  destruct (nonEmpty ds).
  - destruct (parseFractionalSecond ds) as [[n r]|e|p] eqn:P; cbn [bind].
    + right. exists n. split; [reflexivity|].
      destruct (parseFractionalSecond_inv _ _ _ P) as (_ & _ & _ & _ & _ & _ & _ & B). lia.
    + left. exists e. reflexivity.
    + pose proof (parseFractionalSecond_no_panic ds) as N. rewrite P in N. discriminate N.
  - right. exists 0. split; [reflexivity | lia].
Qed.

(** On a date and time of the lexical form (fields of digits, a fraction
    of any number of digits) with no timezone, "Z", an offset east, or
    whole hours west up to fourteen, Parse and ParseRe return the same
    error, or times with the same instant, nanoseconds and offset. *)
Theorem Parse_ParseRe_agree (neg : bool) (yf mof df hf mif sf frac ds tz : string) :
  digitField 4 yf = true -> digitField 2 mof = true -> digitField 2 df = true ->
  digitField 2 hf = true -> digitField 2 mif = true -> digitField 2 sf = true ->
  lexicalFraction frac ds -> commonZone tz ->
  let s := (if neg then "-" else "") ++ yf ++ "-" ++ mof ++ "-" ++ df ++ "T"
           ++ hf ++ ":" ++ mif ++ ":" ++ sf ++ frac ++ tz in
  agree (Parse s) (ParseRe s).
Proof.
  intros Fy Fmo Fd Fh Fmi Fs Hfrac Htz s. subst s.
  destruct Htz as [-> | [-> | (hh & mm & Fhh & Fmm & Hz)]].
  - rewrite (Parse_lexical neg yf mof df hf mif sf frac ds "") by (assumption || reflexivity).
    rewrite (ParseRe_lexical_utc neg yf mof df hf mif sf frac ds "") by (assumption || auto).
    destruct (fraction_cases ds) as [(e & ->) | (ns & -> & Hn)]; cbn [bind parseTz len String.length].
    + reflexivity.
    + apply agree_same_fields; [exact Hn | reflexivity].
  - rewrite (Parse_lexical neg yf mof df hf mif sf frac ds "Z") by (assumption || reflexivity).
    rewrite (ParseRe_lexical_utc neg yf mof df hf mif sf frac ds "Z") by (assumption || auto).
    destruct (fraction_cases ds) as [(e & ->) | (ns & -> & Hn)]; cbn [bind].
    + reflexivity.
    + apply agree_same_fields; [exact Hn | reflexivity].
  - pose proof (digitField_inv _ _ Fhh) as [Dh Lh].
    pose proof (digitField_inv _ _ Fmm) as [Dm Lm].
    pose proof (digitsValue_bounds hh 2 Dh Lh) as Bh.
    pose proof (digitsValue_bounds mm 2 Dm Lm) as Bm.
    change (10 ^ Z.of_nat 2) with 100 in Bh, Bm.
    destruct Hz as [-> | (-> & H14 & Hm0)].
    + change ("+" ++ hh ++ ":" ++ mm) with (String "+" (hh ++ ":" ++ mm)).
      rewrite (Parse_lexical neg yf mof df hf mif sf frac ds _) by (assumption || reflexivity).
      rewrite (ParseRe_lexical_zone neg yf mof df hf mif sf frac ds "+" hh mm)
        by (assumption || auto).
      rewrite (parseTz_sign_digits "+" hh mm (or_introl eq_refl) Dh Lh Dm Lm).
      cbn [Ascii.eqb Bool.eqb]. cbv zeta.
      destruct (fraction_cases ds) as [(e & ->) | (ns & -> & Hn)]; cbn [bind].
      * reflexivity.
      * destruct (digitsValue hh >? 14); cbn [bind]; [reflexivity|].
        apply agree_same_fields; [exact Hn | cbn [zoneOffset]; lia].
    + change ("-" ++ hh ++ ":" ++ mm) with (String "-" (hh ++ ":" ++ mm)).
      rewrite (Parse_lexical neg yf mof df hf mif sf frac ds _) by (assumption || reflexivity).
      rewrite (ParseRe_lexical_zone neg yf mof df hf mif sf frac ds "-" hh mm)
        by (assumption || auto).
      rewrite (parseTz_sign_digits "-" hh mm (or_intror eq_refl) Dh Lh Dm Lm).
      cbn [Ascii.eqb Bool.eqb]. cbv zeta.
      replace (digitsValue hh >? 14) with false
        by (symmetry; rewrite Z.gtb_ltb; apply Z.ltb_ge; lia).
      replace (- digitsValue hh >? 14) with false
        by (symmetry; rewrite Z.gtb_ltb; apply Z.ltb_ge; lia).
      destruct (fraction_cases ds) as [(e & ->) | (ns & -> & Hn)]; cbn [bind].
      * reflexivity.
      * apply agree_same_fields; [exact Hn | cbn [zoneOffset]; lia].
Qed.

Lemma Parse_ParseRe_agree_witness :
  agree (Parse "2017-08-16T13:07:00.09251+02:00")
        (ParseRe "2017-08-16T13:07:00.09251+02:00").
Proof.
  apply (Parse_ParseRe_agree false "2017" "08" "16" "13" "07" "00"
           ".09251" "09251" "+02:00"); try reflexivity.
  - right. repeat split; discriminate.
  - right; right. exists "02", "00". repeat split. left. reflexivity.
Defined.

(** A canonical fraction is of the lexical form, and its digits are
    accepted. *)
Lemma canonicalFraction_lexical (frac : string) :
  canonicalFraction frac ->
  exists ds ns,
    lexicalFraction frac ds /\ 0 <= ns < 10 ^ 9
    /\ (if nonEmpty ds then '(n, _) <- parseFractionalSecond ds ;; Ok n else Ok 0)
       = Ok ns.
Proof.
  intros [-> | (ds & -> & Hd & Hl & Hlast)].
  - exists "", 0. split; [left; auto|]. split; [lia | reflexivity].
  - pose proof (parseFractionalSecond_value ds "" Hd eq_refl Hl Hlast) as P.
    rewrite append_empty_r in P.
    destruct (parseFractionalSecond_inv _ _ _ P) as (_ & _ & _ & _ & _ & _ & _ & B).
    exists ds, (digitsValue ds * 10 ^ (9 - Z.of_nat (len ds))).
    split; [right; repeat split; [exact Hd | destruct ds; [simpl in Hl; lia | discriminate]]|].
    split; [lia|].
    replace (nonEmpty ds) with true by (destruct ds; [simpl in Hl; lia | reflexivity]).
    rewrite P. reflexivity.
Qed.

(** On a date and time with a canonical fraction and an offset west,
    "-hh:mm": ParseRe accepts whatever the hour and returns the offset
    mm - 60*hh minutes, the sign applied to the hours only; Parse returns
    -(60*hh + mm) minutes, and refuses an hour above 14. *)
Theorem ParseRe_west_offset (neg : bool) (yf mof df hf mif sf frac hh mm : string) :
  digitField 4 yf = true -> digitField 2 mof = true -> digitField 2 df = true ->
  digitField 2 hf = true -> digitField 2 mif = true -> digitField 2 sf = true ->
  canonicalFraction frac -> digitField 2 hh = true -> digitField 2 mm = true ->
  let s := (if neg then "-" else "") ++ yf ++ "-" ++ mof ++ "-" ++ df ++ "T"
           ++ hf ++ ":" ++ mif ++ ":" ++ sf ++ frac ++ "-" ++ hh ++ ":" ++ mm in
  (exists t, ParseRe s = Ok t
             /\ zoneOffset (location t) = (digitsValue mm - 60 * digitsValue hh) * 60)
  /\ (digitsValue hh <= 14 ->
      exists t, Parse s = Ok t
                /\ zoneOffset (location t)
                   = - (60 * digitsValue hh + digitsValue mm) * 60)
  /\ (14 < digitsValue hh -> Parse s = Err (errorsNew "max timezone hour is 14")).
Proof.
  intros Fy Fmo Fd Fh Fmi Fs Hfrac Fhh Fmm s. subst s.
  destruct (canonicalFraction_lexical frac Hfrac) as (ds & ns & Hlex & Hn & EF).
  pose proof (digitField_inv _ _ Fhh) as [Dh Lh].
  pose proof (digitField_inv _ _ Fmm) as [Dm Lm].
  pose proof (digitsValue_bounds hh 2 Dh Lh) as Bh.
  pose proof (digitsValue_bounds mm 2 Dm Lm) as Bm.
  change (10 ^ Z.of_nat 2) with 100 in Bh, Bm.
  change ("-" ++ hh ++ ":" ++ mm) with (String "-" (hh ++ ":" ++ mm)).
  rewrite (Parse_lexical neg yf mof df hf mif sf frac ds _) by (assumption || reflexivity).
  rewrite (ParseRe_lexical_zone neg yf mof df hf mif sf frac ds "-" hh mm)
    by (assumption || auto).
  rewrite (parseTz_sign_digits "-" hh mm (or_intror eq_refl) Dh Lh Dm Lm).
  rewrite EF. cbn [Ascii.eqb Bool.eqb bind]. cbv zeta.
  replace (- digitsValue hh >? 14) with false
    by (symmetry; rewrite Z.gtb_ltb; apply Z.ltb_ge; lia).
  split; [|split].
  - eexists. split; [reflexivity|].
    match goal with
    | |- zoneOffset (location (Date ?y ?mo ?d ?h ?mi ?sec ?n ?l)) = _ =>
        destruct (Date_nanos_location y mo d h mi sec n l Hn) as [_ El]
    end.
    rewrite El. cbn [zoneOffset]. lia.
  - intros H14.
    replace (digitsValue hh >? 14) with false
      by (symmetry; rewrite Z.gtb_ltb; apply Z.ltb_ge; lia).
    cbn [bind]. eexists. split; [reflexivity|].
    match goal with
    | |- zoneOffset (location (Date ?y ?mo ?d ?h ?mi ?sec ?n ?l)) = _ =>
        destruct (Date_nanos_location y mo d h mi sec n l Hn) as [_ El]
    end.
    rewrite El. cbn [zoneOffset]. lia.
  - intros H14.
    replace (digitsValue hh >? 14) with true
      by (symmetry; rewrite Z.gtb_ltb; apply Z.ltb_lt; lia).
    reflexivity.
Qed.

Lemma ParseRe_west_offset_witness :
  let s := "2017-08-16T13:07:00.09251-02:30" in
  (exists t, ParseRe s = Ok t /\ zoneOffset (location t) = (30 - 60 * 2) * 60)
  /\ (2 <= 14 ->
      exists t, Parse s = Ok t /\ zoneOffset (location t) = - (60 * 2 + 30) * 60)
  /\ (14 < 2 -> Parse s = Err (errorsNew "max timezone hour is 14")).
Proof.
  apply (ParseRe_west_offset false "2017" "08" "16" "13" "07" "00" ".09251" "02" "30");
    try reflexivity.
  right. exists "09251". repeat split; [simpl; lia | simpl; lia | discriminate].
Defined.

(** ** What the pattern can match *)

Lemma restAt_cases (s : string) (i : nat) (rest : string) :
  restAt s i rest ->
  match rest with
  | String c _ => String.get i s = Some c
  | EmptyString => String.get i s = None
  end.
Proof.
  intros H. destruct rest as [|c r].
  - exact (restAt_get_end _ _ H).
  - exact (restAt_get _ _ _ _ H).
Qed.

Lemma class_sound (p : ascii -> bool) (s : string) (i : nat) cs k m rest :
  class p s i cs k = Some m -> restAt s i rest ->
  exists c rest', rest = String c rest' /\ p c = true /\ k (S i) cs = Some m.
Proof.
  intros H Hat. unfold class in H. pose proof (restAt_cases _ _ _ Hat) as G.
  destruct rest as [|c r]; rewrite G in H; [discriminate H|].
  destruct (p c) eqn:E; [|discriminate H].
  exists c, r. auto.
Qed.

(** A successful run of a pattern took some text and went on behind it. *)
Lemma run_sound (r : regex) :
  forall s i cs k m rest,
    run r s i cs k = Some m -> restAt s i rest ->
    exists x rest' cs',
      rest = x ++ rest' /\ matches r s i x /\ k (i + len x)%nat cs' = Some m.
Proof.
  induction r as [ | c | | set | r1 IH1 r2 IH2 | r1 IH1 r2 IH2 | r1 IH1 | r1 IH1
                 | n r1 IH1 | g r1 IH1 | | ];
    intros s i cs k m rest H Hat.
  - exists "", rest, cs. cbn [run] in H. cbn [len String.length matches append].
    rewrite Nat.add_0_r. auto.
  - cbn [run] in H. destruct (class_sound _ _ _ _ _ _ _ H Hat) as (c' & r' & -> & E & Hk).
    apply Ascii.eqb_eq in E. subst c'.
    exists (String c ""), r', cs. cbn [len String.length matches append].
    replace (i + 1)%nat with (S i) by lia. auto.
  - cbn [run] in H. destruct (class_sound _ _ _ _ _ _ _ H Hat) as (c' & r' & -> & E & Hk).
    exists (String c' ""), r', cs. cbn [len String.length matches append].
    replace (i + 1)%nat with (S i) by lia. eauto.
  - cbn [run] in H. destruct (class_sound _ _ _ _ _ _ _ H Hat) as (c' & r' & -> & E & Hk).
    exists (String c' ""), r', cs. cbn [len String.length matches append].
    replace (i + 1)%nat with (S i) by lia. eauto.
  - cbn [run] in H.
    destruct (IH1 _ _ _ _ _ _ H Hat) as (x1 & rest1 & cs1 & -> & M1 & H1).
    pose proof (restAt_app _ _ _ _ Hat) as Hat1.
    destruct (IH2 _ _ _ _ _ _ H1 Hat1) as (x2 & rest2 & cs2 & -> & M2 & H2).
    exists (x1 ++ x2), rest2, cs2. split; [symmetry; apply append_assoc'|].
    split; [cbn [matches]; eauto|].
    rewrite len_append, Nat.add_assoc. exact H2.
  - cbn [run] in H. destruct (run r1 s i cs k) as [m1|] eqn:E1.
    + injection H as ->.
      destruct (IH1 _ _ _ _ _ _ E1 Hat) as (x & rest' & cs' & ? & ? & ?).
      exists x, rest', cs'. cbn [matches]. auto.
    + destruct (IH2 _ _ _ _ _ _ H Hat) as (x & rest' & cs' & ? & ? & ?).
      exists x, rest', cs'. cbn [matches]. auto.
  - cbn [run] in H. destruct (run r1 s i cs k) as [m1|] eqn:E1.
    + injection H as ->.
      destruct (IH1 _ _ _ _ _ _ E1 Hat) as (x & rest' & cs' & ? & ? & ?).
      exists x, rest', cs'. cbn [matches]. auto.
    + exists "", rest, cs. cbn [len String.length matches append].
      rewrite Nat.add_0_r. auto.
  - assert (L : forall fuel i cs rest,
               (fix loop (fuel : nat) (i : nat) (cs : spans) {struct fuel}
                  : option spans :=
                  match fuel with
                  | O => None
                  | S fuel' =>
                      run r1 s i cs (fun j cs' =>
                        match (if (i <? j)%nat then loop fuel' j cs' else None) with
                        | Some m => Some m
                        | None => k j cs'
                        end)
                  end) fuel i cs = Some m ->
               restAt s i rest ->
               exists x rest' cs',
                 rest = x ++ rest' /\ matches (Plus r1) s i x
                 /\ k (i + len x)%nat cs' = Some m).
    { clear i cs rest H Hat.
      induction fuel as [|fuel IHf]; intros i cs rest H Hat; [discriminate H|].
      destruct (IH1 _ _ _ _ _ _ H Hat) as (x1 & rest1 & cs1 & -> & M1 & H1).
      cbv beta in H1.
      pose proof (restAt_app _ _ _ _ Hat) as Hat1.
      match type of H1 with
      | match ?scrut with _ => _ end = _ => destruct scrut as [m'|] eqn:E
      end.
      + injection H1 as ->.
        destruct (i <? i + len x1)%nat; [|discriminate E].
        destruct (IHf _ _ _ E Hat1) as (x2 & rest2 & cs2 & -> & (n & M2) & H2).
        exists (x1 ++ x2), rest2, cs2. split; [symmetry; apply append_assoc'|].
        split.
        * exists (S n). cbn [iterM]. exists x1, x2. auto.
        * rewrite len_append, Nat.add_assoc. exact H2.
      + exists x1, rest1, cs1. split; [reflexivity|]. split; [|exact H1].
        exists O. cbn [iterM]. exists x1, "". rewrite append_empty_r. auto. }
    exact (L (S (len s)) i cs rest H Hat).
  - cbn [run] in H. revert i cs rest H Hat.
    induction n as [|n IHn]; intros i cs rest H Hat.
    + exists "", rest, cs. cbn [len String.length matches iterM append].
      rewrite Nat.add_0_r. auto.
    + destruct (IH1 _ _ _ _ _ _ H Hat) as (x1 & rest1 & cs1 & -> & M1 & H1).
      pose proof (restAt_app _ _ _ _ Hat) as Hat1.
      destruct (IHn _ _ _ H1 Hat1) as (x2 & rest2 & cs2 & -> & M2 & H2).
      exists (x1 ++ x2), rest2, cs2. split; [symmetry; apply append_assoc'|].
      split; [cbn [matches iterM]; exists x1, x2; auto|].
      rewrite len_append, Nat.add_assoc. exact H2.
  - cbn [run] in H.
    destruct (IH1 _ _ _ _ _ _ H Hat) as (x & rest' & cs' & ? & ? & ?).
    exists x, rest'. eexists. cbn [matches]. eauto.
  - cbn [run] in H. destruct (Nat.eqb_spec i 0) as [->|]; [|discriminate H].
    exists "", rest, cs. cbn [len String.length matches append]. auto.
  - cbn [run] in H. destruct (Nat.eqb_spec i (len s)) as [->|]; [|discriminate H].
    exists "", rest, cs. cbn [len String.length matches append].
    rewrite Nat.add_0_r. auto.
Qed.

Lemma search_sound (r : regex) (s : string) (m : spans) :
  forall fuel i,
    search fuel r s i = Some m ->
    exists i', (i <= i' <= i + fuel)%nat
               /\ run r s i' [] (fun j cs => Some ((O, (i', j)) :: cs)) = Some m.
Proof.
  induction fuel as [|fuel IH]; intros i H; cbn [search] in H.
  - destruct (run r s i [] _) eqn:E; [|discriminate H].
    exists i. split; [lia|]. rewrite E. exact H.
  - destruct (run r s i [] _) eqn:E.
    + exists i. split; [lia|]. rewrite E. exact H.
    + destruct (IH _ H) as (i' & B & R). exists i'. split; [lia | exact R].
Qed.

Lemma restAt_drop (s : string) (i : nat) : (i <= len s)%nat -> restAt s i (drop i s).
Proof.
  intros H. exists (take i s). split; [symmetry; apply take_drop | apply len_take; exact H].
Qed.

Lemma iterM_digits (s : string) (n : nat) :
  forall i x, iterM (matches Digit s) n i x -> allDigits x = true /\ len x = n.
Proof.
  induction n as [|n IH]; intros i x H; cbn [iterM] in H.
  - subst x. auto.
  - destruct H as (x1 & x2 & -> & (c & Hc & ->) & H2).
    destruct (IH _ _ H2) as [D L]. cbn [append allDigits len String.length].
    fold (len x2). rewrite Hc, D, L. auto.
Qed.

Lemma iterM_digitField (s : string) (n : nat) (i : nat) (x : string) :
  iterM (matches Digit s) n i x -> digitField n x = true.
Proof.
  intros H. destruct (iterM_digits s n i x H) as [D L].
  unfold digitField. rewrite D, L, Nat.eqb_refl. reflexivity.
Qed.

(** An input that the pattern matches has the lexical form. *)
Lemma xmlDateTimeRe_inv (s : string) :
  FindStringSubmatch xmlDateTimeRe s <> [] -> lexicalForm s.
Proof.
  unfold lexicalForm.
  intros H. unfold FindStringSubmatch in H.
  destruct (search (len s) xmlDateTimeRe s 0) as [m|] eqn:E; [clear H | congruence].
  destruct (search_sound _ _ _ _ _ E) as (i' & B & R).
  destruct (run_sound _ _ _ _ _ _ _ R (restAt_drop s i' ltac:(lia)))
    as (x & rest' & cs' & Ex & M & _).
  unfold xmlDateTimeRe in M. cbn [cats matches] in M.
  destruct M as (b & r0 & Ex0 & (Eb & Ei) & y & r1 & Er0 & (sg & yf & Ey & Hsg & Hyf)
                 & l1 & r2 & Er1 & El1 & mof & r3 & Er2 & Hmo
                 & l2 & r4 & Er3 & El2 & df & r5 & Er4 & Hd
                 & l3 & r6 & Er5 & El3 & hf & r7 & Er6 & Hh
                 & l4 & r8 & Er7 & El4 & mif & r9 & Er8 & Hmi
                 & l5 & r10 & Er9 & El5 & sf & r11 & Er10 & Hs
                 & frac & r12 & Er11 & Hfrac & tz & e & Er12 & Htz & Ee & Hend).
  apply (iterM_digits s) in Hyf, Hmo, Hd, Hh, Hmi, Hs.
  subst i' b e l1 l2 l3 l4 l5. cbn [drop] in Ex.
  assert (Hfrac' : exists ds, lexicalFraction frac ds).
  { destruct Hfrac as [(p & ds & -> & -> & n & Hds) | ->].
    - exists ds. right. destruct (iterM_digits s _ _ _ Hds) as [D L].
      repeat split; [exact D | destruct ds; [discriminate L | discriminate]].
    - exists "". left. auto. }
  destruct Hfrac' as (ds & Hlex).
  assert (Htz' : tz = "" \/ tz = "Z"
                 \/ exists sg hh mm,
                      (sg = "+"%char \/ sg = "-"%char)
                      /\ digitField 2 hh = true /\ digitField 2 mm = true
                      /\ tz = String sg (hh ++ ":" ++ mm)).
  { destruct Htz as [[(a & c & -> & (g & hh & -> & (c0 & Hc0 & ->) & Hhh)
                       & l & mm & -> & -> & Hmm) | ->] | ->]; [|auto|auto].
    right; right. exists c0, hh, mm.
    apply (iterM_digitField s) in Hhh, Hmm.
    split; [|split; [exact Hhh|split; [exact Hmm|]]].
    - cbn [inCutset] in Hc0.
      destruct (Ascii.eqb_spec c0 "+"); [left; assumption|].
      destruct (Ascii.eqb_spec c0 "-"); [right; assumption|]. discriminate Hc0.
    - cbn [append]. rewrite ?append_assoc'. reflexivity. }
  assert (Erest : rest' = "").
  { apply (f_equal len) in Ex. subst x r0 r1 r2 r3 r4 r5 r6 r7 r8 r9 r10 r11 r12 y.
    repeat rewrite len_append in *. cbn [len String.length] in *.
    destruct rest'; [reflexivity|]. cbn [len String.length] in Ex. lia. }
  subst rest'. rewrite append_empty_r in Ex.
  exists (match sg with EmptyString => false | _ => true end),
    yf, mof, df, hf, mif, sf, frac, ds, tz.
  split.
  { subst r0 r1 r2 r3 r4 r5 r6 r7 r8 r9 r10 r11 r12 y. rewrite Ex, Ex0.
    destruct Hsg as [-> | ->]; cbn [append];
      repeat (progress (repeat rewrite append_assoc'; cbn [append]));
      rewrite ?append_empty_r; reflexivity. }
  unfold digitField.
  destruct Hyf as [-> ->], Hmo as [-> ->], Hd as [-> ->], Hh as [-> ->],
           Hmi as [-> ->], Hs as [-> ->].
  repeat split; auto.
Qed.

(** What the fraction decoder accepts when it is given digits only. *)
Lemma parseFractionalSecond_digits_ok (ds r : string) (n : Z) :
  allDigits ds = true -> parseFractionalSecond ds = Ok (n, r) ->
  (1 <= len ds <= 9)%nat /\ lastByte ds <> Some "0"%char
  /\ n = digitsValue ds * 10 ^ (9 - Z.of_nat (len ds)).
Proof.
  intros Hd P.
  destruct (parseFractionalSecond_inv _ _ _ P)
    as (ds0 & E & D0 & L0 & Last0 & Sr & En & _).
  assert (r = "").
  { rewrite E, allDigits_append in Hd. apply andb_prop in Hd. destruct Hd as [_ Hd].
    destruct r as [|c r]; [reflexivity|]. simpl in Hd, Sr.
    apply andb_prop in Hd. destruct Hd; congruence. }
  subst r. rewrite append_empty_r in E. subst ds0. auto.
Qed.

Lemma ParseRe_inv (s : string) (t : Time) : ParseRe s = Ok t -> acceptedRe s t.
Proof.
  intros P.
  assert (Hm : FindStringSubmatch xmlDateTimeRe s <> []).
  { intros E. unfold ParseRe in P. rewrite E in P. discriminate P. }
  destruct (xmlDateTimeRe_inv s Hm)
    as (neg & yf & mof & df & hf & mif & sf & frac & ds & tz & -> & Fy & Fmo & Fd
        & Fh & Fmi & Fs & Hlex & Hz).
  assert (Hns : forall (k : Z -> result Time),
             (ns <- (if nonEmpty ds then '(n, _) <- parseFractionalSecond ds ;; Ok n
                     else Ok 0) ;; k ns) = Ok t ->
             exists ns, k ns = Ok t
               /\ ((frac = "" /\ ns = 0)
                   \/ exists ds, frac = "." ++ ds /\ allDigits ds = true
                        /\ (1 <= len ds <= 9)%nat /\ lastByte ds <> Some "0"%char
                        /\ ns = digitsValue ds * 10 ^ (9 - Z.of_nat (len ds)))).
  { intros k Hk. destruct Hlex as [[-> ->] | (-> & Dds & Nds)].
    - exists 0. split; [exact Hk | left; auto].
    - replace (nonEmpty ds) with true in Hk by (destruct ds; [congruence | reflexivity]).
      destruct (parseFractionalSecond ds) as [[n r]|e|p] eqn:Pf; try discriminate Hk.
      exists n. split; [exact Hk|]. right. exists ds.
      destruct (parseFractionalSecond_digits_ok ds r n Dds Pf) as (L & Last & En). auto. }
  destruct Hz as [Hz | [Hz | (sg & hh & mm & Hsg & Fhh & Fmm & ->)]].
  - rewrite (ParseRe_lexical_utc neg yf mof df hf mif sf frac ds tz) in P
      by (assumption || auto).
    destruct (Hns _ P) as (ns & Hk & Hf).
    exists neg, yf, mof, df, hf, mif, sf, frac, tz, ns, UTC.
    repeat (split; [first [reflexivity | assumption]|]).
    split; [left; auto | congruence].
  - rewrite (ParseRe_lexical_utc neg yf mof df hf mif sf frac ds tz) in P
      by (assumption || auto).
    destruct (Hns _ P) as (ns & Hk & Hf).
    exists neg, yf, mof, df, hf, mif, sf, frac, tz, ns, UTC.
    repeat (split; [first [reflexivity | assumption]|]).
    split; [left; auto | congruence].
  - rewrite (ParseRe_lexical_zone neg yf mof df hf mif sf frac ds sg hh mm) in P
      by assumption.
    destruct (Hns _ P) as (ns & Hk & Hf). cbv zeta in Hk.
    destruct ((if Ascii.eqb sg "-" then - digitsValue hh else digitsValue hh) >? 14)
      eqn:E14; [discriminate Hk|].
    eexists neg, yf, mof, df, hf, mif, sf, frac, _, ns, _.
    repeat (split; [first [reflexivity | assumption]|]).
    split; [|symmetry; injection Hk as Hk; exact Hk].
    right. exists sg, hh, mm.
    repeat (split; [first [reflexivity | assumption]|]).
    split; [|reflexivity].
    intros ->. cbn [Ascii.eqb Bool.eqb] in E14.
    rewrite Z.gtb_ltb in E14. apply Z.ltb_ge in E14. exact E14.
Qed.

Lemma ParseRe_fields (s : string) (t : Time) : acceptedRe s t -> ParseRe s = Ok t.
Proof.
  intros (neg & yf & mof & df & hf & mif & sf & frac & tz & ns & l & -> & Fy & Fmo
          & Fd & Fh & Fmi & Fs & Hfrac & Hz & ->).
  assert (Hlex : exists ds,
             lexicalFraction frac ds
             /\ (if nonEmpty ds then '(n, _) <- parseFractionalSecond ds ;; Ok n
                 else Ok 0) = Ok ns).
  { destruct Hfrac as [[-> ->] | (ds & -> & Dds & Lds & Last & ->)].
    - exists "". split; [left; auto | reflexivity].
    - exists ds.
      assert (Nds : ds <> "") by (destruct ds; [simpl in Lds; lia | discriminate]).
      split; [right; auto|].
      replace (nonEmpty ds) with true by (destruct ds; [congruence | reflexivity]).
      pose proof (parseFractionalSecond_value ds "" Dds eq_refl Lds Last) as P.
      rewrite append_empty_r in P. rewrite P. reflexivity. }
  destruct Hlex as (ds & Hlex & EF).
  destruct Hz as [[Hz ->] | (sg & hh & mm & Hsg & Fhh & Fmm & -> & H14 & ->)].
  - rewrite (ParseRe_lexical_utc neg yf mof df hf mif sf frac ds tz)
      by (assumption || auto).
    rewrite EF. reflexivity.
  - rewrite (ParseRe_lexical_zone neg yf mof df hf mif sf frac ds sg hh mm)
      by assumption.
    rewrite EF. cbn [bind]. cbv zeta.
    pose proof (digitField_inv _ _ Fhh) as [Dh Lh].
    pose proof (digitsValue_bounds hh 2 Dh Lh) as Bh.
    replace ((if Ascii.eqb sg "-" then - digitsValue hh else digitsValue hh) >? 14)
      with false; [reflexivity|].
    symmetry. rewrite Z.gtb_ltb. apply Z.ltb_ge.
    destruct Hsg as [-> | ->]; cbn [Ascii.eqb Bool.eqb]; [apply H14; reflexivity | lia].
Qed.

(** ParseRe accepts exactly: an optional "-", a year of four digits, month,
    day, hour, minute and second of two digits with their delimiters, an
    optional fraction of one to nine digits not ending in 0, and an
    optional timezone, "Z" or a sign with two digits of hours, ":" and two
    digits of minutes, the hours at most 14 after "+".  It returns the time
    that time.Date builds from the numbers, in a zone without a name whose
    offset applies the sign to the hours only. *)
Theorem ParseRe_accepts (s : string) (t : Time) : ParseRe s = Ok t <-> acceptedRe s t.
Proof.
  split; [ apply ParseRe_inv | apply ParseRe_fields ].
Qed.

(** ParseRe reports "does not match format" exactly on the inputs that do
    not have the lexical form; on an input of the lexical form its only
    errors are those of the fraction and of the timezone hour. *)
Theorem ParseRe_no_match (s : string) :
  ParseRe s = Err (errorsNew "does not match format") <-> ~ lexicalForm s.
Proof.
  split.
  - intros P (neg & yf & mof & df & hf & mif & sf & frac & ds & tz & -> & Fy & Fmo
              & Fd & Fh & Fmi & Fs & Hlex & Hz).
    assert (Hf : forall e,
               parseFractionalSecond ds = Err e ->
               e <> errorsNew "does not match format").
    { intros e Pf. unfold parseFractionalSecond in Pf.
      destruct (fracLoop ds 0 0 0) as [[i ld] n].
      destruct (i =? 0)%nat; [injection Pf as <-; discriminate|].
      destruct (ld =? 0); [injection Pf as <-; discriminate|].
      unfold sliceFrom in Pf.
      destruct (len ds <? i)%nat; cbn [bind] in Pf; [discriminate Pf|].
      destruct (9 <? i)%nat; [injection Pf as <-; discriminate|].
      destruct (i <? 9)%nat; discriminate Pf. }
    destruct Hz as [Hz | [Hz | (sg & hh & mm & Hsg & Fhh & Fmm & ->)]].
    + rewrite (ParseRe_lexical_utc neg yf mof df hf mif sf frac ds tz) in P
        by (assumption || auto).
      destruct (nonEmpty ds); [|discriminate P].
      destruct (parseFractionalSecond ds) as [[n r]|e|p] eqn:Pf; try discriminate P.
      cbn [bind] in P. injection P as P. exact (Hf e eq_refl P).
    + rewrite (ParseRe_lexical_utc neg yf mof df hf mif sf frac ds tz) in P
        by (assumption || auto).
      destruct (nonEmpty ds); [|discriminate P].
      destruct (parseFractionalSecond ds) as [[n r]|e|p] eqn:Pf; try discriminate P.
      cbn [bind] in P. injection P as P. exact (Hf e eq_refl P).
    + rewrite (ParseRe_lexical_zone neg yf mof df hf mif sf frac ds sg hh mm) in P
        by assumption.
      cbv zeta in P.
      destruct (nonEmpty ds).
      * destruct (parseFractionalSecond ds) as [[n r]|e|p] eqn:Pf; cbn [bind] in P.
        -- destruct (_ >? 14) in P; discriminate P.
        -- injection P as P. exact (Hf e eq_refl P).
        -- discriminate P.
      * cbn [bind] in P. destruct (_ >? 14) in P; discriminate P.
  - intros Hn. unfold ParseRe.
    destruct (FindStringSubmatch xmlDateTimeRe s) as [|a sub] eqn:E; [reflexivity|].
    exfalso. apply Hn. apply xmlDateTimeRe_inv. rewrite E. discriminate.
Qed.

(** ** An accepted input with one byte removed *)

Lemma len_cut (s : string) :
  forall j, (j < len s)%nat -> len (take j s ++ drop (S j) s) = (len s - 1)%nat.
Proof.
  unfold len. induction s as [|c s IH]; intros j Hj; [simpl in Hj; lia|].
  destruct j as [|j].
  - cbn [take drop append String.length]. lia.
  - cbn [take drop append String.length]. cbn [String.length] in Hj.
    rewrite IH by lia. lia.
Qed.

Lemma cut_append_left (a b : string) :
  forall j, (j < len a)%nat ->
    take j (a ++ b) ++ drop (S j) (a ++ b) = (take j a ++ drop (S j) a) ++ b.
Proof.
  unfold len. induction a as [|c a IH]; intros j Hj; [simpl in Hj; lia|].
  destruct j as [|j].
  - reflexivity.
  - cbn [take drop append]. cbn [String.length] in Hj. rewrite IH by lia. reflexivity.
Qed.

Lemma cut_append_right (a b : string) (j : nat) :
  take (len a + j) (a ++ b) ++ drop (S (len a + j)) (a ++ b)
  = a ++ (take j b ++ drop (S j) b).
Proof.
  unfold len. induction a as [|c a IH]; [reflexivity|].
  cbn [String.length append]. change (S (String.length a) + j)%nat with (S (String.length a + j)).
  change (take (S (String.length a + j)) (String c (a ++ b)))
    with (String c (take (String.length a + j) (a ++ b))).
  change (drop (S (S (String.length a + j))) (String c (a ++ b)))
    with (drop (S (String.length a + j)) (a ++ b)).
  cbn [append]. rewrite IH. reflexivity.
Qed.

Lemma lastByte_append (a b : string) :
  b <> "" -> lastByte (a ++ b) = lastByte b.
Proof.
  intros Hb. induction a as [|c a IH]; [reflexivity|].
  cbn [append lastByte]. destruct (a ++ b) eqn:E; [|exact IH].
  destruct a; [cbn [append] in E; contradiction | discriminate E].
Qed.

Lemma allDigits_drop (n : nat) (s : string) :
  allDigits s = true -> allDigits (drop n s) = true.
Proof.
  revert s. induction n as [|n IH]; intros [|c s] H; simpl in *; try reflexivity.
  - exact H.
  - apply andb_prop in H. destruct H as [_ Hs]. exact (IH s Hs).
Qed.

Lemma digitRun_digits (ds : string) :
  forall (n : nat) (r : string),
    allDigits ds = true -> startsWithDigit r = false -> (len ds <= n)%nat ->
    digitRun n (ds ++ r) = ds.
Proof.
  unfold len. induction ds as [|c ds IH]; intros n r Hd Hr Hn.
  - cbn [append]. destruct n; [reflexivity|].
    destruct r as [|c r]; [reflexivity|]. cbn [digitRun]. simpl in Hr. rewrite Hr.
    reflexivity.
  - simpl in Hd. apply andb_prop in Hd. destruct Hd as [Hc Hd].
    destruct n as [|n]; [simpl in Hn; lia|].
    cbn [append digitRun]. rewrite Hc. rewrite IH; [reflexivity | exact Hd | exact Hr |].
    simpl in Hn. lia.
Qed.

Lemma isDigit_not_letter (c : ascii) :
  isDigit c = true ->
  Ascii.eqb c "." = false /\ Ascii.eqb c "Z" = false.
Proof.
  each_byte c; intros H; try discriminate H; split; reflexivity.
Qed.

Lemma fieldFirst_not_dot (c : ascii) :
  fieldFirst c = true -> Ascii.eqb c "." = false.
Proof.
  each_byte c; intros H; try discriminate H; reflexivity.
Qed.

Lemma decodeTail_no_panic (tail : string) : isPanic (decodeTail tail) = false.
Proof.
  unfold decodeTail. destruct tail as [|c f].
  - pose proof (parseTz_no_panic "") as H.
    destruct (parseTz ""); [reflexivity | reflexivity | discriminate H].
  - destruct (Ascii.eqb c ".").
    + pose proof (parseFractionalSecond_no_panic f) as H.
      destruct (parseFractionalSecond f) as [[n r]|e|p];
        [ | reflexivity | discriminate H ].
      cbn [bind]. pose proof (parseTz_no_panic r) as H'.
      destruct (parseTz r); [reflexivity | reflexivity | discriminate H'].
    + pose proof (parseTz_no_panic (String c f)) as H.
      destruct (parseTz (String c f)); [reflexivity | reflexivity | discriminate H].
Qed.

(** A timezone that the decoder accepts does not begin with a digit. *)
Lemma tzShape_nondigit (tz : string) :
  tzShape tz = true -> startsWithDigit tz = false.
Proof.
  intros H. destruct tz as [|g tz]; [reflexivity|].
  cbn [startsWithDigit]. destruct (isDigit g) eqn:Hg; [exfalso|reflexivity].
  destruct (isDigit_not_sign g Hg) as [Hp Hm].
  destruct (isDigit_not_letter g Hg) as [_ Hz].
  destruct tz as [|t1 tz]; [cbn [tzShape] in H; congruence|].
  do 4 (destruct tz as [|? tz]; [discriminate H|]).
  destruct tz; [|discriminate H].
  cbn [tzShape] in H. rewrite Hp, Hm in H. discriminate H.
Qed.

(** What the two decoders accept: a timezone, or a "." and a fraction
    followed by a timezone. *)
Lemma decodeTail_ok_parts (tail : string) :
  isOk (decodeTail tail) = true ->
  (isOk (parseTz tail) = true /\ tzShape tail = true)
  \/ exists ds tz,
       tail = String "." (ds ++ tz) /\ allDigits ds = true
       /\ (1 <= len ds <= 9)%nat /\ lastByte ds <> Some "0"%char
       /\ isOk (parseTz tz) = true /\ tzShape tz = true.
Proof.
  unfold decodeTail. intros H.
  assert (Htz : forall r, isOk (l <- parseTz r ;; Ok (0, l)) = true ->
                  isOk (parseTz r) = true /\ tzShape r = true).
  { intros r Hr. assert (isOk (parseTz r) = true)
      by (destruct (parseTz r); [reflexivity | discriminate Hr | discriminate Hr]).
    split; [assumption | apply parseTz_ok_shape; assumption]. }
  destruct tail as [|c f]; [left; apply Htz; exact H|].
  destruct (Ascii.eqb c ".") eqn:Ec; [|left; apply Htz; exact H].
  apply Ascii.eqb_eq in Ec. subst c. right.
  destruct (parseFractionalSecond f) as [[n r]|e|p] eqn:Ef;
    [ | discriminate H | discriminate H ].
  cbn [bind] in H.
  destruct (parseFractionalSecond_inv _ _ _ Ef) as (ds & E & Hd & Hl & Hlast & _).
  exists ds, r. subst f.
  assert (Hr : isOk (parseTz r) = true)
    by (destruct (parseTz r); [reflexivity | discriminate H | discriminate H]).
  repeat split; try assumption; try lia.
  apply parseTz_ok_shape; exact Hr.
Qed.

(** A "." and digits, then [rest]: the decoders accept when the digits are
    at least one and do not end in "0", and the timezone decoder accepts
    [rest]. *)
Lemma decodeTail_fraction (ds rest : string) :
  allDigits ds = true -> startsWithDigit rest = false -> (len ds <= 9)%nat ->
  isOk (decodeTail (String "." (ds ++ rest)))
  = endsNonZero ds && isOk (parseTz rest).
Proof.
  intros Hd Hr Hl. unfold decodeTail. cbn [Ascii.eqb Bool.eqb].
  unfold endsNonZero.
  destruct (lastByte ds) as [c|] eqn:El.
  - destruct (Ascii.eqb c "0") eqn:Ec.
    + apply Ascii.eqb_eq in Ec. subst c.
      pose proof (parseFractionalSecond_trailing_zero ds rest Hd Hr El) as E.
      destruct (parseFractionalSecond (ds ++ rest)); try discriminate E. reflexivity.
    + assert (Hne : lastByte ds <> Some "0"%char).
      { rewrite El. intros X. injection X as X. subst c. discriminate Ec. }
      assert (Hl1 : (1 <= len ds <= 9)%nat).
      { destruct ds; [discriminate El | simpl in *; lia]. }
      rewrite (parseFractionalSecond_value ds rest Hd Hr Hl1 Hne). cbn [bind negb andb].
      destruct (parseTz rest); reflexivity.
  - assert (ds = "").
    { destruct ds as [|a ds]; [reflexivity|].
      destruct (lastByte_cons ds a) as [c E]. congruence. }
    subst ds. cbn [append].
    pose proof (parseFractionalSecond_empty rest Hr) as E.
    destruct (parseFractionalSecond rest); try discriminate E. reflexivity.
Qed.

Lemma string_app_inv_head (a : string) :
  forall x y, a ++ x = a ++ y -> x = y.
Proof.
  induction a as [|c a IH]; intros x y E; [exact E|].
  cbn [append] in E. injection E as E. exact (IH x y E).
Qed.

(** Digits, then two more digits and a ":", where a timezone is expected:
    the decoders refuse. *)
Lemma decodeTail_merged (ds : string) (t1 t2 t4 t5 : ascii) :
  allDigits ds = true -> isDigit t1 = true -> isDigit t2 = true ->
  isOk (decodeTail
          (String "." (ds ++ String t1 (String t2 (String ":" (String t4 (String t5 "")))))))
  = false.
Proof.
  intros Hd H1 H2. unfold decodeTail. cbn [Ascii.eqb Bool.eqb].
  destruct (parseFractionalSecond
              (ds ++ String t1 (String t2 (String ":" (String t4 (String t5 ""))))))
    as [[n rest]|e|p] eqn:P; [|reflexivity|reflexivity].
  destruct (parseFractionalSecond_inv _ _ _ P) as (ds0 & E & D0 & _ & _ & Sr & _).
  assert (Eds : ds ++ String t1 (String t2 "") = ds0).
  { apply (digit_prefix_unique _ ds0 (String ":" (String t4 (String t5 ""))) rest).
    - rewrite allDigits_append, Hd. cbn [allDigits]. rewrite H1, H2. reflexivity.
    - exact D0.
    - reflexivity.
    - exact Sr.
    - rewrite <- E, append_assoc'. reflexivity. }
  subst ds0. rewrite append_assoc' in E. apply string_app_inv_head in E.
  cbn [append] in E. injection E as E. subst rest. reflexivity.
Qed.
Lemma endsInZ_digit (a : string) (c : ascii) :
  isDigit c = true -> endsInZ (a ++ String c "") = false.
Proof.
  intros Hc. unfold endsInZ. rewrite lastByte_append by discriminate.
  cbn [lastByte]. exact (proj2 (isDigit_not_letter c Hc)).
Qed.

Lemma endsInZ_digits (ds : string) :
  allDigits ds = true -> endsInZ ds = false.
Proof.
  intros Hd. unfold endsInZ. destruct (lastByte ds) as [c|] eqn:E; [|reflexivity].
  exact (proj2 (isDigit_not_letter c (lastByte_isDigit ds c Hd E))).
Qed.

Ltac tz_cut_case :=
  cbn [take drop append]; unfold decodeTail;
  repeat match goal with
         | H : fieldFirst ?c = true |- context [Ascii.eqb ?c "."] =>
             rewrite (fieldFirst_not_dot c H)
         end;
  cbn [Ascii.eqb Bool.eqb]; reflexivity.

(** One byte removed from what follows the seconds of an accepted input:
    the decoders accept the rest when the byte is a final "Z", or a digit
    of the fraction whose other digits are at least one and do not end in
    "0", and in no other case. *)
Lemma decodeTail_cut (tail : string) (k : nat) :
  isOk (decodeTail tail) = true -> (k < len tail)%nat ->
  isOk (decodeTail (take k tail ++ drop (S k) tail))
  = ((S k =? len tail)%nat && endsInZ tail) || fractionDigitKept tail k.
Proof.
  intros H Hk.
  destruct (decodeTail_ok_parts tail H)
    as [[Hp Hs]|(ds & tz & -> & Hd & Hl & Hlast & Hp & Hs)].
  - destruct tail as [|g tz]; [simpl in Hk; lia|].
    destruct tz as [|t1 tz].
    + cbn [tzShape] in Hs. apply Ascii.eqb_eq in Hs. subst g.
      destruct k; [reflexivity | simpl in Hk; lia].
    + do 4 (destruct tz as [|? tz]; [discriminate Hs|]).
      destruct tz; [|discriminate Hs].
      cbn [tzShape] in Hs. split_facts Hs.
      assert (Er : ((S k =? len (String g (String t1 (String a (String ":" (String a1 (String a2 "")))))))%nat
                    && endsInZ (String g (String t1 (String a (String ":" (String a1 (String a2 "")))))))
                   || fractionDigitKept (String g (String t1 (String a (String ":" (String a1 (String a2 "")))))) k
                   = false).
      { unfold endsInZ, fractionDigitKept. cbn [lastByte].
        match goal with
        | F : isDigit a2 = true |- _ => rewrite (proj2 (isDigit_not_letter a2 F))
        end.
        rewrite andb_false_r. cbn [orb].
        apply orb_prop in Hs. destruct Hs as [Hs|Hs]; apply Ascii.eqb_eq in Hs; subst g;
          reflexivity. }
      rewrite Er. clear Er.
      apply orb_prop in Hs. destruct Hs as [Hs|Hs]; apply Ascii.eqb_eq in Hs; subst g.
      * do 6 (destruct k as [|k]; [tz_cut_case|]).
        exfalso; revert Hk; clear; cbn [len String.length]; lia.
      * do 6 (destruct k as [|k]; [tz_cut_case|]).
        exfalso; revert Hk; clear; cbn [len String.length]; lia.
  - pose proof (tzShape_nondigit tz Hs) as Hr.
    assert (Erun : digitRun (len (ds ++ tz)) (ds ++ tz) = ds).
    { apply digitRun_digits; [exact Hd | exact Hr | rewrite len_append; lia]. }
    unfold fractionDigitKept. cbv zeta. rewrite Erun. cbn [Ascii.eqb Bool.eqb andb].
    destruct k as [|k].
    + (* the "." *)
      cbn [take drop append Nat.leb andb orb].
      replace (1 =? len (String "." (ds ++ tz)))%nat with false.
      2:{ symmetry. apply Nat.eqb_neq. cbn [len String.length]. fold (len (ds ++ tz)).
          rewrite len_append. lia. }
      cbn [andb orb].
      destruct ds as [|d ds]; [simpl in Hl; lia|].
      simpl in Hd. apply andb_prop in Hd. destruct Hd as [Hd0 Hd].
      cbn [append]. unfold decodeTail.
      rewrite (proj1 (isDigit_not_letter d Hd0)).
      destruct (parseTz (String d (ds ++ tz))) eqn:P; [|reflexivity|reflexivity].
      exfalso.
      assert (Hq : isOk (parseTz (String d (ds ++ tz))) = true) by (rewrite P; reflexivity).
      apply parseTz_ok_shape, tzShape_nondigit in Hq. simpl in Hq. congruence.
    + change (take (S k) (String "." (ds ++ tz)) ++ drop (S (S k)) (String "." (ds ++ tz)))
        with (String "." (take k (ds ++ tz) ++ drop (S k) (ds ++ tz))).
      cbn [len String.length] in Hk. fold (len (ds ++ tz)) in Hk.
      rewrite len_append in Hk.
      change (1 <=? S k)%nat with true. cbn [andb].
      replace (S k - 1)%nat with k by lia.
      destruct (Nat.ltb_spec k (len ds)) as [Hin|Hout].
      * (* a digit of the fraction *)
        rewrite (cut_append_left ds tz k Hin).
        rewrite decodeTail_fraction.
        -- rewrite Hp, andb_true_r.
           replace (S k <=? len ds)%nat with true by (symmetry; apply Nat.leb_le; lia).
           cbn [andb].
           assert (Ez : ((S (S k) =? len (String "." (ds ++ tz)))%nat
                         && endsInZ (String "." (ds ++ tz))) = false).
           { cbn [len String.length]. fold (len (ds ++ tz)). rewrite len_append.
             destruct tz as [|g tz'].
             - rewrite append_empty_r. unfold endsInZ.
               change (String "." ds) with ("." ++ ds).
               rewrite lastByte_append by (destruct ds; [simpl in Hl; lia | discriminate]).
               fold (endsInZ ds). rewrite (endsInZ_digits ds Hd). apply andb_false_r.
             - replace (S (S k) =? S (len ds + len (String g tz')))%nat with false;
                 [reflexivity|].
               symmetry. apply Nat.eqb_neq. cbn [len String.length]. lia. }
           rewrite Ez. reflexivity.
        -- rewrite allDigits_append, (allDigits_take k ds Hd), (allDigits_drop (S k) ds Hd).
           reflexivity.
        -- exact Hr.
        -- rewrite (len_cut ds k Hin). lia.
      * (* a byte of the timezone *)
        replace (S k <=? len ds)%nat with false by (symmetry; apply Nat.leb_gt; lia).
        cbn [andb]. rewrite orb_false_r.
        replace k with (len ds + (k - len ds))%nat by lia.
        rewrite cut_append_right.
        remember (k - len ds)%nat as j eqn:Ej.
        assert (Hj : (j < len tz)%nat) by lia.
        clear Ej Hk Hout k.
        destruct tz as [|g tz]; [simpl in Hj; lia|].
        destruct tz as [|t1 tz].
        -- cbn [tzShape] in Hs. apply Ascii.eqb_eq in Hs. subst g.
           destruct j; [|simpl in Hj; lia].
           cbn [take drop append].
           rewrite decodeTail_fraction by (try assumption; try reflexivity; lia).
           unfold endsNonZero.
           destruct (lastByte ds) as [c|] eqn:El.
           2:{ destruct ds as [|a ds']; [simpl in Hl; lia|].
               destruct (lastByte_cons ds' a) as [c E]. congruence. }
           assert (Ec : Ascii.eqb c "0" = false).
           { apply Ascii.eqb_neq. intros ->. apply Hlast. reflexivity. }
           rewrite Ec. cbn [negb andb isOk parseTz len String.length].
           cbn [len String.length]. fold (len (ds ++ "Z")). rewrite len_append.
           cbn [len String.length].
           replace (S (S (len ds + 0)) =? S (len ds + 1))%nat with true
             by (symmetry; apply Nat.eqb_eq; lia).
           unfold endsInZ. change (String "." (ds ++ "Z")) with (("." ++ ds) ++ "Z").
           rewrite lastByte_append by discriminate. reflexivity.
        -- do 4 (destruct tz as [|? tz]; [discriminate Hs|]).
           destruct tz; [|discriminate Hs].
           cbn [tzShape] in Hs. split_facts Hs.
           assert (Ez : endsInZ (String "." (ds ++ String g (String t1 (String a (String ":" (String a1 (String a2 ""))))))) = false).
           { unfold endsInZ.
             change (String "." (ds ++ String g (String t1 (String a (String ":" (String a1 (String a2 "")))))))
               with (("." ++ ds) ++ String g (String t1 (String a (String ":" (String a1 (String a2 "")))))).
             rewrite lastByte_append by discriminate. cbn [lastByte].
             match goal with
             | F : isDigit a2 = true |- _ => exact (proj2 (isDigit_not_letter a2 F))
             end. }
           rewrite Ez, andb_false_r. clear Ez.
           assert (Hg : startsWithDigit (String g "") = false).
           { apply orb_prop in Hs. destruct Hs as [Hs|Hs]; apply Ascii.eqb_eq in Hs; subst g;
               reflexivity. }
           cbn [startsWithDigit] in Hg.
           destruct j as [|j].
           ++ cbn [take drop append].
              destruct (isDigit t1) eqn:H1.
              ** apply decodeTail_merged; assumption.
              ** rewrite decodeTail_fraction by (try assumption; try lia).
                 unfold parseTz. cbn [len String.length isOk]. apply andb_false_r.
           ++ do 5 (destruct j as [|j];
                    [ cbn [take drop append];
                      rewrite decodeTail_fraction by (try assumption; try lia);
                      unfold parseTz; cbn [len String.length isOk]; apply andb_false_r | ]).
              exfalso; revert Hj; clear; cbn [len String.length]; lia.
Qed.

(** An input that [scanFrom] accepts begins with the nineteen bytes of the
    fields and their delimiters. *)
Lemma scanFrom_ok_head (sign : Z) (s : string) :
  isOk (scanFrom sign s) = true -> scannedHead s = true.
Proof.
  intros H. revert H.
  do 19 (destruct s as [|? s]; [ unfold scanFrom; scan_header | ]).
  unfold scanFrom. scan_header.
  reduce_header. cbn [scannedHead]. intros _.
  repeat match goal with
  | H : fieldShape (String _ (String _ "")) = true |- _ =>
      apply fieldShape2 in H; destruct H as [? ?]
  | H : fieldShape (String _ (String _ (String _ (String _ "")))) = true |- _ =>
      apply fieldShape4 in H; destruct H as (? & ? & ? & ?)
  end.
  repeat match goal with
  | H : isDigit _ = true |- _ => rewrite H; clear H
  | H : fieldFirst _ = true |- _ => rewrite H; clear H
  end.
  reflexivity.
Qed.

(** From eighteen bytes on, [scanFrom] does not panic. *)
Lemma scanFrom_no_panic (sign : Z) (s : string) :
  (18 <= len s)%nat -> isPanic (scanFrom sign s) = false.
Proof.
  intros Hl.
  do 18 (destruct s as [|? s]; [ exfalso; revert Hl; clear; cbn [len String.length]; lia | ]).
  clear Hl. unfold scanFrom.
  destruct s as [|c18 s]; [ scan_header_panic | ].
  scan_header_panic.
  reduce_header.
  match goal with
  | |- context [decodeTail ?x] =>
      pose proof (decodeTail_no_panic x) as H;
      destruct (decodeTail x) as [[? ?]|?|?]; [reflexivity | reflexivity | discriminate H]
  end.
Qed.
Ltac head_cut_case :=
  cbn [take drop append];
  match goal with
  | |- isOk ?x = false =>
      let E := fresh "E" in
      destruct (isOk x) eqn:E; [ exfalso | reflexivity ];
      apply scanFrom_ok_head in E; cbn [scannedHead] in E;
      first [ discriminate E | split_facts E; first [ absurd_fact | congruence ] ]
  end.

(** One of the first nineteen bytes removed: a delimiter, or the byte after
    the seconds, comes where [scanFrom] wants a digit. *)
Lemma scanFrom_cut_head (sign : Z)
    (c0 c1 c2 c3 c5 c6 c8 c9 c11 c12 c14 c15 c17 c18 : ascii) (tail : string) (j : nat) :
  startsWithDigit tail = false -> (j < 19)%nat ->
  isOk (scanFrom sign
          (take j
             (String c0 (String c1 (String c2 (String c3 (String "-"
              (String c5 (String c6 (String "-" (String c8 (String c9 (String "T"
               (String c11 (String c12 (String ":" (String c14 (String c15 (String ":"
                (String c17 (String c18 tail)))))))))))))))))))
           ++ drop (S j)
             (String c0 (String c1 (String c2 (String c3 (String "-"
              (String c5 (String c6 (String "-" (String c8 (String c9 (String "T"
               (String c11 (String c12 (String ":" (String c14 (String c15 (String ":"
                (String c17 (String c18 tail)))))))))))))))))))))
  = false.
Proof.
  intros Ht Hj.
  destruct tail as [|c t]; [ | cbn [startsWithDigit] in Ht ];
    do 19 (destruct j as [|j]; [ head_cut_case | ]);
    exfalso; revert Hj; clear; lia.
Qed.

(** What the two decoders accept does not begin with a digit. *)
Lemma decodeTail_ok_nondigit (tail : string) :
  isOk (decodeTail tail) = true -> startsWithDigit tail = false.
Proof.
  intros H.
  destruct (decodeTail_ok_parts tail H) as [[_ Hs]|(ds & tz & -> & _)].
  - apply tzShape_nondigit; exact Hs.
  - reflexivity.
Qed.

Lemma isOk_decoded {A : Type} (tail : string) (k : Z -> Location -> A) :
  isOk ('(nsec, l) <- decodeTail tail ;; Ok (k nsec l)) = isOk (decodeTail tail)
  /\ isPanic ('(nsec, l) <- decodeTail tail ;; Ok (k nsec l)) = isPanic (decodeTail tail).
Proof.
  destruct (decodeTail tail) as [[n l]|e|p]; split; reflexivity.
Qed.

(** The fields and delimiters of an accepted input, one byte removed
    anywhere behind the sign: [scanFrom] accepts the rest when the byte is
    a final "Z" or a digit of the fraction that the fraction can lose, and
    refuses it in every other case. *)
Lemma scanFrom_cut (sign : Z) (yf mof df hf mif sf tail : string)
    (y mo d h mi sec : Z) (j : nat) :
  (len yf = 4 /\ len mof = 2 /\ len df = 2
   /\ len hf = 2 /\ len mif = 2 /\ len sf = 2)%nat ->
  strconv.ParseInt yf 64 = Ok y -> strconv.ParseInt mof 64 = Ok mo ->
  strconv.ParseInt df 64 = Ok d -> strconv.ParseInt hf 64 = Ok h ->
  strconv.ParseInt mif 64 = Ok mi -> strconv.ParseInt sf 64 = Ok sec ->
  isOk (decodeTail tail) = true ->
  forall A : string,
    A = yf ++ "-" ++ mof ++ "-" ++ df ++ "T" ++ hf ++ ":" ++ mif ++ ":" ++ sf ++ tail ->
    (j < len A)%nat ->
    isPanic (scanFrom sign (take j A ++ drop (S j) A)) = false
    /\ isOk (scanFrom sign (take j A ++ drop (S j) A))
       = ((S j =? len A)%nat && endsInZ A)
         || ((19 <=? j)%nat && fractionDigitKept (drop 19 A) (j - 19)).
Proof.
  intros (L1 & L2 & L3 & L4 & L5 & L6) P1 P2 P3 P4 P5 P6 Ht A EA Hj.
  assert (LA : len A = (19 + len tail)%nat).
  { subst A. rewrite !len_append, L1, L2, L3, L4, L5, L6. cbn [len String.length]. lia. }
  split.
  { apply scanFrom_no_panic. rewrite (len_cut A j Hj). lia. }
  destruct (Nat.ltb_spec j 19) as [Hhead|Htail].
  - (* one of the nineteen bytes *)
    replace (19 <=? j)%nat with false by (symmetry; apply Nat.leb_gt; lia).
    cbn [andb]. rewrite orb_false_r.
    pose proof (ParseInt_ok_inv yf y P1 ltac:(lia)) as S1.
    pose proof (ParseInt_ok_inv mof mo P2 ltac:(lia)) as S2.
    pose proof (ParseInt_ok_inv df d P3 ltac:(lia)) as S3.
    pose proof (ParseInt_ok_inv hf h P4 ltac:(lia)) as S4.
    pose proof (ParseInt_ok_inv mif mi P5 ltac:(lia)) as S5.
    pose proof (ParseInt_ok_inv sf sec P6 ltac:(lia)) as S6.
    clear P1 P2 P3 P4 P5 P6.
    destruct yf as [|c0 [|c1 [|c2 [|c3 [|? ?]]]]]; try discriminate L1.
    destruct mof as [|c5 [|c6 [|? ?]]]; try discriminate L2.
    destruct df as [|c8 [|c9 [|? ?]]]; try discriminate L3.
    destruct hf as [|c11 [|c12 [|? ?]]]; try discriminate L4.
    destruct mif as [|c14 [|c15 [|? ?]]]; try discriminate L5.
    destruct sf as [|c17 [|c18 [|? ?]]]; try discriminate L6.
    cbn [append] in EA. apply fieldShape2 in S6. destruct S6 as [_ D18].
    assert (Ez : ((S j =? len A)%nat && endsInZ A) = false).
    { destruct tail as [|c t].
      - subst A. unfold endsInZ. cbn [lastByte].
        rewrite (proj2 (isDigit_not_letter c18 D18)). apply andb_false_r.
      - replace (S j =? len A)%nat with false; [reflexivity|].
        symmetry. apply Nat.eqb_neq. rewrite LA. cbn [len String.length]. lia. }
    rewrite Ez. subst A.
    apply scanFrom_cut_head; [ apply decodeTail_ok_nondigit; exact Ht | exact Hhead ].
  - (* a byte of the fraction or of the timezone *)
    replace (19 <=? j)%nat with true by (symmetry; apply Nat.leb_le; lia).
    cbn [andb].
    set (head := yf ++ "-" ++ mof ++ "-" ++ df ++ "T" ++ hf ++ ":" ++ mif ++ ":" ++ sf).
    assert (Eh : forall t,
               yf ++ "-" ++ mof ++ "-" ++ df ++ "T" ++ hf ++ ":" ++ mif ++ ":" ++ sf ++ t
               = head ++ t).
    { intros t. subst head.
      repeat (progress (repeat rewrite append_assoc'; cbn [append])). reflexivity. }
    assert (Lh : len head = 19%nat).
    { subst head. rewrite !len_append, L1, L2, L3, L4, L5, L6. reflexivity. }
    rewrite (Eh tail) in EA. subst A.
    replace (drop 19 (head ++ tail)) with tail
      by (rewrite <- Lh; symmetry; apply drop_append).
    remember (j - 19)%nat as k eqn:Ek.
    assert (Hk : (k < len tail)%nat) by lia.
    assert (Ej : j = (len head + k)%nat) by lia.
    rewrite Ej at 1 2. rewrite cut_append_right.
    rewrite <- Eh.
    rewrite (scanFrom_fields sign yf mof df hf mif sf _ y mo d h mi sec)
      by (repeat split; assumption).
    rewrite (proj1 (isOk_decoded _ _)).
    rewrite (decodeTail_cut tail k Ht Hk).
    f_equal. f_equal.
    + rewrite len_append, Lh.
      destruct (Nat.eqb_spec (S j) (19 + len tail)) as [E1|E1];
        destruct (Nat.eqb_spec (S k) (len tail)) as [E2|E2]; try reflexivity; lia.
    + unfold endsInZ. rewrite lastByte_append; [reflexivity|].
      destruct tail; [simpl in Hk; lia | discriminate].
Qed.

Lemma Parse_minus (r : string) : Parse (String "-" r) = scanFrom (-1) r.
Proof.
  rewrite Parse_scanFrom. reflexivity.
Qed.

Lemma Parse_unsigned (c : ascii) (r : string) :
  Ascii.eqb c "-" = false -> Ascii.eqb c "+" = false ->
  Parse (String c r) = scanFrom 1 (String c r).
Proof.
  intros Hm Hp. rewrite Parse_scanFrom.
  cbn [index String.get bind]. rewrite Hm, Hp. reflexivity.
Qed.

Lemma isErr_status {A : Type} (r : result A) :
  isPanic r = false -> isErr r = negb (isOk r).
Proof.
  destruct r; simpl; intros; congruence.
Qed.

(** C2 (amended).  Let Parse accept [s], and let [i] be an index into [s].
    On [s] with the byte at [i] removed, Parse returns an error, except in
    three cases, in which it returns a time: [i] is 0 and [s] begins with
    "-" followed by a digit; [i] is the last index and [s] ends in "Z"; the
    byte at [i] is a digit of the fraction, and the other digits of the
    fraction, in their order, are at least one and do not end in "0". *)
Theorem Parse_cutOut_error (s : string) (i : nat) :
  isOk (Parse s) = true -> (i < len s)%nat ->
  isErr (s' <- cutOut s i ;; Parse s') = negb (cutKept s i)
  /\ isOk (s' <- cutOut s i ;; Parse s') = cutKept s i.
Proof.
  intros Hok Hi. rewrite (cutOut_spec s i Hi). cbn [bind].
  enough (Hgoal : isPanic (Parse (take i s ++ drop (S i) s)) = false
                  /\ isOk (Parse (take i s ++ drop (S i) s)) = cutKept s i).
  { destruct Hgoal as [Hp Ho]. rewrite (isErr_status _ Hp), Ho. split; reflexivity. }
  destruct (Parse s) as [t| |] eqn:P; try discriminate Hok. clear Hok.
  apply Parse_inv in P.
  destruct P as (neg & yf & mof & df & hf & mif & sf & tail & y & mo & d & h & mi & sec
                 & nsec & l & Es & Hyd & Ls & P1 & P2 & P3 & P4 & P5 & P6 & Ht & _).
  assert (Ht' : isOk (decodeTail tail) = true) by (rewrite Ht; reflexivity).
  pose proof (fun sign j =>
                scanFrom_cut sign yf mof df hf mif sf tail y mo d h mi sec j
                  Ls P1 P2 P3 P4 P5 P6 Ht' _ eq_refl) as Hcut.
  pose proof (ParseInt_ok_inv yf y P1 ltac:(lia)) as S1.
  pose proof (fun sign => scanFrom_fields sign yf mof df hf mif sf tail y mo d h mi sec
                            Ls P1 P2 P3 P4 P5 P6) as Hwhole.
  assert (LA : (19 <= len (yf ++ "-" ++ mof ++ "-" ++ df ++ "T" ++ hf ++ ":" ++ mif
                           ++ ":" ++ sf ++ tail))%nat).
  { destruct Ls as (L1 & L2 & L3 & L4 & L5 & L6).
    rewrite !len_append, L1, L2, L3, L4, L5, L6. cbn [len String.length]. lia. }
  clear P1 P2 P3 P4 P5 P6 Ht.
  remember ("-" ++ mof ++ "-" ++ df ++ "T" ++ hf ++ ":" ++ mif ++ ":" ++ sf ++ tail)
    as R0 eqn:ER0.
  clear ER0.
  destruct yf as [|c0 [|c1 yf]]; try (exfalso; destruct Ls as [L1 _]; discriminate L1).
  cbn [fieldShape] in S1. apply andb_prop in S1. destruct S1 as [F0 D1].
  cbn [allDigits] in D1. apply andb_prop in D1. destruct D1 as [D1 _].
  cbn [append] in Hcut, Hwhole, LA, Es.
  remember (yf ++ R0) as R eqn:ER.
  clear ER Ls.
  destruct neg.
  - (* a negative year *)
    cbn [append] in Es. subst s. clear Hyd.
    destruct i as [|i].
    + (* the minus sign *)
      cbn [take drop append].
      assert (Ek : cutKept (String "-" (String c0 (String c1 R))) 0 = isDigit c0).
      { unfold cutKept, tailIndex. cbn [noYearSign Ascii.eqb Bool.eqb negb andb
                                        Nat.eqb drop startsWithDigit Nat.leb orb].
        replace (1 =? len (String "-" (String c0 (String c1 R))))%nat with false
          by (symmetry; apply Nat.eqb_neq; cbn [len String.length] in *; lia).
        cbn [andb orb]. rewrite !orb_false_r. reflexivity. }
      rewrite Ek. clear Ek.
      destruct (Ascii.eqb c0 "-") eqn:Em; [|destruct (Ascii.eqb c0 "+") eqn:Ep].
      * apply Ascii.eqb_eq in Em. subst c0. rewrite Parse_minus.
        destruct (Hcut (-1) 0%nat ltac:(lia)) as [Hp Ho].
        cbn [take drop append] in Hp, Ho. rewrite Hp, Ho.
        replace (1 =? len (String "-" (String c1 R)))%nat with false
          by (symmetry; apply Nat.eqb_neq; cbn [len String.length] in *; lia).
        split; reflexivity.
      * apply Ascii.eqb_eq in Ep. subst c0. rewrite Parse_scanFrom. split; reflexivity.
      * rewrite (fieldFirst_digit c0 F0 Em Ep).
        rewrite (Parse_unsigned c0 _ Em Ep), Hwhole.
        destruct (isOk_decoded tail (fun nsec l => Date (wrapInt (y * 1)) mo d h mi sec nsec l))
          as [Eo Epn].
        rewrite Eo, Epn, Ht', decodeTail_no_panic. split; reflexivity.
    + (* a byte behind the minus sign *)
      change (take (S i) (String "-" (String c0 (String c1 R)))
              ++ drop (S (S i)) (String "-" (String c0 (String c1 R))))
        with (String "-" (take i (String c0 (String c1 R))
                          ++ drop (S i) (String c0 (String c1 R)))).
      rewrite Parse_minus.
      assert (Hi' : (i < len (String c0 (String c1 R)))%nat)
        by (cbn [len String.length] in *; lia).
      destruct (Hcut (-1) i Hi') as [Hp Ho].
      split; [exact Hp|]. rewrite Ho. reflexivity.
  - (* no sign *)
    cbn [append] in Es. subst s.
    specialize (Hyd eq_refl). cbn [allDigits] in Hyd.
    apply andb_prop in Hyd. destruct Hyd as [D0 _].
    destruct (isDigit_not_sign c0 D0) as [Hp0 Hm0].
    destruct (isDigit_not_sign c1 D1) as [Hp1 Hm1].
    assert (EP : Parse (take i (String c0 (String c1 R)) ++ drop (S i) (String c0 (String c1 R)))
                 = scanFrom 1 (take i (String c0 (String c1 R))
                               ++ drop (S i) (String c0 (String c1 R)))).
    { destruct i as [|i].
      - cbn [take drop append]. apply Parse_unsigned; assumption.
      - change (take (S i) (String c0 (String c1 R)) ++ drop (S (S i)) (String c0 (String c1 R)))
          with (String c0 (take i (String c1 R) ++ drop (S i) (String c1 R))).
        apply Parse_unsigned; assumption. }
    rewrite EP. destruct (Hcut 1 i Hi) as [Hp Ho].
    split; [exact Hp|]. rewrite Ho.
    unfold cutKept, tailIndex. cbn [noYearSign]. rewrite Hm0. reflexivity.
Qed.

Lemma Parse_cutOut_error_witness :
  (isErr (s' <- cutOut "-2017-08-16T13:07:00.105Z" 5 ;; Parse s') = true
   /\ isOk (s' <- cutOut "-2017-08-16T13:07:00.105Z" 5 ;; Parse s') = false)
  /\ (isErr (s' <- cutOut "-2017-08-16T13:07:00.105Z" 23 ;; Parse s') = true
      /\ isOk (s' <- cutOut "-2017-08-16T13:07:00.105Z" 23 ;; Parse s') = false)
  /\ (isErr (s' <- cutOut "-2017-08-16T13:07:00.105Z" 22 ;; Parse s') = false
      /\ isOk (s' <- cutOut "-2017-08-16T13:07:00.105Z" 22 ;; Parse s') = true).
Proof.
  split; [ | split ].
  - apply (Parse_cutOut_error "-2017-08-16T13:07:00.105Z" 5); [reflexivity | simpl; lia].
  - apply (Parse_cutOut_error "-2017-08-16T13:07:00.105Z" 23); [reflexivity | simpl; lia].
  - apply (Parse_cutOut_error "-2017-08-16T13:07:00.105Z" 22); [reflexivity | simpl; lia].
Defined.

(** C2, as stated, fails: removing the final "Z", removing one of two
    fractional digits, or removing the sign of a negative year leaves an
    input that Parse accepts. *)
Lemma Parse_cutOut_accepted :
  isOk (Parse "2017-08-16T13:07:00Z") = true
  /\ (s' <- cutOut "2017-08-16T13:07:00Z" 19 ;; Parse s')
     = Ok (Date 2017 8 16 13 7 0 0 UTC)
  /\ Parse "2017-08-16T13:07:00.12" = Ok (Date 2017 8 16 13 7 0 120000000 UTC)
  /\ (s' <- cutOut "2017-08-16T13:07:00.12" 20 ;; Parse s')
     = Ok (Date 2017 8 16 13 7 0 200000000 UTC)
  /\ Parse "-2017-08-16T13:07:00" = Ok (Date (-2017) 8 16 13 7 0 0 UTC)
  /\ (s' <- cutOut "-2017-08-16T13:07:00" 0 ;; Parse s')
     = Ok (Date 2017 8 16 13 7 0 0 UTC).
Proof.
  repeat split; vm_compute; reflexivity.
Qed.

(** ** What [stringify] writes after the date and time *)

(** [stringify] writes the date and time of [Format], then the fraction,
    then the timezone. *)
Lemma stringify_parts (t : Time) :
  stringify t
  = Format t ++ fractionSuffix (nanos t) ++ zoneSuffix (zoneOffset (location t)).
Proof.
  unfold stringify, fractionSuffix, zoneSuffix. cbv zeta.
  destruct (nanos t >? 0); destruct (negb (zoneOffset (location t) =? 0));
    try destruct (Z.quot (Z.quot (zoneOffset (location t)) 60) 60 >? 0);
    repeat (progress (repeat rewrite append_assoc'; cbn [append]));
    rewrite ?append_empty_r; reflexivity.
Qed.

(** Whenever [parseFractionalSecond] accepts, reading the digits [ds] and
    leaving [rest], [stringify] writes for a time with the nanoseconds it
    returned, in any location, a "." and the digits [ds] again, between the
    date and time and the timezone that it writes without the
    nanoseconds. *)
Theorem parseFractionalSecond_printed (s rest : string) (n u : Z) (l : Location) :
  parseFractionalSecond s = Ok (n, rest) ->
  exists ds zone,
    s = ds ++ rest
    /\ stringify (mkTime u 0 l) = Format (mkTime u 0 l) ++ zone
    /\ stringify (mkTime u n l) = Format (mkTime u n l) ++ "." ++ ds ++ zone.
Proof.
  intros H.
  destruct (parseFractionalSecond_inv s rest n H)
    as (ds & -> & Hd & Hl & Hlast & _ & Hn & Hpos).
  exists ds, (zoneSuffix (zoneOffset l)).
  split; [reflexivity|]. rewrite !stringify_parts. cbn [nanos location].
  split; [reflexivity|].
  unfold fractionSuffix.
  replace (n >? 0) with true by (symmetry; rewrite Z.gtb_ltb; apply Z.ltb_lt; lia).
  rewrite Hn, (fraction_printed ds Hd Hl Hlast).
  repeat (progress (repeat rewrite append_assoc'; cbn [append])). reflexivity.
Qed.

Lemma parseFractionalSecond_printed_witness :
  exists ds zone,
    "09251+02:00" = ds ++ "+02:00"
    /\ stringify (mkTime 1502881620 0 (FixedZone "" (-7200)))
       = Format (mkTime 1502881620 0 (FixedZone "" (-7200))) ++ zone
    /\ stringify (mkTime 1502881620 92510000 (FixedZone "" (-7200)))
       = Format (mkTime 1502881620 92510000 (FixedZone "" (-7200)))
         ++ "." ++ ds ++ zone.
Proof.
  apply (parseFractionalSecond_printed "09251+02:00" "+02:00" 92510000
           1502881620 (FixedZone "" (-7200))).
  reflexivity.
Defined.

(** For a time with [n] nanoseconds, [0 < n < 10^9], in any location,
    [stringify] writes a "." and digits between the date and time and the
    timezone that it writes without the nanoseconds, and
    [parseFractionalSecond] reads these digits back as [n], whatever follows
    them, as long as it is not a digit. *)
Theorem fraction_read_back (n u : Z) (l : Location) (rest : string) :
  0 < n < 10 ^ 9 -> startsWithDigit rest = false ->
  exists f zone,
    stringify (mkTime u 0 l) = Format (mkTime u 0 l) ++ zone
    /\ stringify (mkTime u n l) = Format (mkTime u n l) ++ "." ++ f ++ zone
    /\ parseFractionalSecond (f ++ rest) = Ok (n, rest).
Proof.
  intros Hn Hrest.
  destruct (fraction_digits n Hn) as (f & Ef & Hd & Hl & Hlast & Hv).
  exists f, (zoneSuffix (zoneOffset l)).
  rewrite !stringify_parts. cbn [nanos location].
  split; [reflexivity|]. split.
  - unfold fractionSuffix.
    replace (n >? 0) with true by (symmetry; rewrite Z.gtb_ltb; apply Z.ltb_lt; lia).
    rewrite Ef.
    repeat (progress (repeat rewrite append_assoc'; cbn [append])). reflexivity.
  - rewrite (parseFractionalSecond_value f rest Hd Hrest Hl Hlast), Hv. reflexivity.
Qed.

Lemma fraction_read_back_witness :
  exists f zone,
    stringify (mkTime 1502881620 0 UTC) = Format (mkTime 1502881620 0 UTC) ++ zone
    /\ stringify (mkTime 1502881620 92510000 UTC)
       = Format (mkTime 1502881620 92510000 UTC) ++ "." ++ f ++ zone
    /\ parseFractionalSecond (f ++ "-02:00") = Ok (92510000, "-02:00").
Proof.
  apply (fraction_read_back 92510000 1502881620 UTC "-02:00"); [lia | reflexivity].
Defined.

(** The timezone written for an offset of an hour or more east: "+", the
    hours on three digits, ":", the minutes on two. *)
Lemma zoneSuffix_east_digits (off : Z) :
  3600 <= off < 360000 ->
  exists hhh mm,
    digitField 3 hhh = true /\ digitField 2 mm = true
    /\ digitsValue hhh = off / 3600 /\ digitsValue mm = (off / 60) mod 60
    /\ zoneSuffix off = "+" ++ hhh ++ ":" ++ mm.
Proof.
  intros Hoff. unfold zoneSuffix. cbv zeta.
  set (M := Z.quot off 60). set (H := Z.quot M 60).
  assert (BH : 1 <= H <= 99 /\ 0 <= M - 60 * H <= 59
               /\ H = off / 3600 /\ M - 60 * H = (off / 60) mod 60)
    by (subst H M; euclid).
  destruct BH as (BH & BR & EH & ER). clearbody H M.
  replace (off =? 0) with false by (symmetry; apply Z.eqb_neq; lia).
  replace (H >? 0) with true by (symmetry; rewrite Z.gtb_ltb; apply Z.ltb_lt; lia).
  cbn [negb]. rewrite (wrapInt_small (60 * H)) by lia.
  rewrite (wrapInt_small (M - 60 * H)) by lia.
  rewrite (fmtD0_nonneg 3 H), (fmtD0_nonneg 2 (M - 60 * H)) by lia.
  assert (B3 : 0 <= H < 10 ^ Z.of_nat 3) by (change (10 ^ Z.of_nat 3) with 1000; lia).
  assert (B2 : 0 <= M - 60 * H < 10 ^ Z.of_nat 2)
    by (change (10 ^ Z.of_nat 2) with 100; lia).
  destruct (padDigits_value 3 H ltac:(lia) B3) as (D3 & L3 & V3).
  destruct (padDigits_value 2 (M - 60 * H) ltac:(lia) B2) as (D2 & L2 & V2).
  exists (padDigits 3 H), (padDigits 2 (M - 60 * H)).
  unfold digitField. rewrite D3, D2, L3, L2, V3, V2, <- EH, <- ER.
  repeat split; reflexivity.
Qed.

(** For a real date and time in a timezone an hour or more east of
    Greenwich, [stringify] writes what it writes for the same date and time
    in UTC, then "+", the hours of the offset on three digits, ":" and the
    minutes on two digits; [Parse] refuses it, the timezone being on seven
    bytes. *)
Theorem Parse_stringify_east (y mo d h mi sec ns : Z) (l : Location) :
  -9999 <= y <= 9999 -> realDateTime y mo d h mi sec -> 0 <= ns < 10 ^ 9 ->
  3600 <= zoneOffset l < 360000 ->
  (exists hhh mm,
     digitField 3 hhh = true /\ digitField 2 mm = true
     /\ digitsValue hhh = zoneOffset l / 3600
     /\ digitsValue mm = (zoneOffset l / 60) mod 60
     /\ stringify (Date y mo d h mi sec ns l)
        = stringify (Date y mo d h mi sec ns UTC) ++ "+" ++ hhh ++ ":" ++ mm)
  /\ Parse (stringify (Date y mo d h mi sec ns l))
     = Err (errorsNew "timezone requires exactly 6 characters if not Z").
Proof.
  intros Hy Hreal Hn Hoff. split.
  - destruct (zoneSuffix_east_digits _ Hoff) as (hhh & mm & D3 & D2 & V3 & V2 & Ez).
    exists hhh, mm. repeat (split; [assumption|]).
    rewrite !stringify_Date by (try assumption; unfold absoluteZeroYear; lia).
    rewrite Ez. change (zoneSuffix (zoneOffset UTC)) with "".
    rewrite append_empty_r.
    repeat (progress (repeat rewrite append_assoc'; cbn [append])). reflexivity.
  - apply Parse_stringify_east_error; assumption.
Qed.

Lemma Parse_stringify_east_witness :
  (exists hhh mm,
     digitField 3 hhh = true /\ digitField 2 mm = true
     /\ digitsValue hhh = zoneOffset (FixedZone "+02:30" 9000) / 3600
     /\ digitsValue mm = (zoneOffset (FixedZone "+02:30" 9000) / 60) mod 60
     /\ stringify (Date 2017 8 16 13 7 0 92510000 (FixedZone "+02:30" 9000))
        = stringify (Date 2017 8 16 13 7 0 92510000 UTC) ++ "+" ++ hhh ++ ":" ++ mm)
  /\ Parse (stringify (Date 2017 8 16 13 7 0 92510000 (FixedZone "+02:30" 9000)))
     = Err (errorsNew "timezone requires exactly 6 characters if not Z").
Proof.
  apply (Parse_stringify_east 2017 8 16 13 7 0 92510000 (FixedZone "+02:30" 9000)).
  - lia.
  - unfold realDateTime. vm_compute. intuition discriminate.
  - lia.
  - simpl. lia.
Defined.

(** ** The strict scanner hands its fields to time.Date unchecked *)

(** C4 (amended).  An optional "-", then six fixed-width fields of decimal
    digits with their delimiters, whatever numbers they hold, then a rest:
    Parse returns the error of the fraction and timezone decoders when they
    refuse the rest, and otherwise the time that time.Date builds from the
    fields as read, the year negated behind a "-".  No value of month, day,
    hour, minute or second makes Parse report an error. *)
Theorem Parse_digit_fields (neg : bool) (y mo d h mi sec tail : string) :
  allDigits y = true -> len y = 4%nat ->
  allDigits mo = true -> len mo = 2%nat ->
  allDigits d = true -> len d = 2%nat ->
  allDigits h = true -> len h = 2%nat ->
  allDigits mi = true -> len mi = 2%nat ->
  allDigits sec = true -> len sec = 2%nat ->
  Parse ((if neg then "-" else "") ++ y ++ "-" ++ mo ++ "-" ++ d ++ "T"
         ++ h ++ ":" ++ mi ++ ":" ++ sec ++ tail)
  = ('(nsec, l) <- decodeTail tail ;;
     Ok (Date (if neg then - digitsValue y else digitsValue y)
              (digitsValue mo) (digitsValue d)
              (digitsValue h) (digitsValue mi) (digitsValue sec) nsec l)).
Proof.
  intros Dy Ly Dmo Lmo Dd Ld Dh Lh Dmi Lmi Ds Ls.
  apply Parse_on_fields.
  - intros _. exact Dy.
  - repeat split; assumption.
  - apply ParseInt_digits; [exact Dy | lia].
  - apply ParseInt_digits; [exact Dmo | lia].
  - apply ParseInt_digits; [exact Dd | lia].
  - apply ParseInt_digits; [exact Dh | lia].
  - apply ParseInt_digits; [exact Dmi | lia].
  - apply ParseInt_digits; [exact Ds | lia].
Qed.

Lemma Parse_digit_fields_witness :
  Parse "-2017-02-30T00:00:00" = Ok (Date (-2017) 2 30 0 0 0 0 UTC).
Proof.
  apply (Parse_digit_fields true "2017" "02" "30" "00" "00" "00" ""); reflexivity.
Defined.

(** C4, as stated, fails: 30 February, day 32 and month 13 are accepted and
    come out as 2 March, 1 February and January of the next year. *)
Lemma Parse_accepts_impossible_dates :
  (t <- Parse "2017-02-30T00:00:00" ;; Ok (stringify t)) = Ok "2017-03-02T00:00:00"
  /\ (t <- Parse "2017-01-32T00:00:00" ;; Ok (stringify t)) = Ok "2017-02-01T00:00:00"
  /\ (t <- Parse "2017-13-01T00:00:00" ;; Ok (stringify t)) = Ok "2018-01-01T00:00:00".
Proof.
  repeat split; vm_compute; reflexivity.
Qed.
